(** * A7 Smart POS: batch ledger, expiry classifier, scan grid, scanner history

    A shallow embedding of the inventory core of the point-of-sale application:

    - [JSDate]      the fragment of the JavaScript [Date] object the code uses
                    (epoch milliseconds, time zones, local midnight,
                    [setFullYear], the date part of [toISOString]);
    - [DateFns]     [differenceInDays] of the date library;
    - [Batch], [Product]   the records of [types.ts];
    - [Store]       [removeBatchStock], [_incrementStockLocal] and the request
                    built by [incrementStock], of [store.ts];
    - [Scanner]     the scanner history and [confirmAndSync] of [store.ts];
    - [BatchesApi]  the [POST /api/v1/products/:productId/batches] handler of
                    [backend/src/routes/api/batches.ts];
    - [ExpiryPage]  [useExpiryStats] and the return workflow of
                    [pages/Expiry.tsx];
    - [GridRow], [StockEntryPage]   [handleScan] and [handleSaveAll] of
                    [pages/StockEntry.tsx].

    JavaScript numbers that hold counts, quantities and prices are integers
    of [Z]; a [Date] is its time value in milliseconds since the epoch; a date
    string [YYYY-MM-DD] is the record of its three numbers. *)

From Stdlib Require Import ZArith Lia Sorted Permutation.
From stdpp Require Import prelude strings gmap.

Local Open Scope Z_scope.

(** ** JavaScript truthiness of strings *)

(** [s || d] on strings: the empty string is falsy. *)
Definition str_or (s d : string) : string :=
  if decide (s = EmptyString) then d else s.

(** [o || d] where [o] may be [undefined]/[null] (here [None]) or a string. *)
Definition opt_str_or (o : option string) (d : string) : string :=
  match o with
  | Some s => str_or s d
  | None => d
  end.

(** Truthiness of an optional string: [undefined], [null] and [''] are falsy. *)
Definition str_truthy (o : option string) : bool :=
  match o with
  | Some s => bool_decide (s ≠ EmptyString)
  | None => false
  end.

(** ** The JavaScript Date object *)

Module JSDate.

(** A calendar date as written in an ISO string [YYYY-MM-DD];
    [iso_month] is 1-based as in the string. *)
Record IsoDate := mkIso { iso_year : Z; iso_month : Z; iso_day : Z }.

#[global] Instance IsoDate_eq_dec : EqDecision IsoDate.
Proof. solve_decision. Defined.

Definition msPerDay : Z := 86400000.

(** [Day(t)] and [TimeWithinDay(t)] of ECMA-262. *)
Definition Day (t : Z) : Z := t `div` msPerDay.
Definition TimeWithinDay (t : Z) : Z := t `mod` msPerDay.

(** [DayFromYear(y)] and [DaysInYear(y)] of ECMA-262; [leapOf] is its
    [InLeapYear]. *)
Definition DayFromYear (y : Z) : Z :=
  365 * (y - 1970) + (y - 1969) `div` 4 - (y - 1901) `div` 100
  + (y - 1601) `div` 400.

Definition DaysInYear (y : Z) : Z :=
  if negb (y `mod` 4 =? 0) then 365
  else if negb (y `mod` 100 =? 0) then 366
  else if negb (y `mod` 400 =? 0) then 365
  else 366.

Definition leapOf (y : Z) : Z := DaysInYear y - 365.

(** The year of a day number: the largest [y] with [DayFromYear(y)] not
    after the day, found from an estimate that is off by at most one. *)
Definition YearFromDay (day : Z) : Z :=
  let y := 1970 + (400 * day) `div` 146097 in
  if day <? DayFromYear y then y - 1
  else if DayFromYear (y + 1) <=? day then y + 1
  else y.

(** The day within the year on which month [m] (0-based) starts. *)
Definition monthStart (leap m : Z) : Z :=
  if m =? 0 then 0 else if m =? 1 then 31
  else if m =? 2 then 59 + leap else if m =? 3 then 90 + leap
  else if m =? 4 then 120 + leap else if m =? 5 then 151 + leap
  else if m =? 6 then 181 + leap else if m =? 7 then 212 + leap
  else if m =? 8 then 243 + leap else if m =? 9 then 273 + leap
  else if m =? 10 then 304 + leap else 334 + leap.

(** The month (0-based) of a day within a year. *)
Definition monthOfDay (leap dwy : Z) : Z :=
  if dwy <? 31 then 0 else if dwy <? 59 + leap then 1
  else if dwy <? 90 + leap then 2 else if dwy <? 120 + leap then 3
  else if dwy <? 151 + leap then 4 else if dwy <? 181 + leap then 5
  else if dwy <? 212 + leap then 6 else if dwy <? 243 + leap then 7
  else if dwy <? 273 + leap then 8 else if dwy <? 304 + leap then 9
  else if dwy <? 334 + leap then 10 else 11.

(** [YearFromTime], [MonthFromTime] (0-based) and [DateFromTime]. *)
Definition YearFromTime (t : Z) : Z := YearFromDay (Day t).

Definition DayWithinYear (t : Z) : Z := Day t - DayFromYear (YearFromTime t).

Definition MonthFromTime (t : Z) : Z :=
  monthOfDay (leapOf (YearFromTime t)) (DayWithinYear t).

Definition DateFromTime (t : Z) : Z :=
  DayWithinYear t
  - monthStart (leapOf (YearFromTime t)) (MonthFromTime t) + 1.

(** [MakeDay(year, month, date)]: the day number of the first of the month
    plus [date - 1]; a date past the end of the month runs over into the
    next one.  [month] is 0-based and may lie outside 0..11. *)
Definition MakeDay (year month date : Z) : Z :=
  let ym := year + month `div` 12 in
  let mn := month `mod` 12 in
  DayFromYear ym + monthStart (leapOf ym) mn + date - 1.

Definition MakeDate (day time : Z) : Z := day * msPerDay + time.

(** A time zone as ECMA-262 sees it through [LocalTZA]: [offsetAt t] is the
    offset from UTC, in milliseconds to the east, in force at the instant
    [t] ([LocalTZA(t, true)]), and [offsetOf lt] the offset by which the
    local time value [lt] is read back ([LocalTZA(lt, false)]).  Where the
    clocks change, both depend on their argument. *)
Record Zone := mkZone { offsetAt : Z → Z; offsetOf : Z → Z }.

(** The zone at a fixed offset [o]. *)
Definition fixed (o : Z) : Zone := mkZone (λ _, o) (λ _, o).

(** [LocalTime(t)] and [UTC(t)] of ECMA-262. *)
Definition LocalTime (tz : Zone) (t : Z) : Z := t + offsetAt tz t.
Definition UTC (tz : Zone) (lt : Z) : Z := lt - offsetOf tz lt.

Definition getFullYear (tz : Zone) (t : Z) : Z := YearFromTime (LocalTime tz t).

Definition getDate (tz : Zone) (t : Z) : Z := DateFromTime (LocalTime tz t).

(** [d.setFullYear(year)]: month, date and time of day of the local time
    are kept. *)
Definition setFullYear (tz : Zone) (t year : Z) : Z :=
  let lt := LocalTime tz t in
  UTC tz (MakeDate (MakeDay year (MonthFromTime lt) (DateFromTime lt))
                   (TimeWithinDay lt)).

(** [d.setDate(date)]: year, month and time of day of the local time are
    kept. *)
Definition setDate (tz : Zone) (t date : Z) : Z :=
  let lt := LocalTime tz t in
  UTC tz (MakeDate (MakeDay (YearFromTime lt) (MonthFromTime lt) date)
                   (TimeWithinDay lt)).

(** [d.setHours(0, 0, 0, 0)]: midnight of the local day. *)
Definition setHours0 (tz : Zone) (t : Z) : Z :=
  let lt := LocalTime tz t in
  UTC tz (MakeDate (Day lt) 0).

(** [d.toISOString().split('T')[0]]: the UTC calendar date. *)
Definition toISODate (t : Z) : IsoDate :=
  mkIso (YearFromTime t) (MonthFromTime t + 1) (DateFromTime t).

(** [new Date('YYYY-MM-DD')]: midnight UTC of that date. *)
Definition ofISODate (s : IsoDate) : Z :=
  MakeDate (MakeDay (iso_year s) (iso_month s - 1) (iso_day s)) 0.

(** [31536000000] milliseconds, the literal added to [Date.now()]. *)
Definition ms365days : Z := 31536000000.

End JSDate.

(** An integer stands for the zone at that fixed offset. *)
Coercion JSDate.fixed : Z >-> JSDate.Zone.

(** ** The date library ([date-fns])

    [differenceInDays] and the functions it calls, as the library defines
    them (version 2 and later), on time values. *)

Module DateFns.

(** [compareLocalAsc]: the sign of the first difference among the local
    year, month, date, hours, minutes, seconds and milliseconds, which is the
    sign of the difference of the local time values. *)
Definition compareLocalAsc (tz : JSDate.Zone) (dateLeft dateRight : Z) : Z :=
  Z.sgn (JSDate.LocalTime tz dateLeft - JSDate.LocalTime tz dateRight).

Definition startOfDay (tz : JSDate.Zone) (date : Z) : Z := JSDate.setHours0 tz date.

(** The time value less the one whose UTC fields are the local fields. *)
Definition getTimezoneOffsetInMilliseconds (tz : JSDate.Zone) (date : Z) : Z :=
  date - JSDate.LocalTime tz date.

(** [Math.round(a / d)] for a positive [d]: halves go up. *)
Definition roundDiv (a d : Z) : Z := (2 * a + d) `div` (2 * d).

Definition differenceInCalendarDays (tz : JSDate.Zone) (dateLeft dateRight : Z)
    : Z :=
  let startOfDayLeft := startOfDay tz dateLeft in
  let startOfDayRight := startOfDay tz dateRight in
  let timestampLeft :=
    startOfDayLeft - getTimezoneOffsetInMilliseconds tz startOfDayLeft in
  let timestampRight :=
    startOfDayRight - getTimezoneOffsetInMilliseconds tz startOfDayRight in
  roundDiv (timestampLeft - timestampRight) JSDate.msPerDay.

(** [differenceInDays(dateLeft, dateRight)]: the full days between the two,
    counted in local time and rounded towards zero. *)
Definition differenceInDays (tz : JSDate.Zone) (dateLeft dateRight : Z) : Z :=
  let sign := compareLocalAsc tz dateLeft dateRight in
  let difference := Z.abs (differenceInCalendarDays tz dateLeft dateRight) in
  let dateLeft' :=
    JSDate.setDate tz dateLeft (JSDate.getDate tz dateLeft - sign * difference) in
  let isLastDayNotFull :=
    if decide (compareLocalAsc tz dateLeft' dateRight = - sign) then 1 else 0 in
  sign * (difference - isLastDayNotFull).

End DateFns.

(** ** Data model ([types.ts]) *)

Module Batch.
Record t := mk {
  id : string;
  batchNumber : string;
  expiryDate : JSDate.IsoDate;
  quantity : Z;
  costPrice : Z
}.

(** [{ ...b, quantity: q }] *)
Definition with_quantity (b : t) (q : Z) : t :=
  mk (id b) (batchNumber b) (expiryDate b) q (costPrice b).

(** [{ ...b, quantity: q, costPrice: c }] *)
Definition with_quantity_cost (b : t) (q c : Z) : t :=
  mk (id b) (batchNumber b) (expiryDate b) q c.

#[global] Instance eq_dec : EqDecision t.
Proof. solve_decision. Defined.
End Batch.

(** A field that holds a string, [null], or nothing ([undefined]).  The
    [gtin] of a product is a string or absent in an object that the client
    wrote, and a string or [null] in one that the API answered with. *)
Module Nullable.
Inductive t := undefined | null | str (s : string).

#[global] Instance eq_dec : EqDecision t.
Proof. solve_decision. Defined.
End Nullable.

Module Product.
(** [genericName] and [description], which no modelled function reads or
    writes, are left out. *)
Record t := mk {
  id : string;
  sku : string;
  gtin : Nullable.t;
  nameEn : string;
  nameMm : string;
  category : string;
  price : Z;
  image : string;
  stockLevel : Z;
  unit : string;
  minStockLevel : Z;
  batches : list Batch.t;
  requiresPrescription : bool;
  branchId : string;
  location : option string
}.

(** [{ ...p, stockLevel: s, batches: bs }] *)
Definition with_stock (p : t) (s : Z) (bs : list Batch.t) : t :=
  mk (id p) (sku p) (gtin p) (nameEn p) (nameMm p) (category p) (price p)
     (image p) s (unit p) (minStockLevel p) bs (requiresPrescription p)
     (branchId p) (location p).

(** [{ ...p, stockLevel: s, batches: bs, location: l, unit: u }] *)
Definition with_stock_meta (p : t) (s : Z) (bs : list Batch.t)
    (l : option string) (u : string) : t :=
  mk (id p) (sku p) (gtin p) (nameEn p) (nameMm p) (category p) (price p)
     (image p) s u (minStockLevel p) bs (requiresPrescription p)
     (branchId p) l.

#[global] Instance eq_dec : EqDecision t.
Proof. solve_decision. Defined.
End Product.

(** The sum of the quantities of a list of batches, [Σ batch.quantity]. *)
Definition batchTotal (bs : list Batch.t) : Z :=
  foldr (λ b acc, Batch.quantity b + acc) 0 bs.

(** The batch numbers of a list of batches, in order. *)
Definition batchNumbers (bs : list Batch.t) : list string :=
  Batch.batchNumber <$> bs.

(** [bs.findIndex(b => b.batchNumber === bn)] together with the batch found;
    [None] stands for the index [-1]. *)
Definition findBatch (bn : string) (bs : list Batch.t) : option (nat * Batch.t) :=
  list_find (λ b, Batch.batchNumber b = bn) bs.

(** ** The product store ([store.ts], [useProductStore]) *)

Module Store.

Record ProductState := mkState {
  allProducts : list Product.t;   (* master copy *)
  products : list Product.t       (* view filtered by the current branch *)
}.

(** [updatedAll.filter(p => p.branchId === currentBranchId)] *)
Definition branchView (currentBranchId : string) (ps : list Product.t)
    : list Product.t :=
  filter (λ p, Product.branchId p = currentBranchId) ps.

(** The body of the [map] callback of [removeBatchStock] for the product
    whose [id] matched.  The batch array is copied and the batch found is
    written at its index; when no batch has the number, [p] itself is
    returned. *)
Definition removeFromProduct (batchNumber : string) (quantity : Z)
    (p : Product.t) : Product.t :=
  match findBatch batchNumber (Product.batches p) with
  | Some (batchIndex, b) =>
      let currentQty := Batch.quantity b in
      let newQty := Z.max 0 (currentQty - quantity) in
      let updatedBatches :=
        if newQty =? 0
        then <[batchIndex := Batch.with_quantity b 0]> (Product.batches p)
        else <[batchIndex := Batch.with_quantity b newQty]> (Product.batches p) in
      Product.with_stock p (Z.max 0 (Product.stockLevel p - quantity))
                         updatedBatches
  | None => p
  end.

(** [removeBatchStock(productId, batchNumber, quantity, reason)]; [reason]
    is not read by the body. *)
Definition removeBatchStock (currentBranchId : string)
    (productId batchNumber : string) (quantity : Z) (reason : option string)
    (state : ProductState) : ProductState :=
  let updatedAll :=
    (λ p, if decide (Product.id p = productId)
          then removeFromProduct batchNumber quantity p
          else p) <$> allProducts state in
  mkState updatedAll (branchView currentBranchId updatedAll).

(** The body of the [map] callback of [_incrementStockLocal] for the
    product whose [id] matched.  [newId] is the generated batch id and
    [now] the value of [Date.now()]. *)
Definition incrementLocalProduct (newId : string) (now : Z)
    (batchNumber : option string) (quantity : Z)
    (unit location : option string) (expiryDate : option JSDate.IsoDate)
    (costPrice : option Z) (p : Product.t) : Product.t :=
  let expiry := default (JSDate.toISODate (now + JSDate.ms365days)) expiryDate in
  let cost := default 0 costPrice in
  let bs := Product.batches p in
  let updatedBatches :=
    if str_truthy batchNumber && bool_decide (batchNumber ≠ Some "DEFAULT"%string)
    then
      let bn := default EmptyString batchNumber in
      match findBatch bn bs with
      | Some (batchIndex, b) =>
          <[batchIndex := Batch.with_quantity b (Batch.quantity b + quantity)]> bs
      | None => bs ++ [Batch.mk newId bn expiry quantity cost]
      end
    else
      match bs with
      | b0 :: rest => Batch.with_quantity b0 (Batch.quantity b0 + quantity) :: rest
      | [] => [Batch.mk newId "DEFAULT" expiry quantity cost]
      end in
  Product.with_stock_meta p (Product.stockLevel p + quantity) updatedBatches
    (if str_truthy location then location else Product.location p)
    (opt_str_or unit (Product.unit p)).

Definition _incrementStockLocal (currentBranchId : string) (newId : string)
    (now : Z) (id : string) (batchNumber : option string) (quantity : Z)
    (unit location : option string) (expiryDate : option JSDate.IsoDate)
    (costPrice : option Z) (state : ProductState) : ProductState :=
  let updatedAll :=
    (λ p, if decide (Product.id p = id)
          then incrementLocalProduct newId now batchNumber quantity unit
                 location expiryDate costPrice p
          else p) <$> allProducts state in
  mkState updatedAll (branchView currentBranchId updatedAll).

(** The request body [batchData] that [incrementStock] sends to
    [api.createBatch]. *)
Record BatchData := mkBatchData {
  bd_batchNumber : string;
  bd_expiryDate : JSDate.IsoDate;
  bd_quantity : Z;
  bd_costPrice : Z
}.

(** The default expiry of [incrementStock]:
    [defaultDate.setFullYear(defaultDate.getFullYear() + 1)], as an instant. *)
Definition defaultExpiryInstant (tz : JSDate.Zone) (now : Z) : Z :=
  JSDate.setFullYear tz now (JSDate.getFullYear tz now + 1).

(** [incrementStock] up to the call of [api.createBatch]: [tz] is the
    local zone and [now] the call time.  On integers
    [Math.floor(Number(quantity)) || 0] is [quantity]. *)
Definition incrementStock_batchData (tz : JSDate.Zone) (now : Z)
    (batchNumber : option string) (quantity : Z)
    (expiryDate : option JSDate.IsoDate) (costPrice : option Z) : BatchData :=
  let expiryDateValue :=
    match expiryDate with
    | Some e => e
    | None => JSDate.toISODate (defaultExpiryInstant tz now)
    end in
  mkBatchData (opt_str_or batchNumber "DEFAULT") expiryDateValue
              quantity (default 0 costPrice).

End Store.

(** ** The scanner history store ([store.ts], [useScannerStore]) *)

Module Scanner.

Inductive SyncStatus := PENDING | SYNCED | ERROR.

Inductive LogAction := INSERT | UPDATE.
Inductive LogStatus := SUCCESS | FAILED.

Record ScannedItem := mkItem {
  id : string;
  gtin : option string;
  productName : string;
  batchNumber : option string;
  expiryDate : option JSDate.IsoDate;
  serialNumber : option string;
  quantity : Z;
  unit : option string;
  timestamp : Z;
  syncStatus : SyncStatus;
  syncMessage : option string;
  rawData : string;
  type : string;
  scannedBy : string;
  verified : bool;
  location : option string;
  costPrice : option Z
}.

(** [{ ...item, productName, syncStatus, syncMessage, verified: true }] *)
Definition settle (it : ScannedItem) (name : string) (st : SyncStatus)
    (msg : string) : ScannedItem :=
  mkItem (id it) (gtin it) name (batchNumber it) (expiryDate it)
         (serialNumber it) (quantity it) (unit it) (timestamp it) st
         (Some msg) (rawData it) (type it) (scannedBy it) true
         (location it) (costPrice it).

(** A log entry; [logTime] is the [Date.now()] its [id] and [timestamp]
    are printed from. *)
Record SyncLog := mkLog {
  logTime : Z;
  scanId : string;
  action : LogAction;
  logProduct : string;
  oldQuantity : Z;
  newQuantity : Z;
  status : LogStatus
}.

Record ScannerState := mkScanner {
  scannedItems : list ScannedItem;
  syncLogs : list SyncLog;
  activeScan : option ScannedItem
}.

Definition initial : ScannerState := mkScanner [] [] None.

(** [p.gtin === verifiedItem.gtin]: the [gtin] of the item is a string or
    [null] (here [None]).  A [null] of the product is strictly equal to the
    [null] of the item; an absent [gtin] of the product is [undefined] and
    equal to neither. *)
Definition gtinMatches (it : ScannedItem) (p : Product.t) : bool :=
  match Product.gtin p, gtin it with
  | Nullable.str a, Some b => bool_decide (a = b)
  | Nullable.null, None => true
  | _, _ => false
  end.

Definition identify (catalog : list Product.t) (it : ScannedItem)
    : option Product.t :=
  match List.find (gtinMatches it) catalog with
  | Some p => Some p
  | None =>
      if str_truthy (gtin it) then None
      else List.find (λ p, bool_decide (Product.sku p = rawData it)
                           || bool_decide (Product.id p = rawData it)) catalog
  end.

(** The arguments of the [incrementStock] call that a successful
    confirmation issues. *)
Record StockCall := mkCall {
  call_product : string;
  call_batchNumber : option string;
  call_quantity : Z;
  call_unit : option string;
  call_location : option string;
  call_expiryDate : option JSDate.IsoDate;
  call_costPrice : option Z
}.

(** [confirmAndSync(verifiedItem)] with the catalog [allProducts] of the
    product store and the clock reading [now]; the result is the returned
    boolean, the [incrementStock] call issued and the next state. *)
Definition confirmAndSync (catalog : list Product.t) (now : Z)
    (verifiedItem : ScannedItem) (state : ScannerState)
    : bool * option StockCall * ScannerState :=
  match identify catalog verifiedItem with
  | Some product =>
      let finalItem :=
        settle verifiedItem (Product.nameEn product) SYNCED "Verified & Added" in
      let log :=
        mkLog now (id finalItem) UPDATE (Product.nameEn product)
              (Product.stockLevel product)
              (Product.stockLevel product + quantity finalItem) SUCCESS in
      (true,
       Some (mkCall (Product.id product) (batchNumber verifiedItem)
               (quantity verifiedItem) (unit verifiedItem)
               (location verifiedItem) (expiryDate verifiedItem)
               (costPrice verifiedItem)),
       mkScanner (take 500 (finalItem :: scannedItems state))
                 (take 200 (log :: syncLogs state))
                 None)
  | None =>
      let errorItem :=
        settle verifiedItem (productName verifiedItem) ERROR
          "Product not found. Please add to master list first." in
      (false, None,
       mkScanner (take 500 (errorItem :: scannedItems state))
                 (syncLogs state)
                 None)
  end.

(** [clearHistory()] *)
Definition clearHistory (state : ScannerState) : ScannerState :=
  mkScanner [] [] (activeScan state).

(** A run of confirmations, each with the catalog and clock of its time. *)
Definition confirmAll (events : list (list Product.t * Z * ScannedItem))
    (state : ScannerState) : ScannerState :=
  foldl (λ st ev, (confirmAndSync ev.1.1 ev.1.2 ev.2 st).2) state events.

End Scanner.

(** ** The batch routes of the backend ([routes/api/batches.ts]) *)

Module BatchesApi.

(** The database as the handler sees it: products keyed by their primary
    key [id], each with the rows of the batch table that carry its
    [productId], in the order the database returns them. *)
Abbreviation Db := (gmap string Product.t).

(** The request body after the coercions of [createBatchSchema]. *)
Record Body := mkBody {
  batchNumber : string;
  expiryDate : JSDate.IsoDate;
  quantity : Z;
  costPrice : Z
}.

Inductive HttpError :=
| BadRequest        (* 400, the user has no branch *)
| ValidationError   (* the schema rejected the body *)
| NotFound.         (* 404, no such product in the user's branch *)

(** [createBatchSchema.parse]: [batchNumber] has at least one character,
    [quantity] is an integer [>= 0], [costPrice] is positive. *)
Definition createBatchSchema (body : Body) : HttpError + Body :=
  if bool_decide (batchNumber body ≠ EmptyString)
     && (0 <=? quantity body) && (0 <? costPrice body)
  then inr body
  else inl ValidationError.

(** [prisma.product.findFirst({ where: { id, branchId } })] *)
Definition findProduct (db : Db) (productId branchId : string)
    : option Product.t :=
  match db !! productId with
  | Some p => if decide (Product.branchId p = branchId) then Some p else None
  | None => None
  end.

(** [prisma.batch.update({ where: { id: existing.id }, data })]: [id] is the
    primary key, so the row written is the row that [findFirst] returned,
    here the one at [index] among the product's rows. *)
Definition updateBatch (db : Db) (productId : string) (index : nat)
    (row : Batch.t) : Db :=
  alter (λ p, Product.with_stock p (Product.stockLevel p)
                (<[index := row]> (Product.batches p))) productId db.

(** [prisma.batch.create({ data: { ...data, productId } })] *)
Definition createBatch (db : Db) (productId : string) (row : Batch.t) : Db :=
  alter (λ p, Product.with_stock p (Product.stockLevel p)
                (Product.batches p ++ [row])) productId db.

(** [prisma.product.update({ where: { id }, data: { stockLevel } })] *)
Definition updateStockLevel (db : Db) (productId : string) (level : Z) : Db :=
  alter (λ p, Product.with_stock p level (Product.batches p)) productId db.

(** The response: status code and the batch sent back. *)
Record Response := mkResponse { status : Z; sent : Batch.t }.

(** [POST /api/v1/products/:productId/batches].  [userBranch] is
    [req.user?.branchId] and [newId] the key the database gives a created
    row.  An error leaves the database as it was. *)
Definition post (userBranch : option string) (productId : string)
    (body : Body) (newId : string) (db : Db) : HttpError + (Response * Db) :=
  if negb (str_truthy userBranch) then inl BadRequest else
  match createBatchSchema body with
  | inl e => inl e
  | inr data =>
      match findProduct db productId (default EmptyString userBranch) with
      | None => inl NotFound
      | Some product =>
          match findBatch (batchNumber data) (Product.batches product) with
          | Some (index, existingBatch) =>
              let batch :=
                Batch.with_quantity_cost existingBatch
                  (Batch.quantity existingBatch + quantity data)
                  (costPrice data) in
              let db1 := updateBatch db productId index batch in
              let db2 := updateStockLevel db1 productId
                           (Product.stockLevel product + quantity data) in
              inr (mkResponse 200 batch, db2)
          | None =>
              let batch :=
                Batch.mk newId (batchNumber data) (expiryDate data)
                         (quantity data) (costPrice data) in
              let db1 := createBatch db productId batch in
              let db2 := updateStockLevel db1 productId
                           (Product.stockLevel product + quantity data) in
              inr (mkResponse 201 batch, db2)
          end
      end
  end.

(** The database after a request, whatever its outcome. *)
Definition post_db (userBranch : option string) (productId : string)
    (body : Body) (newId : string) (db : Db) : Db :=
  match post userBranch productId body newId db with
  | inr (_, db') => db'
  | inl _ => db
  end.

(** [incrementStock] of the store followed by the handler: the body sent
    is the [batchData] of the store. *)
Definition bodyOf (d : Store.BatchData) : Body :=
  mkBody (Store.bd_batchNumber d) (Store.bd_expiryDate d)
         (Store.bd_quantity d) (Store.bd_costPrice d).

End BatchesApi.

(** ** The expiry centre ([pages/Expiry.tsx]) *)

Module ExpiryPage.

Inductive Status := CRITICAL | WARNING | WATCH | GOOD.

#[global] Instance Status_eq_dec : EqDecision Status.
Proof. solve_decision. Defined.

Record ExpiryItem := mkItem {
  id : string;
  product : Product.t;
  batch : Batch.t;
  daysRemaining : Z;
  status : Status;
  valueAtRisk : Z
}.

Record Bucket := mkBucket { count : Z; value : Z }.

Module ExpiryStats.
Record t := mk { CRITICAL : Bucket; WARNING : Bucket; WATCH : Bucket; ALL : Bucket }.
End ExpiryStats.

(** [b.count++; b.value += v] *)
Definition bump (b : Bucket) (v : Z) : Bucket :=
  mkBucket (count b + 1) (value b + v).

(** [stats[status].count++; stats[status].value += v] for a status other
    than [GOOD]. *)
Definition bumpTier (s : ExpiryStats.t) (st : Status) (v : Z) : ExpiryStats.t :=
  match st with
  | CRITICAL => ExpiryStats.mk (bump (ExpiryStats.CRITICAL s) v) (ExpiryStats.WARNING s)
                               (ExpiryStats.WATCH s) (ExpiryStats.ALL s)
  | WARNING => ExpiryStats.mk (ExpiryStats.CRITICAL s) (bump (ExpiryStats.WARNING s) v)
                              (ExpiryStats.WATCH s) (ExpiryStats.ALL s)
  | WATCH => ExpiryStats.mk (ExpiryStats.CRITICAL s) (ExpiryStats.WARNING s)
                            (bump (ExpiryStats.WATCH s) v) (ExpiryStats.ALL s)
  | GOOD => s
  end.

Definition bumpAll (s : ExpiryStats.t) (v : Z) : ExpiryStats.t :=
  ExpiryStats.mk (ExpiryStats.CRITICAL s) (ExpiryStats.WARNING s)
                 (ExpiryStats.WATCH s) (bump (ExpiryStats.ALL s) v).

Definition emptyStats : ExpiryStats.t :=
  ExpiryStats.mk (mkBucket 0 0) (mkBucket 0 0) (mkBucket 0 0) (mkBucket 0 0).

(** The chain of comparisons that assigns the tier. *)
Definition classify (daysRemaining : Z) : Status :=
  if daysRemaining <=? 30 then CRITICAL
  else if daysRemaining <=? 60 then WARNING
  else if daysRemaining <=? 90 then WATCH
  else GOOD.

(** [items.sort((a, b) => a.daysRemaining - b.daysRemaining)]: the sort of
    an array is stable, so an item goes in front of the first one it does
    not exceed. *)
Fixpoint insertItem (x : ExpiryItem) (l : list ExpiryItem) : list ExpiryItem :=
  match l with
  | [] => [x]
  | y :: l' =>
      if daysRemaining x - daysRemaining y <=? 0
      then x :: y :: l'
      else y :: insertItem x l'
  end.

Definition sortItems (l : list ExpiryItem) : list ExpiryItem :=
  foldr insertItem [] l.

Section Classifier.

(** [differenceInDays] of the date library: the number of full days from
    the second instant to the first. *)
Variable differenceInDays : Z → Z → Z.

(** The item built for one batch; [today] is midnight of the current day. *)
Definition itemOf (today : Z) (p : Product.t) (b : Batch.t) : ExpiryItem :=
  let expiryDate := JSDate.ofISODate (Batch.expiryDate b) in
  let daysRemaining := differenceInDays expiryDate today in
  let valueAtRisk := Batch.quantity b * Batch.costPrice b in
  mkItem (Product.id p +:+ "-" +:+ Batch.id b) p b daysRemaining
         (classify daysRemaining) valueAtRisk.

(** The body of [product.batches.forEach], acting on [stats] and [items]. *)
Definition visitBatch (today : Z) (p : Product.t)
    (acc : ExpiryStats.t * list ExpiryItem) (b : Batch.t)
    : ExpiryStats.t * list ExpiryItem :=
  if Batch.quantity b <=? 0 then acc
  else
    let it := itemOf today p b in
    let stats1 := bumpAll acc.1 (valueAtRisk it) in
    let stats2 :=
      if decide (status it ≠ GOOD)
      then bumpTier stats1 (status it) (valueAtRisk it)
      else stats1 in
    (stats2, acc.2 ++ [it]).

Definition visitProduct (today : Z)
    (acc : ExpiryStats.t * list ExpiryItem) (p : Product.t)
    : ExpiryStats.t * list ExpiryItem :=
  foldl (visitBatch today p) acc (Product.batches p).

(** [useExpiryStats(products)], computed at the instant [now] in the zone
    [tz]. *)
Definition useExpiryStats (tz : JSDate.Zone) (now : Z) (products : list Product.t)
    : ExpiryStats.t * list ExpiryItem :=
  let today := JSDate.setHours0 tz now in
  let '(stats, items) := foldl (visitProduct today) (emptyStats, []) products in
  (stats, sortItems items).

End Classifier.

(** The date library in a zone without clock changes: the quotient of the
    distance in milliseconds by the length of a day, rounded towards zero. *)
Definition fullDaysBetween (later earlier : Z) : Z :=
  (later - earlier) `quot` JSDate.msPerDay.

(** *** The return workflow *)

Record Workflow := mkWorkflow {
  isReturnModalOpen : bool;
  selectedReturnItem : option ExpiryItem;
  returnQty : Z;
  isSubmittingReturn : bool
}.

Definition closed : Workflow := mkWorkflow false None 0 false.

Definition initiateReturn (item : ExpiryItem) (w : Workflow) : Workflow :=
  mkWorkflow true (Some item) (Batch.quantity (batch item)) (isSubmittingReturn w).

(** The [onChange] of the quantity field: [typed] is [parseInt] of the
    text, [None] when that is [NaN]. *)
Definition changeReturnQty (typed : option Z) (w : Workflow) : Workflow :=
  match selectedReturnItem w with
  | Some item =>
      mkWorkflow (isReturnModalOpen w) (selectedReturnItem w)
        (Z.min (default 0 typed) (Batch.quantity (batch item)))
        (isSubmittingReturn w)
  | None => w
  end.

(** [confirmReturn] together with the timer it starts: the guard, then the
    call of [removeBatchStock] and the closing of the dialog.  [None] is
    the early [return]. *)
Definition confirmReturn (currentBranchId : string) (w : Workflow)
    (state : Store.ProductState) : option (Workflow * Store.ProductState) :=
  match selectedReturnItem w with
  | None => None
  | Some item =>
      if returnQty w <=? 0 then None
      else
        Some (mkWorkflow false None (returnQty w) false,
              Store.removeBatchStock currentBranchId
                (Product.id (product item)) (Batch.batchNumber (batch item))
                (returnQty w) (Some "RETURN"%string) state)
  end.

(** The state of the page and of the store after [confirmReturn]. *)
Definition afterConfirm (currentBranchId : string) (w : Workflow)
    (state : Store.ProductState) : Workflow * Store.ProductState :=
  default (w, state) (confirmReturn currentBranchId w state).

End ExpiryPage.

(** ** The stock entry grid ([pages/StockEntry.tsx]) *)

Module GridRow.
Record t := mk {
  id : string;
  gtin : string;
  productName : string;
  category : string;
  batchNumber : string;
  expiryDate : option JSDate.IsoDate;   (* [None] is the empty text *)
  quantity : Z;
  unit : string;
  costPrice : Z;
  sellingPrice : Z;
  location : string;
  supplierId : string;
  isNew : bool;
  isHighlighted : bool
}.

(** [{ ...row, quantity: q, isHighlighted: h }] *)
Definition with_quantity_highlight (r : t) (q : Z) (h : bool) : t :=
  mk (id r) (gtin r) (productName r) (category r) (batchNumber r)
     (expiryDate r) q (unit r) (costPrice r) (sellingPrice r) (location r)
     (supplierId r) (isNew r) h.

#[global] Instance eq_dec : EqDecision t.
Proof. solve_decision. Defined.
End GridRow.

Module StockEntryPage.

(** What [parseBarcode] returns, as far as [handleScan] reads it. *)
Record Parsed := mkParsed {
  p_gtin : option string;
  p_rawData : option string;
  p_batchNumber : option string;
  p_expiryDate : option JSDate.IsoDate
}.

(** A scan: the text scanned, its parse and the [id] generated for a row. *)
Record Scan := mkScan { code : string; result : Parsed; rowId : string }.

(** [result.gtin || result.rawData || code] *)
Definition scannedCode (s : Scan) : string :=
  opt_str_or (p_gtin (result s)) (opt_str_or (p_rawData (result s)) (code s)).

Definition createEmptyRow (rowId barcode : string) : GridRow.t :=
  GridRow.mk rowId barcode EmptyString EmptyString EmptyString None 1 "PCS" 0 0 EmptyString EmptyString true false.

(** [allProducts.find(p => p.gtin === c || p.id === c || p.sku === c)] *)
Definition lookupProduct (allProducts : list Product.t) (c : string)
    : option Product.t :=
  List.find (λ p, bool_decide (Product.gtin p = Nullable.str c)
                  || bool_decide (Product.id p = c)
                  || bool_decide (Product.sku p = c)) allProducts.

(** The new row of a scan, filled from the catalog when the product is
    known. *)
Definition newRowFor (allProducts : list Product.t) (s : Scan) : GridRow.t :=
  let c := scannedCode s in
  let newRow := createEmptyRow (rowId s) c in
  match lookupProduct allProducts c with
  | Some product =>
      GridRow.mk (GridRow.id newRow) (GridRow.gtin newRow)
        (Product.nameEn product) (Product.category product)
        (if str_truthy (p_batchNumber (result s))
         then default EmptyString (p_batchNumber (result s))
         else GridRow.batchNumber newRow)
        (match p_expiryDate (result s) with
         | Some e => Some e
         | None => GridRow.expiryDate newRow
         end)
        (GridRow.quantity newRow) (Product.unit product)
        (match Product.batches product with
         | b0 :: _ => Batch.costPrice b0
         | [] => 0
         end)
        (Product.price product)
        (opt_str_or (Product.location product) EmptyString)
        (GridRow.supplierId newRow) (GridRow.isNew newRow)
        (GridRow.isHighlighted newRow)
  | None => newRow
  end.

(** The state update of [handleScan]: [prevData] is the grid it finds. *)
Definition handleScan (allProducts : list Product.t) (s : Scan)
    (prevData : list GridRow.t) : list GridRow.t :=
  match list_find (λ row, GridRow.gtin row = scannedCode s) prevData with
  | Some (existingRowIndex, existingRow) =>
      <[existingRowIndex :=
          GridRow.with_quantity_highlight existingRow
            (GridRow.quantity existingRow + 1) true]> prevData
  | None => newRowFor allProducts s :: prevData
  end.

(** The update run by the timer of a repeated scan: the highlight of the
    rows with that [id] is taken away. *)
Definition clearHighlight (rowId : string) (current : list GridRow.t)
    : list GridRow.t :=
  (λ r, if decide (GridRow.id r = rowId)
        then GridRow.with_quantity_highlight r (GridRow.quantity r) false
        else r) <$> current.

(** A run of scans, first to last. *)
Definition scanAll (allProducts : list Product.t) (scans : list Scan)
    (grid : list GridRow.t) : list GridRow.t :=
  foldl (λ g s, handleScan allProducts s g) grid scans.

(** *** Saving the grid *)

(** The arguments of [incrementStock] as [handleSaveAll] passes them. *)
Record StockArgs := mkArgs {
  a_id : string;
  a_batchNumber : string;
  a_quantity : Z;
  a_unit : string;
  a_location : string;
  a_expiryDate : option JSDate.IsoDate;
  a_costPrice : Z
}.

(** The calls of store actions that can throw. *)
Inductive Call :=
| IncrementStock (args : StockArgs)
| AddProduct (p : Product.t)
| FetchProducts.

(** The values generated while a row is saved: the ids of the product and
    of its batch, the fallback for [sku], and [Date.now()]. *)
Record Fresh := mkFresh {
  f_productId : string; f_sku : string; f_batchId : string; f_now : Z
}.

(** [allProducts.find(p => p.gtin === entry.gtin || p.nameEn === entry.productName)] *)
Definition findExisting (allProducts : list Product.t) (entry : GridRow.t)
    : option Product.t :=
  List.find (λ p, bool_decide (Product.gtin p = Nullable.str (GridRow.gtin entry))
                  || bool_decide (Product.nameEn p = GridRow.productName entry))
            allProducts.

Definition stockArgsOf (id batchNumber : string) (entry : GridRow.t) : StockArgs :=
  mkArgs id batchNumber (GridRow.quantity entry) (GridRow.unit entry)
         (GridRow.location entry) (GridRow.expiryDate entry)
         (GridRow.costPrice entry).

(** The product literal handed to [addProduct]. *)
Definition productOf (userBranch : option string) (fr : Fresh)
    (entry : GridRow.t) : Product.t :=
  Product.mk (f_productId fr) (str_or (GridRow.gtin entry) (f_sku fr))
    (Nullable.str (GridRow.gtin entry)) (GridRow.productName entry)
    (GridRow.productName entry)
    (str_or (GridRow.category entry) "Uncategorized")
    (GridRow.sellingPrice entry) EmptyString (GridRow.quantity entry)
    (GridRow.unit entry) 10
    [Batch.mk (f_batchId fr) (str_or (GridRow.batchNumber entry) "DEFAULT")
       (default (JSDate.toISODate (f_now fr + JSDate.ms365days))
                (GridRow.expiryDate entry))
       (GridRow.quantity entry) (GridRow.costPrice entry)]
    false (opt_str_or userBranch "b1") (Some (GridRow.location entry)).

Section Commit.

(** The collaborator: whether a call throws, given the calls made before. *)
Variable throws : list Call → Call → bool.
(** [user?.branchId], the generated values of each row, and the catalog
    [allProducts] that the callback closed over. *)
Variable userBranch : option string.
Variable fresh : GridRow.t → Fresh.
Variable allProducts : list Product.t.

(** An asynchronous step: it extends the log of calls made and yields a
    value, or [None] when a call threw. *)
Definition Eff (A : Type) : Type := list Call → list Call * option A.

Definition ret {A} (a : A) : Eff A := λ log, (log, Some a).

Definition bind {A B} (m : Eff A) (k : A → Eff B) : Eff B :=
  λ log, match m log with
         | (log', Some a) => k a log'
         | (log', None) => (log', None)
         end.

(** [await c]: the call is made; it may throw. *)
Definition await (c : Call) : Eff unit :=
  λ log, (log ++ [c], if throws log c then None else Some ()).

(** [await fetchProducts()]: the store action catches its own errors and
    falls back to the mock catalog, so it never throws. *)
Definition awaitFetch : Eff unit :=
  λ log, (log ++ [FetchProducts], Some ()).

(** The body of the loop for one row. *)
Definition saveEntry (entry : GridRow.t) : Eff unit :=
  if decide (GridRow.productName entry = EmptyString) then ret ()
  else
    match findExisting allProducts entry with
    | Some existing =>
        await (IncrementStock
                 (stockArgsOf (Product.id existing)
                    (str_or (GridRow.batchNumber entry) "DEFAULT") entry))
    | None =>
        bind (await (AddProduct (productOf userBranch (fresh entry) entry)))
          (λ _,
             match findExisting allProducts entry with
             | Some newProduct =>
                 if bool_decide (GridRow.batchNumber entry ≠ EmptyString)
                    && bool_decide (GridRow.batchNumber entry ≠ "DEFAULT"%string)
                 then await (IncrementStock
                               (stockArgsOf (Product.id newProduct)
                                  (GridRow.batchNumber entry) entry))
                 else ret ()
             | None => ret ()
             end)
    end.

(** [for (const entry of gridData) { ... }] *)
Fixpoint saveEntries (rows : list GridRow.t) : Eff unit :=
  match rows with
  | [] => ret ()
  | entry :: rest => bind (saveEntry entry) (λ _, saveEntries rest)
  end.

(** What the page shows after [handleSaveAll]. *)
Record Page := mkPage {
  gridData : list GridRow.t;
  isSaving : bool;
  alerted : bool;             (* the failure alert was shown *)
  navigated : bool            (* the page moved on to the inventory *)
}.

(** [handleSaveAll]: [confirmed] is the answer to [window.confirm]; the
    result is the log of calls made and the page. *)
Definition handleSaveAll (confirmed : bool) (grid : list GridRow.t)
    : list Call * Page :=
  match grid with
  | [] => ([], mkPage grid false false false)
  | _ :: _ =>
      if negb confirmed then ([], mkPage grid false false false)
      else
        match bind (saveEntries grid) (λ _, awaitFetch) [] with
        | (log, Some _) => (log, mkPage [] false false true)
        | (log, None) => (log, mkPage grid false true false)
        end
  end.

End Commit.

(** The calls that saving a row makes when none of them throws. *)
Definition callsOf (userBranch : option string) (fresh : GridRow.t → Fresh)
    (allProducts : list Product.t) (entry : GridRow.t) : list Call :=
  (saveEntry (λ _ _, false) userBranch fresh allProducts entry []).1.

End StockEntryPage.

(** ** Notions used to state the properties of the ledger *)

(** The batch that a request writes when the product has a batch with the
    number, and the one it creates when it has none. *)
Definition incremented (b : Batch.t) (body : BatchesApi.Body) : Batch.t :=
  Batch.with_quantity_cost b (Batch.quantity b + BatchesApi.quantity body)
                           (BatchesApi.costPrice body).

Definition created (newId : string) (body : BatchesApi.Body) : Batch.t :=
  Batch.mk newId (BatchesApi.batchNumber body) (BatchesApi.expiryDate body)
           (BatchesApi.quantity body) (BatchesApi.costPrice body).

(** The stock level of every product is the sum of its batches. *)
Definition conserved (db : BatchesApi.Db) : Prop :=
  map_Forall (λ _ p, Product.stockLevel p = batchTotal (Product.batches p)) db.

(** The batch numbers of every product are pairwise distinct. *)
Definition distinctNumbers (db : BatchesApi.Db) : Prop :=
  map_Forall (λ _ p, NoDup (batchNumbers (Product.batches p))) db.

(** A request to the [POST] route: the branch of the user, the product, the
    body and the key of the row that would be created. *)
Record Request := mkRequest {
  rq_branch : option string;
  rq_product : string;
  rq_body : BatchesApi.Body;
  rq_newId : string
}.

Definition postAll (reqs : list Request) (db : BatchesApi.Db) : BatchesApi.Db :=
  foldl (λ d rq, BatchesApi.post_db (rq_branch rq) (rq_product rq) (rq_body rq)
                   (rq_newId rq) d) db reqs.

(** ** Notions used to state the properties of the classifier *)

(** The pairs of a product and one of its batches with a positive quantity,
    in the order of the catalog. *)
Definition positivePairs (products : list Product.t) : list (Product.t * Batch.t) :=
  p ← products; b ← filter (λ b, 0 < Batch.quantity b) (Product.batches p); [(p, b)].

(** The items of the batches with a positive quantity among [bs], for the
    product [p], and those of a whole catalog. *)
Definition itemsOf (differenceInDays : Z → Z → Z) (today : Z) (p : Product.t)
    (bs : list Batch.t) : list ExpiryPage.ExpiryItem :=
  ExpiryPage.itemOf differenceInDays today p
    <$> filter (λ b, 0 < Batch.quantity b) bs.

Definition emitted (differenceInDays : Z → Z → Z) (today : Z)
    (products : list Product.t) : list ExpiryPage.ExpiryItem :=
  p ← products; itemsOf differenceInDays today p (Product.batches p).

(** The statistics after one more item has been counted. *)
Definition tally (s : ExpiryPage.ExpiryStats.t) (it : ExpiryPage.ExpiryItem)
    : ExpiryPage.ExpiryStats.t :=
  let s1 := ExpiryPage.bumpAll s (ExpiryPage.valueAtRisk it) in
  if decide (ExpiryPage.status it ≠ ExpiryPage.GOOD)
  then ExpiryPage.bumpTier s1 (ExpiryPage.status it) (ExpiryPage.valueAtRisk it)
  else s1.

(** The sum of the values at risk of a list of items. *)
Definition sumValue (items : list ExpiryPage.ExpiryItem) : Z :=
  foldr (λ it acc, ExpiryPage.valueAtRisk it + acc) 0 items.

(** The items of one tier. *)
Definition ofTier (st : ExpiryPage.Status) (items : list ExpiryPage.ExpiryItem)
    : list ExpiryPage.ExpiryItem :=
  filter (λ it, ExpiryPage.status it = st) items.

(** The bucket that counts a list of items. *)
Definition bucketOf (items : list ExpiryPage.ExpiryItem) : ExpiryPage.Bucket :=
  ExpiryPage.mkBucket (Z.of_nat (length items)) (sumValue items).

(** The difference of the calendar dates: the date of expiry less the local
    date of the instant [now]. *)
Definition calendarDays (tz : JSDate.Zone) (now : Z) (e : JSDate.IsoDate) : Z :=
  JSDate.Day (JSDate.ofISODate e) - JSDate.Day (JSDate.LocalTime tz now).

(** Ascending order of the days remaining. *)
Definition daysLe (a b : ExpiryPage.ExpiryItem) : Prop :=
  ExpiryPage.daysRemaining a ≤ ExpiryPage.daysRemaining b.

(** ** Notions used to state the properties of the grid *)

(** The row of a repeated scan: [n] more units, and the highlight. *)
Definition bumped (r : GridRow.t) (n : Z) : GridRow.t :=
  GridRow.with_quantity_highlight r (GridRow.quantity r + n) true.

(** ** Notions used to state the properties of the scanner history *)

(** The history holds at most 500 scanned items and at most 200 logs. *)
Definition historyBounded (st : Scanner.ScannerState) : Prop :=
  (length (Scanner.scannedItems st) ≤ 500)%nat
  ∧ (length (Scanner.syncLogs st) ≤ 200)%nat.

(** ** Sample data *)

(** A product with two batches, [LOT-A] of 5 and [LOT-B] of 10. *)
Definition twoLots : Product.t :=
  Product.mk "p1" "SKU-1" (Nullable.str "8850001") "Paracetamol" "Paracetamol"
    "Analgesic" 900 EmptyString 15 "PCS" 10
    [Batch.mk "b1" "LOT-A" (JSDate.mkIso 2025 6 1) 5 600;
     Batch.mk "b2" "LOT-B" (JSDate.mkIso 2025 9 1) 10 650]
    false "b1" None.

Definition twoLotsStore : Store.ProductState := Store.mkState [twoLots] [twoLots].

(** A product with the single batch [LOT-50] of 50, and the entry of the
    expiry list for it on 1 March 2024. *)
Definition fiftyLot : Product.t :=
  Product.mk "p2" "SKU-2" (Nullable.str "8850002") "Amoxicillin" "Amoxicillin"
    "Antibiotic" 1500 EmptyString 50 "PCS" 10
    [Batch.mk "b3" "LOT-50" (JSDate.mkIso 2024 3 20) 50 100]
    false "b1" None.

Definition fiftyLotStore : Store.ProductState := Store.mkState [fiftyLot] [fiftyLot].

Definition fiftyLotItem : ExpiryPage.ExpiryItem :=
  ExpiryPage.itemOf ExpiryPage.fullDaysBetween
    (JSDate.ofISODate (JSDate.mkIso 2024 3 1)) fiftyLot
    (Batch.mk "b3" "LOT-50" (JSDate.mkIso 2024 3 20) 50 100).

Definition fiftyLotDb : BatchesApi.Db := {[ "p2"%string := fiftyLot ]}.

(** A catalog of two products for the expiry list: batches that expire 19,
    45, 80 and 200 days after 1 March 2024, one that expired 12 days before
    it, and one that is used up. *)
Definition catalogMarch : list Product.t :=
  [ Product.mk "p1" "SKU-1" (Nullable.str "8850001") "Paracetamol" "Paracetamol"
      "Analgesic" 900 EmptyString 40 "PCS" 10
      [Batch.mk "b1" "LOT-A" (JSDate.mkIso 2024 3 20) 10 100;
       Batch.mk "b2" "LOT-B" (JSDate.mkIso 2024 9 17) 30 50;
       Batch.mk "b0" "LOT-0" (JSDate.mkIso 2024 3 5) 0 100]
      false "b1" None;
    Product.mk "p2" "SKU-2" (Nullable.str "8850002") "Amoxicillin" "Amoxicillin"
      "Antibiotic" 1500 EmptyString 12 "PCS" 10
      [Batch.mk "b3" "LOT-C" (JSDate.mkIso 2024 4 15) 5 200;
       Batch.mk "b4" "LOT-D" (JSDate.mkIso 2024 2 18) 4 300;
       Batch.mk "b5" "LOT-E" (JSDate.mkIso 2024 5 20) 3 10]
      false "b1" None ].

(** Ten o'clock in the morning of 1 March 2024, UTC. *)
Definition march1 : Z := JSDate.ofISODate (JSDate.mkIso 2024 3 1) + 36000000.

(** The offsets of Yangon (UTC+6:30) and of Honolulu (UTC-10), and a product
    with one batch that expires on 29 February 2024. *)
Definition yangon : Z := 23400000.
Definition honolulu : Z := -36000000.

Definition leapDayLot : Product.t :=
  Product.mk "p3" "SKU-3" (Nullable.str "8850003") "Cetirizine" "Cetirizine"
    "Allergy" 400 EmptyString 6 "PCS" 10
    [Batch.mk "b6" "LOT-F" (JSDate.mkIso 2024 2 29) 6 50]
    false "b1" None.

(** A product whose second batch has the number [DEFAULT], in a store. *)
Definition lotAndDefault : Product.t :=
  Product.mk "p4" "SKU-4" (Nullable.str "8850004") "Ibuprofen" "Ibuprofen"
    "Analgesic" 700 EmptyString 15 "PCS" 10
    [Batch.mk "b7" "LOT-A" (JSDate.mkIso 2025 6 1) 5 600;
     Batch.mk "b8" "DEFAULT" (JSDate.mkIso 2025 9 1) 10 650]
    false "b1" None.

Definition lotAndDefaultStore : Store.ProductState :=
  Store.mkState [lotAndDefault] [lotAndDefault].

(** Scans of the codes [X] and [Y], neither of them in the catalog. *)
Definition scanX1 : StockEntryPage.Scan :=
  StockEntryPage.mkScan "X" (StockEntryPage.mkParsed None (Some "X"%string) None None) "row-1".
Definition scanX2 : StockEntryPage.Scan :=
  StockEntryPage.mkScan "X" (StockEntryPage.mkParsed None (Some "X"%string) None None) "row-2".
Definition scanY : StockEntryPage.Scan :=
  StockEntryPage.mkScan "Y" (StockEntryPage.mkParsed None (Some "Y"%string) None None) "row-3".

(** A grid of three rows for products that the catalog does not have, the
    values generated for them, and a collaborator whose second call throws. *)
Definition threeRows : list GridRow.t :=
  [ GridRow.mk "row-1" "1001" "Aspirin" "Analgesic" "LOT-1" None 5 "PCS" 100 150
      "A1" EmptyString true false;
    GridRow.mk "row-2" "1002" "Ibuprofen" "Analgesic" "LOT-2" None 3 "PCS" 200 260
      "A2" EmptyString true false;
    GridRow.mk "row-3" "1003" "Cetirizine" "Allergy" "LOT-3" None 8 "PCS" 50 80
      "A3" EmptyString true false ].

Definition freshFor (entry : GridRow.t) : StockEntryPage.Fresh :=
  StockEntryPage.mkFresh ("p-" +:+ GridRow.id entry) ("SKU-" +:+ GridRow.id entry)
    ("b-" +:+ GridRow.id entry) 1709287200000.

Definition secondCallThrows (log : list StockEntryPage.Call)
    (c : StockEntryPage.Call) : bool :=
  bool_decide (length log = 1%nat).

(** * Further parts of the code *)

(** ** The other batch routes ([routes/api/batches.ts]) *)

Module BatchRoutes.

Inductive RouteError :=
| Bad               (* 400, the user has no branch *)
| Invalid           (* the schema rejected the body *)
| ProductNotFound   (* 404, 'Product not found' *)
| BatchNotFound.    (* 404, 'Batch not found' *)

(** The body of a [PATCH], after the coercions of [updateBatchSchema]: every
    field may be absent. *)
Record Patch := mkPatch {
  batchNumber : option string;
  expiryDate : option JSDate.IsoDate;
  quantity : option Z;
  costPrice : option Z
}.

(** [updateBatchSchema = createBatchSchema.partial()]: the checks of the
    fields that are present. *)
Definition updateBatchSchema (body : Patch) : RouteError + Patch :=
  if match batchNumber body with
     | Some s => bool_decide (s ≠ EmptyString)
     | None => true
     end
     && match quantity body with Some q => 0 <=? q | None => true end
     && match costPrice body with Some c => 0 <? c | None => true end
  then inr body
  else inl Invalid.

(** [prisma.batch.findFirst({ where: { id: batchId, productId } })] *)
Definition findBatchById (batchId : string) (bs : list Batch.t)
    : option (nat * Batch.t) :=
  list_find (λ b, Batch.id b = batchId) bs.

(** The row after [prisma.batch.update({ where: { id }, data })]: the fields
    of [data] that are present are written. *)
Definition applyPatch (b : Batch.t) (data : Patch) : Batch.t :=
  Batch.mk (Batch.id b)
    (default (Batch.batchNumber b) (batchNumber data))
    (default (Batch.expiryDate b) (expiryDate data))
    (default (Batch.quantity b) (quantity data))
    (default (Batch.costPrice b) (costPrice data)).

(** [prisma.batch.delete({ where: { id } })], the row being the one at
    [index] among the rows of the product. *)
Definition deleteBatch (db : BatchesApi.Db) (productId : string) (index : nat)
    : BatchesApi.Db :=
  alter (λ p, Product.with_stock p (Product.stockLevel p)
                (delete index (Product.batches p))) productId db.

(** [GET /api/v1/products/:productId/batches/:id] *)
Definition getOne (userBranch : option string) (productId batchId : string)
    (db : BatchesApi.Db) : RouteError + Batch.t :=
  if negb (str_truthy userBranch) then inl Bad else
  match BatchesApi.findProduct db productId (default EmptyString userBranch) with
  | None => inl ProductNotFound
  | Some product =>
      match findBatchById batchId (Product.batches product) with
      | None => inl BatchNotFound
      | Some (_, batch) => inr batch
      end
  end.

(** [data.quantity ? data.quantity - existingBatch.quantity : 0]: a
    quantity of [0] is falsy. *)
Definition quantityDiff (data : Patch) (existingBatch : Batch.t) : Z :=
  match quantity data with
  | Some q => if q =? 0 then 0 else q - Batch.quantity existingBatch
  | None => 0
  end.

(** [PATCH /api/v1/products/:productId/batches/:id] *)
Definition patch (userBranch : option string) (productId batchId : string)
    (body : Patch) (db : BatchesApi.Db) : RouteError + (Batch.t * BatchesApi.Db) :=
  if negb (str_truthy userBranch) then inl Bad else
  match updateBatchSchema body with
  | inl e => inl e
  | inr data =>
      match BatchesApi.findProduct db productId (default EmptyString userBranch) with
      | None => inl ProductNotFound
      | Some product =>
          match findBatchById batchId (Product.batches product) with
          | None => inl BatchNotFound
          | Some (index, existingBatch) =>
              let diff := quantityDiff data existingBatch in
              let batch := applyPatch existingBatch data in
              let db1 := BatchesApi.updateBatch db productId index batch in
              let db2 :=
                if negb (diff =? 0)
                then BatchesApi.updateStockLevel db1 productId
                       (Product.stockLevel product + diff)
                else db1 in
              inr (batch, db2)
          end
      end
  end.

(** [DELETE /api/v1/products/:productId/batches/:id]; the answer of a
    success is the empty 204. *)
Definition remove (userBranch : option string) (productId batchId : string)
    (db : BatchesApi.Db) : RouteError + BatchesApi.Db :=
  if negb (str_truthy userBranch) then inl Bad else
  match BatchesApi.findProduct db productId (default EmptyString userBranch) with
  | None => inl ProductNotFound
  | Some product =>
      match findBatchById batchId (Product.batches product) with
      | None => inl BatchNotFound
      | Some (index, existingBatch) =>
          let db1 := BatchesApi.updateStockLevel db productId
                       (Z.max 0 (Product.stockLevel product
                                 - Batch.quantity existingBatch)) in
          inr (deleteBatch db1 productId index)
      end
  end.

(** The database after a request, whatever its outcome. *)
Definition patch_db (userBranch : option string) (productId batchId : string)
    (body : Patch) (db : BatchesApi.Db) : BatchesApi.Db :=
  match patch userBranch productId batchId body db with
  | inr (_, db') => db'
  | inl _ => db
  end.

Definition remove_db (userBranch : option string) (productId batchId : string)
    (db : BatchesApi.Db) : BatchesApi.Db :=
  match remove userBranch productId batchId db with
  | inr db' => db'
  | inl _ => db
  end.

End BatchRoutes.

(** ** Notions used to state the properties of the routes *)

(** The product after an accepted receive. *)
Definition received (p : Product.t) (body : BatchesApi.Body) (newId : string)
    : Product.t :=
  Product.with_stock p (Product.stockLevel p + BatchesApi.quantity body)
    match findBatch (BatchesApi.batchNumber body) (Product.batches p) with
    | Some (i, b) => <[i := incremented b body]> (Product.batches p)
    | None => Product.batches p ++ [created newId body]
    end.

(** ** The cart store ([store.ts], [useCartStore]) *)

Module CartItem.

(** [transaction_data] of a cart line. *)
Record TransactionData := mkData {
  scanned_batch : option string;
  scanned_expiry : option string;
  scanned_serial : option string;
  scanned_at : string;
  raw_barcode : string
}.

#[global] Instance TransactionData_eq_dec : EqDecision TransactionData.
Proof. solve_decision. Defined.

(** A cart line: the fields of the product it was made from, kept together
    in [product], and the fields of the line itself. *)
Record t := mk {
  product : Product.t;
  cartId : string;
  selectedBatchId : option string;
  quantity : Z;
  discount : Z;
  transaction_data : option TransactionData;
  warning_flags : option (list string);
  manager_override : option bool
}.

(** [{ ...i, quantity: q }] *)
Definition with_quantity (i : t) (q : Z) : t :=
  mk (product i) (cartId i) (selectedBatchId i) q (discount i)
     (transaction_data i) (warning_flags i) (manager_override i).

End CartItem.

Module Customer.
Inductive Tier := Silver | Gold | Platinum.
Record t := mk {
  id : string; name : string; phone : string; points : Z; tier : Tier;
  branchId : string
}.
End Customer.

Module Cart.

Record AddItemOptions := mkOptions {
  batchId : option string;
  transactionData : option CartItem.TransactionData;
  warnings : option (list string);
  override : option bool
}.

(** [options || {}] *)
Definition optionsOr (options : option AddItemOptions) : AddItemOptions :=
  default (mkOptions None None None None) options.

Record CartState := mkCart {
  items : list CartItem.t;
  customer : option Customer.t
}.

Definition empty : CartState := mkCart [] None.

(** [transactionData?.scanned_batch], when it is truthy. *)
Definition scannedBatchOf (o : AddItemOptions) : option string :=
  match transactionData o with
  | Some td => if str_truthy (CartItem.scanned_batch td)
               then CartItem.scanned_batch td else None
  | None => None
  end.

(** The callback of [find] in [addItem]. *)
Definition sameLine (product : Product.t) (o : AddItemOptions) (i : CartItem.t)
    : bool :=
  let productMatch := bool_decide (Product.id (CartItem.product i) = Product.id product) in
  let scannedBatchMatch :=
    match scannedBatchOf o with
    | Some s =>
        match CartItem.transaction_data i with
        | Some td => bool_decide (CartItem.scanned_batch td = Some s)
        | None => false
        end
    | None => bool_decide (CartItem.selectedBatchId i = batchId o)
    end in
  let overrideMatch := bool_decide (CartItem.manager_override i = override o) in
  productMatch && scannedBatchMatch && overrideMatch.

(** The line that [addItem] appends; [newCartId] is
    [Math.random().toString()]. *)
Definition newLine (newCartId : string) (product : Product.t)
    (o : AddItemOptions) : CartItem.t :=
  CartItem.mk product newCartId
    (if str_truthy (batchId o) then batchId o
     else match Product.batches product with
          | b0 :: _ => Some (Batch.id b0)
          | [] => None
          end)
    1 0 (transactionData o) (warnings o) (override o).

Definition addItem (newCartId : string) (product : Product.t)
    (options : option AddItemOptions) (state : CartState) : CartState :=
  let o := optionsOr options in
  match List.find (sameLine product o) (items state) with
  | Some existing =>
      mkCart ((λ i, if decide (CartItem.cartId i = CartItem.cartId existing)
                    then CartItem.with_quantity i (CartItem.quantity i + 1)
                    else i) <$> items state)
             (customer state)
  | None =>
      mkCart (items state ++ [newLine newCartId product o]) (customer state)
  end.

Definition removeItem (cartId : string) (state : CartState) : CartState :=
  mkCart (filter (λ i, CartItem.cartId i ≠ cartId) (items state)) (customer state).

Definition updateQuantity (cartId : string) (qty : Z) (state : CartState)
    : CartState :=
  mkCart ((λ i, if decide (CartItem.cartId i = cartId)
                then CartItem.with_quantity i (Z.max 1 qty)
                else i) <$> items state)
         (customer state).

Definition clearCart (state : CartState) : CartState := mkCart [] None.

Definition setCustomer (c : option Customer.t) (state : CartState) : CartState :=
  mkCart (items state) c.

(** [items.reduce((sum, item) => sum + item.price * item.quantity, 0)] *)
Definition total (state : CartState) : Z :=
  foldl (λ sum item, sum + Product.price (CartItem.product item)
                           * CartItem.quantity item) 0 (items state).

(** The operations on the cart, for runs of them. *)
Inductive Op :=
| AddItem (newCartId : string) (product : Product.t) (options : option AddItemOptions)
| RemoveItem (cartId : string)
| UpdateQuantity (cartId : string) (qty : Z)
| ClearCart.

Definition step (state : CartState) (op : Op) : CartState :=
  match op with
  | AddItem newCartId product options => addItem newCartId product options state
  | RemoveItem cartId => removeItem cartId state
  | UpdateQuantity cartId qty => updateQuantity cartId qty state
  | ClearCart => clearCart state
  end.

Definition run (ops : list Op) (state : CartState) : CartState :=
  foldl step state ops.

End Cart.

(** The number of units in the cart, and the amount of one line. *)
Definition cartUnits (items : list CartItem.t) : Z :=
  foldr (λ i acc, CartItem.quantity i + acc) 0 items.

Definition lineAmount (i : CartItem.t) : Z :=
  Product.price (CartItem.product i) * CartItem.quantity i.

Definition cartAmount (items : list CartItem.t) : Z :=
  foldr (λ i acc, lineAmount i + acc) 0 items.

(** ** The key listener of the stock entry page ([pages/StockEntry.tsx],
    [useScanListener]) *)

Module ScanListener.

(** A JavaScript string as the sequence of its UTF-16 code units, so that
    the length of the list is [s.length] and [++] is [+] on strings. *)
Abbreviation JSString := (list N).

(** The string ['Enter']. *)
Definition Enter : JSString := [69; 110; 116; 101; 114]%N.

(** A [keydown] event: [e.key] and the reading of [Date.now()] in the
    handler. *)
Record KeyEvent := mkKey { key : JSString; now : Z }.

(** The two variables of the effect. *)
Record Listener := mkListener { buffer : JSString; lastKeyTime : Z }.

(** [handleKeyDown]: the code handed to [onScan], if any, and the variables
    afterwards. *)
Definition handleKeyDown (e : KeyEvent) (st : Listener)
    : option JSString * Listener :=
  let buffer1 := if 50 <? now e - lastKeyTime st then [] else buffer st in
  if decide (key e = Enter) then
    if (2 <? length buffer1)%nat
    then (Some buffer1, mkListener [] (now e))
    else (None, mkListener [] (now e))
  else if decide (length (key e) = 1%nat)
  then (None, mkListener (buffer1 ++ key e) (now e))
  else (None, mkListener buffer1 (now e)).

(** The codes handed to [onScan] over a run of events, first to last, and
    the variables after it. *)
Fixpoint listen (events : list KeyEvent) (st : Listener)
    : list JSString * Listener :=
  match events with
  | [] => ([], st)
  | e :: rest =>
      let '(out, st1) := handleKeyDown e st in
      let '(outs, st2) := listen rest st1 in
      (match out with Some c => c :: outs | None => outs end, st2)
  end.

End ScanListener.

(** Every event of the run comes at most 50 ms after the one before it,
    [last] being the time of the event before the run. *)
Fixpoint quick (last : Z) (events : list ScanListener.KeyEvent) : Prop :=
  match events with
  | [] => True
  | e :: rest => ScanListener.now e - last ≤ 50 ∧ quick (ScanListener.now e) rest
  end.

(** Every event of the run comes more than 50 ms after the one before it. *)
Fixpoint slow (last : Z) (events : list ScanListener.KeyEvent) : Prop :=
  match events with
  | [] => True
  | e :: rest => 50 < ScanListener.now e - last ∧ slow (ScanListener.now e) rest
  end.

(** The characters of a run of keys, one after the other. *)
Definition typed (events : list ScanListener.KeyEvent) : ScanListener.JSString :=
  foldr (λ e acc, ScanListener.key e ++ acc) [] events.

(** ** The grid of the stock entry page: rows and header totals *)

Module StockGrid.

Definition deleteRow (id : string) (prev : list GridRow.t) : list GridRow.t :=
  filter (λ row, GridRow.id row ≠ id) prev.

(** [gridData.reduce((sum, item) => sum + item.quantity, 0)] *)
Definition totalItems (gridData : list GridRow.t) : Z :=
  foldl (λ sum item, sum + GridRow.quantity item) 0 gridData.

(** [gridData.reduce((sum, item) => sum + item.quantity * item.costPrice, 0)] *)
Definition totalValue (gridData : list GridRow.t) : Z :=
  foldl (λ sum item, sum + GridRow.quantity item * GridRow.costPrice item) 0
        gridData.

End StockGrid.

(** The units and the value of a list of rows, by recursion on the list. *)
Definition rowUnits (rows : list GridRow.t) : Z :=
  foldr (λ r acc, GridRow.quantity r + acc) 0 rows.

Definition rowValue (rows : list GridRow.t) : Z :=
  foldr (λ r acc, GridRow.quantity r * GridRow.costPrice r + acc) 0 rows.

(** ** The actions of the product store and the branch store ([store.ts]) *)

Module Branch.
Inductive Status := active | inactive | archived.
Record t := mk {
  id : string;
  name : string;
  code : string;
  address : option string;
  phone : option string;
  email : option string;
  managerName : option string;
  status : Status
}.
End Branch.

Module ProductActions.

(** [fetchProducts]: [answer] is what [api.getProducts()] resolved to, after
    the transformation, or [None] when it threw; the fallback shows the mock
    catalog of the branch the page was loaded with. *)
Definition fetchProducts (initialBranchId : string)
    (mockProducts : list Product.t) (currentBranchId : string)
    (answer : option (list Product.t)) (state : Store.ProductState)
    : Store.ProductState :=
  match answer with
  | Some transformed =>
      Store.mkState transformed (Store.branchView currentBranchId transformed)
  | None =>
      Store.mkState mockProducts (Store.branchView initialBranchId mockProducts)
  end.

Definition syncWithBranch (branchId : string) (state : Store.ProductState)
    : Store.ProductState :=
  Store.mkState (Store.allProducts state)
                (Store.branchView branchId (Store.allProducts state)).

Definition setProducts (products : list Product.t) (state : Store.ProductState)
    : Store.ProductState :=
  Store.mkState (Store.allProducts state) products.

(** [addProduct], [updateProduct] and [deleteProduct] after the call of the
    API has resolved; [transformed] is its answer.  When the call throws the
    action throws and the state stays as it was. *)
Definition addProduct (transformed : Product.t) (state : Store.ProductState)
    : Store.ProductState :=
  Store.mkState (transformed :: Store.allProducts state)
                (transformed :: Store.products state).

Definition updateProduct (currentBranchId : string) (id : string)
    (transformed : Product.t) (state : Store.ProductState)
    : Store.ProductState :=
  let updatedAll :=
    (λ p, if decide (Product.id p = id) then transformed else p)
      <$> Store.allProducts state in
  Store.mkState updatedAll (Store.branchView currentBranchId updatedAll).

Definition deleteProduct (currentBranchId : string) (id : string)
    (state : Store.ProductState) : Store.ProductState :=
  let updatedAll := filter (λ p, Product.id p ≠ id) (Store.allProducts state) in
  Store.mkState updatedAll (Store.branchView currentBranchId updatedAll).

End ProductActions.

Module App.

(** The stores that the branch actions touch, as far as they are modelled:
    the branch store, the product store and the cart. *)
Record t := mk {
  branches : list Branch.t;
  currentBranchId : string;
  productStore : Store.ProductState;
  cart : Cart.CartState
}.

(** [fetchBranches]: [answer] is what [api.getBranches()] resolved to, or
    [None] when it threw. *)
Definition fallbackBranch : Branch.t :=
  Branch.mk "b1" "Main Store" "main-01" (Some "No. 45, Arzarni Road, Dawei"%string)
    (Some "09-420012345"%string) (Some "branch1@a7systems.com"%string)
    (Some "U Mg Mg"%string) Branch.active.

Definition fetchBranches (answer : option (list Branch.t)) (app : t) : t :=
  match answer with
  | Some bs =>
      mk bs
         (match bs with
          | b0 :: _ => if decide (currentBranchId app = EmptyString)
                       then Branch.id b0 else currentBranchId app
          | [] => currentBranchId app
          end)
         (productStore app) (cart app)
  | None => mk [fallbackBranch] (currentBranchId app) (productStore app) (cart app)
  end.

Definition setBranch (id : string) (app : t) : t :=
  mk (branches app) id
     (ProductActions.syncWithBranch id (productStore app))
     (Cart.clearCart (cart app)).

Definition addBranch (branch : Branch.t) (app : t) : t :=
  mk (branches app ++ [branch]) (currentBranchId app) (productStore app) (cart app).

(** The cascade that [deleteBranch] runs on the product store. *)
Definition cascade (id : string) (s : Store.ProductState) : Store.ProductState :=
  Store.mkState (filter (λ p, Product.branchId p ≠ id) (Store.allProducts s))
                (filter (λ p, Product.branchId p ≠ id) (Store.products s)).

(** [deleteBranch], once the timers it starts have run: first the cascade,
    then, when the current branch was deleted and another one is left,
    [setBranch] of that one. *)
Definition deleteBranch (id : string) (app : t) : t :=
  let newBranches := filter (λ b, Branch.id b ≠ id) (branches app) in
  let cascaded := cascade id (productStore app) in
  if decide (currentBranchId app = id) then
    let newId := match newBranches with
                 | b0 :: _ => Branch.id b0
                 | [] => EmptyString
                 end in
    let app1 := mk newBranches newId cascaded (cart app) in
    if decide (newId = EmptyString) then app1 else setBranch newId app1
  else mk newBranches (currentBranchId app) cascaded (cart app).

(** The actions, for runs of them.  An action of the product store whose
    call of the API throws leaves the state as it was and is left out. *)
Inductive Action :=
| FetchBranches (answer : option (list Branch.t))
| SetBranch (id : string)
| AddBranch (branch : Branch.t)
| DeleteBranch (id : string)
| FetchProducts (answer : option (list Product.t))
| AddProduct (transformed : Product.t)
| UpdateProduct (id : string) (transformed : Product.t)
| DeleteProduct (id : string)
| IncrementStockLocal (newId : string) (now : Z) (id : string)
    (batchNumber : option string) (quantity : Z) (unit location : option string)
    (expiryDate : option JSDate.IsoDate) (costPrice : option Z)
| RemoveBatchStock (productId batchNumber : string) (quantity : Z)
    (reason : option string).

Section Run.

(** The branch the page was loaded with and the mock catalog. *)
Variable initialBranchId : string.
Variable mockProducts : list Product.t.

Definition onProducts (f : string → Store.ProductState → Store.ProductState)
    (app : t) : t :=
  mk (branches app) (currentBranchId app)
     (f (currentBranchId app) (productStore app)) (cart app).

Definition step (app : t) (a : Action) : t :=
  match a with
  | FetchBranches answer => fetchBranches answer app
  | SetBranch id => setBranch id app
  | AddBranch branch => addBranch branch app
  | DeleteBranch id => deleteBranch id app
  | FetchProducts answer =>
      onProducts (λ cur, ProductActions.fetchProducts initialBranchId
                           mockProducts cur answer) app
  | AddProduct transformed =>
      onProducts (λ _, ProductActions.addProduct transformed) app
  | UpdateProduct id transformed =>
      onProducts (λ cur, ProductActions.updateProduct cur id transformed) app
  | DeleteProduct id =>
      onProducts (λ cur, ProductActions.deleteProduct cur id) app
  | IncrementStockLocal newId now id batchNumber quantity unit location
      expiryDate costPrice =>
      onProducts (λ cur, Store._incrementStockLocal cur newId now id batchNumber
                           quantity unit location expiryDate costPrice) app
  | RemoveBatchStock productId batchNumber quantity reason =>
      onProducts (λ cur, Store.removeBatchStock cur productId batchNumber
                           quantity reason) app
  end.

Definition run (actions : list Action) (app : t) : t := foldl step app actions.

End Run.

End App.

(** The view of the product store is the master copy filtered by the
    current branch. *)
Definition viewOk (app : App.t) : Prop :=
  Store.products (App.productStore app)
  = Store.branchView (App.currentBranchId app)
      (Store.allProducts (App.productStore app)).

(** The actions after which the view can differ from the filtered master
    copy are left out by this condition: a product added for another branch,
    a failed fetch of the products while another branch than the initial one
    is current, the first fetch of the branches while no branch is current,
    and the deletion of the current branch when no branch with a name is
    left. *)
Definition keepsView (initialBranchId : string) (app : App.t) (a : App.Action)
    : Prop :=
  match a with
  | App.AddProduct transformed =>
      Product.branchId transformed = App.currentBranchId app
  | App.FetchProducts None => App.currentBranchId app = initialBranchId
  | App.FetchBranches (Some (_ :: _)) => App.currentBranchId app ≠ EmptyString
  | App.DeleteBranch id =>
      App.currentBranchId app = id →
      ∃ b0 rest, filter (λ b, Branch.id b ≠ id) (App.branches app) = b0 :: rest
                 ∧ Branch.id b0 ≠ EmptyString
  | _ => True
  end.

Fixpoint keepView (initialBranchId : string) (mockProducts : list Product.t)
    (actions : list App.Action) (app : App.t) : Prop :=
  match actions with
  | [] => True
  | a :: rest =>
      keepsView initialBranchId app a
      ∧ keepView initialBranchId mockProducts rest
          (App.step initialBranchId mockProducts app a)
  end.

(** Sample data: two branches, and a store with the product [twoLots] of
    branch [b1]. *)
Definition branchB1 : Branch.t :=
  Branch.mk "b1" "Main Store" "main-01" None None None None Branch.active.
Definition branchB2 : Branch.t :=
  Branch.mk "b2" "Second Store" "second-02" None None None None Branch.active.

Definition twoBranchApp : App.t :=
  App.mk [branchB1; branchB2] "b1" twoLotsStore Cart.empty.

(** A scan of the code of [twoLots] that carries no cost price, and the
    database with that product. *)
Definition scanNoCost : Scanner.ScannedItem :=
  Scanner.mkItem "s1" (Some "8850001"%string) EmptyString (Some "LOT-A"%string)
    None None 4 (Some "PCS"%string) 1709287200000 Scanner.PENDING None
    "8850001" "GTIN" "Unknown" false None None.

Definition twoLotsDb : BatchesApi.Db := {[ "p1"%string := twoLots ]}.

(** A product as the API answers it when it has no code: its [gtin] is
    [null]; and a scan without code whose text is the id of [twoLots]. *)
Definition noCodeProduct : Product.t :=
  Product.mk "p8" "SKU-8" Nullable.null "Gauze" "Gauze" "Supplies" 300
    EmptyString 50 "PCS" 10
    [Batch.mk "b10" "LOT-G" (JSDate.mkIso 2026 1 1) 50 200]
    false "b1" None.

Definition scanNoCode : Scanner.ScannedItem :=
  Scanner.mkItem "s2" None EmptyString None None None 4 (Some "PCS"%string)
    1709287200000 Scanner.PENDING None "p1" "RAW" "Unknown" false None
    (Some 250).

(** The time of the last event of a run, [last] when it is empty. *)
Definition lastTime (last : Z) (events : list ScanListener.KeyEvent) : Z :=
  foldl (λ _ e, ScanListener.now e) last events.

(** The buffer that a key pressed at [t] is added to. *)
Definition pending (st : ScanListener.Listener) (t : Z) : ScanListener.JSString :=
  if 50 <? t - ScanListener.lastKeyTime st then []
  else ScanListener.buffer st.

(** The digits [8], [5], [1], [2] and the letters [a], [b] as keys, and the
    key of the letter e with an acute accent, which is one code unit. *)
Definition key8 : ScanListener.JSString := [56%N].
Definition key5 : ScanListener.JSString := [53%N].
Definition key1 : ScanListener.JSString := [49%N].
Definition key2 : ScanListener.JSString := [50%N].
Definition keyEacute : ScanListener.JSString := [233%N].

(** ** The day clicks of the date range picker ([pages/Expiry.tsx],
    [CustomDateRangePicker]) *)

Module DateRangePicker.

(** A range of [Date]s, each by its time value; [None] is [undefined]. *)
Record DateRange := mkRange { from : option Z; to : option Z }.

(** [handleDayClick(day)]: the range handed to [onSelect], which the parent
    passes back as [selected]. *)
Definition handleDayClick (day : Z) (selected : option DateRange)
    : option DateRange :=
  match selected with
  | Some (mkRange (Some f) None) =>
      if day <? f then Some (mkRange (Some day) (Some f))
      else Some (mkRange (Some f) (Some day))
  | _ => Some (mkRange (Some day) None)
  end.

Definition clicks (days : list Z) (selected : option DateRange)
    : option DateRange :=
  foldl (λ sel day, handleDayClick day sel) selected days.

End DateRangePicker.

(** A range with both ends has them in order. *)
Definition ordered (selected : option DateRangePicker.DateRange) : Prop :=
  match selected with
  | Some (DateRangePicker.mkRange (Some f) (Some t)) => f ≤ t
  | _ => True
  end.

(** A range with a first day and no last day. *)
Definition halfOpen (selected : option DateRangePicker.DateRange) : Prop :=
  match selected with
  | Some (DateRangePicker.mkRange (Some _) None) => True
  | _ => False
  end.

(** * Properties *)

(** ** The calendar *)

Example day_2024_03_20 :
  JSDate.toISODate (JSDate.ofISODate (JSDate.mkIso 2024 3 20)) = JSDate.mkIso 2024 3 20
  ∧ JSDate.Day (JSDate.ofISODate (JSDate.mkIso 2024 3 20)) = 19802.
Proof. split; reflexivity. Qed.

Example day_epoch :
  JSDate.toISODate 0 = JSDate.mkIso 1970 1 1
  ∧ JSDate.toISODate (-1) = JSDate.mkIso 1969 12 31
  ∧ JSDate.toISODate 951782400000 = JSDate.mkIso 2000 2 29
  ∧ JSDate.toISODate 4107542399999 = JSDate.mkIso 2100 2 28
  ∧ JSDate.toISODate 4107542400000 = JSDate.mkIso 2100 3 1.
Proof. repeat split; reflexivity. Qed.

Example feb29_next_year :
  JSDate.toISODate (JSDate.setFullYear 0 (JSDate.ofISODate (JSDate.mkIso 2024 2 29)) 2025)
  = JSDate.mkIso 2025 3 1.
Proof. reflexivity. Qed.

Lemma DayFromYear_succ y :
  JSDate.DayFromYear (y + 1) = JSDate.DayFromYear y + JSDate.DaysInYear y.
Proof.
  unfold JSDate.DayFromYear, JSDate.DaysInYear.
  repeat match goal with
         | |- context [negb (?a =? ?b)] => destruct (Z.eqb_spec a b); cbn [negb]
         end; Z.div_mod_to_equations; lia.
Qed.

Lemma leapOf_range y : JSDate.leapOf y = 0 ∨ JSDate.leapOf y = 1.
Proof.
  unfold JSDate.leapOf, JSDate.DaysInYear.
  repeat match goal with
         | |- context [negb (?a =? ?b)] => destruct (Z.eqb_spec a b); cbn [negb]
         end; Z.div_mod_to_equations; lia.
Qed.

(** The year found is the year of the day. *)
Lemma YearFromDay_spec day :
  JSDate.DayFromYear (JSDate.YearFromDay day) ≤ day
  < JSDate.DayFromYear (JSDate.YearFromDay day + 1).
Proof.
  unfold JSDate.YearFromDay.
  set (y := 1970 + (400 * day) `div` 146097).
  assert (Hlo : JSDate.DayFromYear (y - 1) ≤ day)
    by (unfold JSDate.DayFromYear, y; Z.div_mod_to_equations; lia).
  assert (Hhi : day < JSDate.DayFromYear (y + 2))
    by (unfold JSDate.DayFromYear, y; Z.div_mod_to_equations; lia).
  destruct (Z.ltb_spec day (JSDate.DayFromYear y)).
  - replace (y - 1 + 1) with y by lia. lia.
  - destruct (Z.leb_spec (JSDate.DayFromYear (y + 1)) day).
    + replace (y + 1 + 1) with (y + 2) by lia. lia.
    + lia.
Qed.

Lemma monthOfDay_range leap dwy : 0 ≤ JSDate.monthOfDay leap dwy ≤ 11.
Proof.
  unfold JSDate.monthOfDay.
  repeat match goal with
         | |- context [?a <? ?b] => destruct (a <? b)
         end; lia.
Qed.

Lemma monthStart_leap leap m :
  0 ≤ m ≤ 11 →
  JSDate.monthStart leap m
  = JSDate.monthStart 0 m + (if 2 <=? m then leap else 0).
Proof.
  intros Hm. unfold JSDate.monthStart.
  repeat match goal with
         | |- context [?a =? ?b] => destruct (Z.eqb_spec a b)
         end; destruct (Z.leb_spec 2 m); lia.
Qed.

(** The same month and date one year on: 365 days later, and one more when
    a 29 February lies in between. *)
Lemma MakeDay_next_year t :
  JSDate.MakeDay (JSDate.YearFromTime t + 1) (JSDate.MonthFromTime t)
                 (JSDate.DateFromTime t)
  = JSDate.Day t + 365
    + (if 2 <=? JSDate.MonthFromTime t
       then JSDate.leapOf (JSDate.YearFromTime t + 1)
       else JSDate.leapOf (JSDate.YearFromTime t)).
Proof.
  unfold JSDate.MakeDay, JSDate.DateFromTime, JSDate.DayWithinYear.
  pose proof (monthOfDay_range (JSDate.leapOf (JSDate.YearFromTime t))
                (JSDate.Day t - JSDate.DayFromYear (JSDate.YearFromTime t))) as Hm.
  fold (JSDate.DayWithinYear t) in Hm. fold (JSDate.MonthFromTime t) in Hm.
  rewrite Z.div_small, Z.mod_small, Z.add_0_r by lia.
  rewrite DayFromYear_succ.
  rewrite (monthStart_leap (JSDate.leapOf (JSDate.YearFromTime t + 1))) by lia.
  rewrite (monthStart_leap (JSDate.leapOf (JSDate.YearFromTime t))) by lia.
  unfold JSDate.leapOf at 3.
  destruct (2 <=? JSDate.MonthFromTime t); unfold JSDate.leapOf; lia.
Qed.

(** Year, month and date of an instant give back its day. *)
Lemma MakeDay_roundtrip t :
  JSDate.MakeDay (JSDate.YearFromTime t) (JSDate.MonthFromTime t)
                 (JSDate.DateFromTime t) = JSDate.Day t.
Proof.
  unfold JSDate.MakeDay, JSDate.DateFromTime, JSDate.DayWithinYear.
  pose proof (monthOfDay_range (JSDate.leapOf (JSDate.YearFromTime t))
                (JSDate.Day t - JSDate.DayFromYear (JSDate.YearFromTime t))) as Hm.
  fold (JSDate.DayWithinYear t) in Hm. fold (JSDate.MonthFromTime t) in Hm.
  rewrite Z.div_small, Z.mod_small, Z.add_0_r by lia. lia.
Qed.

(** The date of an instant is a day of a month. *)
Lemma DateFromTime_range t : 1 ≤ JSDate.DateFromTime t ≤ 31.
Proof.
  unfold JSDate.DateFromTime, JSDate.MonthFromTime, JSDate.DayWithinYear,
    JSDate.YearFromTime.
  pose proof (YearFromDay_spec (JSDate.Day t)) as Hy.
  rewrite DayFromYear_succ in Hy.
  set (y := JSDate.YearFromDay (JSDate.Day t)) in *.
  set (dwy := JSDate.Day t - JSDate.DayFromYear y).
  assert (Hd : 0 ≤ dwy < 365 + JSDate.leapOf y)
    by (unfold dwy, JSDate.leapOf; lia).
  destruct (leapOf_range y) as [Hl|Hl]; rewrite Hl in *;
    unfold JSDate.monthOfDay;
    repeat match goal with
           | |- context [?a <? ?b] => destruct (Z.ltb_spec a b)
           end; unfold JSDate.monthStart; simpl; lia.
Qed.

Lemma MakeDate_next_year lt :
  ∃ k, (k = 365 ∨ k = 366)
    ∧ JSDate.MakeDate
        (JSDate.MakeDay (JSDate.YearFromTime lt + 1) (JSDate.MonthFromTime lt)
           (JSDate.DateFromTime lt))
        (JSDate.TimeWithinDay lt)
      = lt + k * JSDate.msPerDay.
Proof.
  unfold JSDate.MakeDate, JSDate.TimeWithinDay. rewrite MakeDay_next_year.
  assert (Hlt : lt = JSDate.msPerDay * JSDate.Day lt + lt `mod` JSDate.msPerDay)
    by (apply Z.div_mod; discriminate).
  assert (Hms : JSDate.msPerDay = 86400000) by reflexivity.
  pose proof (leapOf_range (JSDate.YearFromTime lt)) as [H0|H0];
  pose proof (leapOf_range (JSDate.YearFromTime lt + 1)) as [H1|H1];
  destruct (2 <=? JSDate.MonthFromTime lt); rewrite ?H0, ?H1;
    ((exists 365; split; [by left|lia]) || (exists 366; split; [by right|lia])).
Qed.

(** [setFullYear(getFullYear() + 1)] keeps the local time of day and moves
    the local date forward by 365 or by 366 days; the instant moves by as
    much, and by what the offset of the zone changes between the two. *)
Lemma defaultExpiryInstant_step (tz : JSDate.Zone) now :
  ∃ k, (k = 365 ∨ k = 366)
    ∧ Store.defaultExpiryInstant tz now
      = now + k * JSDate.msPerDay
        + (JSDate.offsetAt tz now
           - JSDate.offsetOf tz (JSDate.LocalTime tz now + k * JSDate.msPerDay)).
Proof.
  unfold Store.defaultExpiryInstant, JSDate.setFullYear, JSDate.getFullYear,
    JSDate.UTC.
  destruct (MakeDate_next_year (JSDate.LocalTime tz now)) as (k & Hk & ->).
  exists k. split; [done|]. unfold JSDate.LocalTime. lia.
Qed.

Lemma defaultExpiryInstant_fixed (o now : Z) :
  Store.defaultExpiryInstant o now = now + 365 * JSDate.msPerDay
  ∨ Store.defaultExpiryInstant o now = now + 366 * JSDate.msPerDay.
Proof.
  destruct (defaultExpiryInstant_step o now) as (k & [->| ->] & ->);
    cbn [JSDate.offsetAt JSDate.offsetOf JSDate.fixed]; [left|right]; lia.
Qed.

(** ** The date library in a zone at a fixed offset *)

Lemma setHours0_fixed (o t : Z) :
  JSDate.setHours0 o t = JSDate.Day (t + o) * JSDate.msPerDay - o.
Proof.
  unfold JSDate.setHours0, JSDate.UTC, JSDate.LocalTime, JSDate.MakeDate.
  cbn [JSDate.offsetAt JSDate.offsetOf JSDate.fixed]. lia.
Qed.

(** [d.setDate(d.getDate() + n)] moves the local time by [n] days. *)
Lemma setDate_shift (tz : JSDate.Zone) t n :
  JSDate.setDate tz t (JSDate.getDate tz t + n)
  = JSDate.UTC tz (JSDate.LocalTime tz t + n * JSDate.msPerDay).
Proof.
  unfold JSDate.setDate, JSDate.getDate. f_equal.
  set (lt := JSDate.LocalTime tz t).
  unfold JSDate.MakeDate, JSDate.TimeWithinDay.
  replace (JSDate.MakeDay (JSDate.YearFromTime lt) (JSDate.MonthFromTime lt)
             (JSDate.DateFromTime lt + n))
    with (JSDate.MakeDay (JSDate.YearFromTime lt) (JSDate.MonthFromTime lt)
            (JSDate.DateFromTime lt) + n)
    by (unfold JSDate.MakeDay; lia).
  rewrite MakeDay_roundtrip.
  pose proof (Z.div_mod lt JSDate.msPerDay ltac:(discriminate)) as Hlt.
  fold (JSDate.Day lt) in Hlt. lia.
Qed.

Lemma differenceInCalendarDays_fixed (o l r : Z) :
  DateFns.differenceInCalendarDays o l r = JSDate.Day (l + o) - JSDate.Day (r + o).
Proof.
  unfold DateFns.differenceInCalendarDays, DateFns.startOfDay,
    DateFns.getTimezoneOffsetInMilliseconds, DateFns.roundDiv.
  rewrite !setHours0_fixed. unfold JSDate.LocalTime.
  cbn [JSDate.offsetAt JSDate.fixed].
  assert (Hms : JSDate.msPerDay = 86400000) by reflexivity. rewrite Hms.
  generalize (JSDate.Day (l + o)) (JSDate.Day (r + o)). intros dl dr.
  Z.div_mod_to_equations. lia.
Qed.

(** In a zone at a fixed offset the full days between two instants are the
    quotient of their distance by the length of a day, rounded towards
    zero. *)
Lemma differenceInDays_fixed (o l r : Z) :
  DateFns.differenceInDays o l r = ExpiryPage.fullDaysBetween l r.
Proof.
  unfold DateFns.differenceInDays, ExpiryPage.fullDaysBetween.
  rewrite differenceInCalendarDays_fixed.
  replace (JSDate.getDate o l
           - DateFns.compareLocalAsc o l r
             * Z.abs (JSDate.Day (l + o) - JSDate.Day (r + o)))
    with (JSDate.getDate o l
          + - (DateFns.compareLocalAsc o l r
               * Z.abs (JSDate.Day (l + o) - JSDate.Day (r + o)))) by lia.
  rewrite setDate_shift.
  unfold DateFns.compareLocalAsc, JSDate.UTC, JSDate.LocalTime, JSDate.Day.
  cbn [JSDate.offsetAt JSDate.offsetOf JSDate.fixed].
  assert (Hms : JSDate.msPerDay = 86400000) by reflexivity. rewrite Hms.
  replace (l + o - (r + o)) with (l - r) by lia.
  destruct (Z.lt_total l r) as [Hlr|[->|Hlr]].
  - rewrite (Z.sgn_neg (l - r)) by lia.
    destruct (decide _) as [Hs|Hs].
    + apply Z.sgn_pos_iff in Hs.
      Z.to_euclidean_division_equations. lia.
    + assert (Hle : l + o + - (-1 * Z.abs ((l + o) `div` 86400000 - (r + o) `div` 86400000))
                            * 86400000 - o + o - (r + o) ≤ 0).
      { destruct (Z.sgn_spec (l + o + - (-1 * Z.abs ((l + o) `div` 86400000
                               - (r + o) `div` 86400000)) * 86400000 - o + o - (r + o)))
          as [[? ?]|[[? ?]|[? ?]]]; [lia|lia|lia]. }
      Z.to_euclidean_division_equations. lia.
  - rewrite Z.sub_diag. cbn. done.
  - rewrite (Z.sgn_pos (l - r)) by lia.
    destruct (decide _) as [Hs|Hs].
    + apply Z.sgn_neg_iff in Hs.
      Z.to_euclidean_division_equations. lia.
    + assert (Hle : 0 ≤ l + o + - (1 * Z.abs ((l + o) `div` 86400000 - (r + o) `div` 86400000))
                            * 86400000 - o + o - (r + o)).
      { destruct (Z.sgn_spec (l + o + - (1 * Z.abs ((l + o) `div` 86400000
                               - (r + o) `div` 86400000)) * 86400000 - o + o - (r + o)))
          as [[? ?]|[[? ?]|[? ?]]]; [lia|lia|lia]. }
      Z.to_euclidean_division_equations. lia.
Qed.

(** ** Sums and numbers of batches *)

Lemma batchTotal_app bs1 bs2 :
  batchTotal (bs1 ++ bs2) = batchTotal bs1 + batchTotal bs2.
Proof. induction bs1 as [|b bs1 IH]; simpl; [|rewrite IH]; lia. Qed.

Lemma batchTotal_insert bs i b b' :
  bs !! i = Some b →
  batchTotal (<[i:=b']> bs) = batchTotal bs - Batch.quantity b + Batch.quantity b'.
Proof.
  revert i. induction bs as [|x bs IH]; intros [|i] Hi; simplify_eq/=.
  - lia.
  - rewrite (IH i Hi). lia.
Qed.

Lemma batchTotal_lookup_le bs i b :
  Forall (λ x, 0 ≤ Batch.quantity x) bs → bs !! i = Some b →
  Batch.quantity b ≤ batchTotal bs.
Proof.
  intros Hnn. revert i. induction Hnn as [|x bs Hx Hnn IH]; intros [|i] Hi;
    simplify_eq/=.
  - assert (0 ≤ batchTotal bs) by (clear -Hnn; induction Hnn; simpl; lia). lia.
  - specialize (IH i Hi). lia.
Qed.

Lemma batchNumbers_insert_same bs i b b' :
  bs !! i = Some b → Batch.batchNumber b' = Batch.batchNumber b →
  batchNumbers (<[i:=b']> bs) = batchNumbers bs.
Proof.
  intros Hi Hbn. unfold batchNumbers.
  rewrite list_fmap_insert, Hbn.
  apply list_insert_id. by rewrite list_lookup_fmap, Hi.
Qed.

Lemma findBatch_Some bn bs i b :
  findBatch bn bs = Some (i, b) →
  bs !! i = Some b ∧ Batch.batchNumber b = bn
  ∧ ∀ j x, bs !! j = Some x → (j < i)%nat → Batch.batchNumber x ≠ bn.
Proof. unfold findBatch. by rewrite list_find_Some. Qed.

Lemma findBatch_None bn bs :
  findBatch bn bs = None → bn ∉ batchNumbers bs.
Proof.
  unfold findBatch, batchNumbers. rewrite list_find_None, Forall_forall.
  intros Hall (b & Hb & Hin)%list_elem_of_fmap. by apply (Hall b).
Qed.

(** ** Write-offs in the store: [removeBatchStock] *)

Lemma removeFromProduct_found bn q p i b :
  findBatch bn (Product.batches p) = Some (i, b) →
  Store.removeFromProduct bn q p
  = Product.with_stock p (Z.max 0 (Product.stockLevel p - q))
      (<[i := Batch.with_quantity b (Z.max 0 (Batch.quantity b - q))]>
         (Product.batches p)).
Proof.
  intros Hf. unfold Store.removeFromProduct. rewrite Hf.
  destruct (Z.eqb_spec (Z.max 0 (Batch.quantity b - q)) 0) as [->|]; done.
Qed.

Lemma removeFromProduct_missing bn q p :
  findBatch bn (Product.batches p) = None → Store.removeFromProduct bn q p = p.
Proof. intros Hf. unfold Store.removeFromProduct. by rewrite Hf. Qed.

(** A write-off of at most the quantity on hand keeps the stock level equal
    to the sum of the batches. *)
Lemma removeFromProduct_conserves_within bn q p i b :
  Forall (λ x, 0 ≤ Batch.quantity x) (Product.batches p) →
  Product.stockLevel p = batchTotal (Product.batches p) →
  findBatch bn (Product.batches p) = Some (i, b) →
  q ≤ Batch.quantity b →
  Product.stockLevel (Store.removeFromProduct bn q p)
  = batchTotal (Product.batches (Store.removeFromProduct bn q p)).
Proof.
  intros Hnn Hinv Hf Hq.
  rewrite (removeFromProduct_found _ _ _ _ _ Hf). simpl.
  apply findBatch_Some in Hf as (Hi & _ & _).
  rewrite (batchTotal_insert _ _ _ _ Hi). simpl.
  pose proof (batchTotal_lookup_le _ _ _ Hnn Hi). lia.
Qed.

Lemma removeBatchStock_lookup branch pid bn q reason st k p :
  Store.allProducts st !! k = Some p →
  Store.allProducts (Store.removeBatchStock branch pid bn q reason st) !! k
  = Some (if decide (Product.id p = pid)
          then Store.removeFromProduct bn q p else p).
Proof.
  intros Hk. unfold Store.removeBatchStock. simpl.
  by rewrite list_lookup_fmap, Hk.
Qed.

(** A product that has no batch with the number is, like every product with
    another [id], the same before and after. *)
Lemma removeBatchStock_noop branch pid bn q reason st :
  (∀ p, p ∈ Store.allProducts st → Product.id p = pid →
        findBatch bn (Product.batches p) = None) →
  Store.allProducts (Store.removeBatchStock branch pid bn q reason st)
  = Store.allProducts st.
Proof.
  intros Hno. unfold Store.removeBatchStock. simpl.
  rewrite <- (list_fmap_id (Store.allProducts st)) at 2.
  apply list_fmap_ext. intros k p Hk.
  destruct (decide (Product.id p = pid)) as [Hid|]; [|done].
  apply removeFromProduct_missing, Hno; [|done].
  by eapply list_elem_of_lookup_2.
Qed.

(** C2. [removeBatchStock] on the product with the given [id]: when a batch
    with the batch number exists, the first such batch gets the quantity
    [max 0 (quantity - delta)], which is never negative, and it stays in the
    list at its place, so that the list keeps its length and its batch
    numbers; when no batch has the batch number, the product is left exactly
    as it was. *)
Theorem removeBatchStock_spec branch pid bn q reason st k p :
  Store.allProducts st !! k = Some p →
  Product.id p = pid →
  let st' := Store.removeBatchStock branch pid bn q reason st in
  (∀ i b, findBatch bn (Product.batches p) = Some (i, b) →
     ∃ p', Store.allProducts st' !! k = Some p'
       ∧ Product.batches p'
         = <[i := Batch.with_quantity b (Z.max 0 (Batch.quantity b - q))]>
             (Product.batches p)
       ∧ Product.batches p' !! i
         = Some (Batch.with_quantity b (Z.max 0 (Batch.quantity b - q)))
       ∧ 0 ≤ Batch.quantity (Batch.with_quantity b (Z.max 0 (Batch.quantity b - q)))
       ∧ length (Product.batches p') = length (Product.batches p)
       ∧ batchNumbers (Product.batches p') = batchNumbers (Product.batches p)
       ∧ ∀ j, j ≠ i → Product.batches p' !! j = Product.batches p !! j)
  ∧ (findBatch bn (Product.batches p) = None →
     Store.allProducts st' !! k = Some p)
  ∧ Store.products st' = Store.branchView branch (Store.allProducts st').
Proof.
  intros Hk Hid st'. split_and!.
  - intros i b Hf.
    exists (Store.removeFromProduct bn q p). split.
    { unfold st'. rewrite (removeBatchStock_lookup _ _ _ _ _ _ _ _ Hk).
      by rewrite decide_True. }
    rewrite (removeFromProduct_found _ _ _ _ _ Hf). simpl.
    apply findBatch_Some in Hf as (Hi & Hbn & _).
    split_and!.
    + done.
    + apply list_lookup_insert_eq. by eapply lookup_lt_Some.
    + lia.
    + by rewrite length_insert.
    + by apply (batchNumbers_insert_same _ _ b).
    + intros j Hj. by apply list_lookup_insert_ne.
  - intros Hf. unfold st'.
    rewrite (removeBatchStock_lookup _ _ _ _ _ _ _ _ Hk).
    by rewrite decide_True, removeFromProduct_missing.
  - done.
Qed.

Lemma removeBatchStock_spec_witness :
  (∃ p', Store.allProducts
           (Store.removeBatchStock "b1" "p1" "LOT-A" 8 None twoLotsStore) !! 0%nat
         = Some p'
       ∧ Product.batches p' !! 0%nat
         = Some (Batch.mk "b1" "LOT-A" (JSDate.mkIso 2025 6 1) 0 600))
  ∧ Store.allProducts
      (Store.removeBatchStock "b1" "p1" "LOT-Z" 8 None twoLotsStore) !! 0%nat
    = Some twoLots.
Proof.
  split.
  - destruct (removeBatchStock_spec "b1" "p1" "LOT-A" 8 None twoLotsStore 0 twoLots
                eq_refl eq_refl) as (Hfound & _ & _).
    destruct (Hfound 0%nat (Batch.mk "b1" "LOT-A" (JSDate.mkIso 2025 6 1) 5 600)
                eq_refl) as (p' & Hp' & _ & Hb & _).
    exists p'. split; [exact Hp'|exact Hb].
  - destruct (removeBatchStock_spec "b1" "p1" "LOT-Z" 8 None twoLotsStore 0 twoLots
                eq_refl eq_refl) as (_ & Hmissing & _).
    apply Hmissing. reflexivity.
Defined.

(** C1, at a write-off of more than the batch holds.  The product has 15 in
    stock, 5 of them in [LOT-A]; writing 8 off [LOT-A] takes 8 from the stock
    level but only 5 from the batch, and the stock level 7 is no longer the
    sum 10 of the batches. *)
Theorem removeBatchStock_over_subtraction :
  Product.stockLevel twoLots = batchTotal (Product.batches twoLots)
  ∧ ∃ p',
      Store.allProducts
        (Store.removeBatchStock "b1" "p1" "LOT-A" 8 (Some "RETURN"%string)
           twoLotsStore) = [p']
      ∧ Product.batches p'
        = [Batch.mk "b1" "LOT-A" (JSDate.mkIso 2025 6 1) 0 600;
           Batch.mk "b2" "LOT-B" (JSDate.mkIso 2025 9 1) 10 650]
      ∧ Product.stockLevel p' = 7
      ∧ batchTotal (Product.batches p') = 10
      ∧ Product.stockLevel p' ≠ batchTotal (Product.batches p').
Proof.
  split; [reflexivity|].
  eexists. split; [reflexivity|]. split_and!; [reflexivity..|discriminate].
Qed.

(** ** Receiving stock: the [POST] handler *)

Lemma createBatchSchema_inr body data :
  BatchesApi.createBatchSchema body = inr data →
  data = body ∧ BatchesApi.batchNumber body ≠ EmptyString
  ∧ 0 ≤ BatchesApi.quantity body ∧ 0 < BatchesApi.costPrice body.
Proof.
  unfold BatchesApi.createBatchSchema.
  destruct (bool_decide _) eqn:Hbn; simpl; [|discriminate].
  destruct (Z.leb_spec 0 (BatchesApi.quantity body)); simpl; [|discriminate].
  destruct (Z.ltb_spec 0 (BatchesApi.costPrice body)); simpl; [|discriminate].
  intros [= <-]. apply bool_decide_eq_true in Hbn. done.
Qed.

(** What an accepted request does to the database. *)
Lemma post_inr ub pid body newId db r db' :
  BatchesApi.post ub pid body newId db = inr (r, db') →
  ∃ product,
    db !! pid = Some product
    ∧ BatchesApi.batchNumber body ≠ EmptyString
    ∧ 0 ≤ BatchesApi.quantity body ∧ 0 < BatchesApi.costPrice body
    ∧ ((∃ i b, findBatch (BatchesApi.batchNumber body) (Product.batches product)
               = Some (i, b)
             ∧ r = BatchesApi.mkResponse 200 (incremented b body)
             ∧ db' = <[pid := Product.with_stock product
                                (Product.stockLevel product + BatchesApi.quantity body)
                                (<[i := incremented b body]> (Product.batches product))]> db)
       ∨ (findBatch (BatchesApi.batchNumber body) (Product.batches product) = None
          ∧ r = BatchesApi.mkResponse 201 (created newId body)
          ∧ db' = <[pid := Product.with_stock product
                             (Product.stockLevel product + BatchesApi.quantity body)
                             (Product.batches product ++ [created newId body])]> db)).
Proof.
  unfold BatchesApi.post. intros Hpost.
  destruct (str_truthy ub); simpl in Hpost; [|discriminate].
  destruct (BatchesApi.createBatchSchema body) as [e|data] eqn:Hs; [discriminate|].
  apply createBatchSchema_inr in Hs as (-> & Hbn & Hq & Hc).
  unfold BatchesApi.findProduct in Hpost.
  destruct (db !! pid) as [product|] eqn:Hp; [|discriminate].
  destruct (decide _); [|discriminate].
  exists product. split_and!; [done..|].
  destruct (findBatch _ _) as [[i b]|] eqn:Hf; injection Hpost as <- <-;
    [left|right].
  - exists i, b. split_and!; [done..|].
    unfold BatchesApi.updateStockLevel, BatchesApi.updateBatch.
    rewrite alter_alter_eq. by erewrite alter_alt_Some by done.
  - split_and!; [done..|].
    unfold BatchesApi.updateStockLevel, BatchesApi.createBatch.
    rewrite alter_alter_eq. by erewrite alter_alt_Some by done.
Qed.

(** A rejected request, and a request for a product that is not there,
    leave the database as it was. *)
Lemma post_db_inl ub pid body newId db e :
  BatchesApi.post ub pid body newId db = inl e →
  BatchesApi.post_db ub pid body newId db = db.
Proof. intros H. unfold BatchesApi.post_db. by rewrite H. Qed.

(** Receiving keeps the stock level of every product equal to the sum of
    its batches. *)
Lemma post_conserves ub pid body newId db :
  conserved db → conserved (BatchesApi.post_db ub pid body newId db).
Proof.
  intros Hdb. unfold BatchesApi.post_db.
  destruct (BatchesApi.post ub pid body newId db) as [e|[r db']] eqn:Hpost; [done|].
  apply post_inr in Hpost as (product & Hp & _ & _ & _ & Hcase).
  pose proof (Hdb _ _ Hp) as Hinv. simpl in Hinv.
  destruct Hcase as [(i & b & Hf & _ & ->)|(Hf & _ & ->)];
    apply map_Forall_insert_2; try done; simpl.
  - apply findBatch_Some in Hf as (Hi & _ & _).
    rewrite (batchTotal_insert _ _ _ _ Hi). simpl. lia.
  - rewrite batchTotal_app. simpl. lia.
Qed.

Lemma postAll_conserves reqs db : conserved db → conserved (postAll reqs db).
Proof.
  revert db. induction reqs as [|rq reqs IH]; intros db Hdb; simpl; [done|].
  by apply IH, post_conserves.
Qed.

(** What the [POST] handler does to the batches of the product. *)
Lemma post_batches ub pid body newId db r db' product :
  db !! pid = Some product →
  BatchesApi.post ub pid body newId db = inr (r, db') →
  ∃ product',
    db' !! pid = Some product'
    ∧ Product.stockLevel product'
      = Product.stockLevel product + BatchesApi.quantity body
    ∧ match findBatch (BatchesApi.batchNumber body) (Product.batches product) with
      | Some (i, b) =>
          BatchesApi.sent r = incremented b body
          ∧ Product.batches product'
            = <[i := incremented b body]> (Product.batches product)
      | None =>
          BatchesApi.sent r = created newId body
          ∧ Product.batches product'
            = Product.batches product ++ [created newId body]
      end.
Proof.
  intros Hp Hpost.
  apply post_inr in Hpost as (product0 & Hp0 & _ & _ & _ & Hcase).
  rewrite Hp in Hp0. injection Hp0 as <-.
  destruct Hcase as [(i & b & Hf & -> & ->)|(Hf & -> & ->)];
    eexists; (split; [apply lookup_insert_eq|]); rewrite Hf; done.
Qed.

(** The local increment of the store does not repeat a batch number
    either. *)
Lemma incrementLocalProduct_distinct newId now bn q unit loc expiry cost p :
  NoDup (batchNumbers (Product.batches p)) →
  NoDup (batchNumbers (Product.batches
           (Store.incrementLocalProduct newId now bn q unit loc expiry cost p))).
Proof.
  intros Hnd. unfold Store.incrementLocalProduct. simpl.
  destruct (str_truthy bn && bool_decide (bn ≠ Some "DEFAULT"%string)).
  - destruct (findBatch _ _) as [[i b]|] eqn:Hf.
    + pose proof Hf as (Hi & _ & _)%findBatch_Some.
      by rewrite (batchNumbers_insert_same _ _ b).
    + apply findBatch_None in Hf.
      unfold batchNumbers. rewrite fmap_app. simpl.
      apply NoDup_app. split_and!; [done| |apply NoDup_singleton].
      intros x Hx ->%list_elem_of_singleton. done.
  - destruct (Product.batches p) as [|b0 rest]; simpl in *; [|done].
    apply NoDup_singleton.
Qed.

(** C8, as the code has it.  A receive through the [POST] route: when one
    of the batches of the product has the batch number of the request, that
    batch gets the quantity added and the cost price of the request, and the
    product has the same batches, with the same numbers and in the same
    places, as before; a batch is added only when none has the number.  A
    receive through the local action [_incrementStockLocal]: under a number
    other than [DEFAULT] that one of the batches has, that batch gets the
    quantity added and keeps its cost price; under no number, an empty one or
    [DEFAULT], the first batch of the product gets the quantity added,
    whatever its number, and a batch [DEFAULT] is made only for a product
    without batches.  On both ways batch numbers that were pairwise distinct
    stay so. *)
Theorem post_batch_identity :
  (∀ ub pid body newId db r db' product,
     db !! pid = Some product →
     BatchesApi.post ub pid body newId db = inr (r, db') →
     ∃ product',
       db' !! pid = Some product'
       ∧ (∀ i b, findBatch (BatchesApi.batchNumber body) (Product.batches product)
                 = Some (i, b) →
            Product.batches product'
            = <[i := incremented b body]> (Product.batches product)
            ∧ Batch.quantity (incremented b body)
              = Batch.quantity b + BatchesApi.quantity body
            ∧ Batch.costPrice (incremented b body) = BatchesApi.costPrice body
            ∧ Batch.batchNumber (incremented b body) = BatchesApi.batchNumber body
            ∧ length (Product.batches product') = length (Product.batches product)
            ∧ batchNumbers (Product.batches product')
              = batchNumbers (Product.batches product))
       ∧ (findBatch (BatchesApi.batchNumber body) (Product.batches product) = None →
            Product.batches product'
            = Product.batches product ++ [created newId body]
            ∧ BatchesApi.batchNumber body ∉ batchNumbers (Product.batches product))
       ∧ (NoDup (batchNumbers (Product.batches product)) →
          NoDup (batchNumbers (Product.batches product'))))
  ∧ (∀ newId now bn q unit loc expiry cost p,
       let p' := Store.incrementLocalProduct newId now bn q unit loc expiry cost p in
       (str_truthy bn = true → bn ≠ Some "DEFAULT"%string →
          (∀ i b, findBatch (default EmptyString bn) (Product.batches p)
                  = Some (i, b) →
             Product.batches p'
             = <[i := Batch.with_quantity b (Batch.quantity b + q)]>
                 (Product.batches p)
             ∧ Batch.costPrice (Batch.with_quantity b (Batch.quantity b + q))
               = Batch.costPrice b
             ∧ batchNumbers (Product.batches p') = batchNumbers (Product.batches p))
          ∧ (findBatch (default EmptyString bn) (Product.batches p) = None →
             ∃ b', Product.batches p' = Product.batches p ++ [b']
                   ∧ Batch.batchNumber b' = default EmptyString bn
                   ∧ Batch.quantity b' = q
                   ∧ Batch.batchNumber b' ∉ batchNumbers (Product.batches p)))
       ∧ (str_truthy bn = false ∨ bn = Some "DEFAULT"%string →
            match Product.batches p with
            | b0 :: rest =>
                Product.batches p'
                = Batch.with_quantity b0 (Batch.quantity b0 + q) :: rest
            | [] =>
                ∃ b', Product.batches p' = [b']
                      ∧ Batch.batchNumber b' = "DEFAULT"%string
                      ∧ Batch.quantity b' = q
            end)
       ∧ Product.stockLevel p' = Product.stockLevel p + q
       ∧ (NoDup (batchNumbers (Product.batches p)) →
          NoDup (batchNumbers (Product.batches p')))).
Proof.
  split.
  - intros ub pid body newId db r db' product Hp Hpost.
    apply post_inr in Hpost as (product0 & Hp0 & _ & _ & _ & Hcase).
    rewrite Hp in Hp0. injection Hp0 as <-.
    destruct Hcase as [(i & b & Hf & _ & ->)|(Hf & _ & ->)];
      eexists; (split; [apply lookup_insert_eq|]); simpl.
    + pose proof Hf as (Hi & Hbn & _)%findBatch_Some.
      assert (Hnums : batchNumbers (<[i:=incremented b body]> (Product.batches product))
                      = batchNumbers (Product.batches product))
        by (by apply (batchNumbers_insert_same _ _ b)).
      split_and!.
      * intros i' b' Heq. simplify_eq. split_and!; simpl; try done.
        by rewrite length_insert.
      * intros Hnone. congruence.
      * by rewrite Hnums.
    + pose proof (findBatch_None _ _ Hf) as Hfresh.
      split_and!.
      * intros i b Hsome. congruence.
      * done.
      * intros Hnd. unfold batchNumbers. rewrite fmap_app. simpl.
        apply NoDup_app. split_and!; [done| |apply NoDup_singleton].
        intros x Hx ->%list_elem_of_singleton. done.
  - intros newId now bn q unit loc expiry cost p p'. split_and!.
    + intros Hbn Hdef. unfold p', Store.incrementLocalProduct.
      cbn [Product.batches Product.with_stock_meta].
      rewrite Hbn, (bool_decide_eq_true_2 _ Hdef). cbn [andb]. split.
      * intros i b Hf. rewrite Hf. split_and!; [done..|].
        pose proof Hf as (Hi & _ & _)%findBatch_Some.
        by apply (batchNumbers_insert_same _ _ b).
      * intros Hf. rewrite Hf. eexists. split_and!; [done..|].
        by apply findBatch_None.
    + intros Hbn. unfold p', Store.incrementLocalProduct.
      cbn [Product.batches Product.with_stock_meta].
      replace (str_truthy bn && bool_decide (bn ≠ Some "DEFAULT"%string))
        with false.
      * destruct (Product.batches p) as [|b0 rest]; [by eexists|done].
      * destruct Hbn as [->| ->]; [done|].
        rewrite (bool_decide_eq_false_2 (Some "DEFAULT"%string ≠ Some "DEFAULT"%string))
          by (intros Hne; by apply Hne).
        by rewrite andb_false_r.
    + done.
    + apply incrementLocalProduct_distinct.
Qed.

Lemma post_batch_identity_witness :
  (∃ product',
     (<["p2"%string :=
          Product.with_stock fiftyLot 57
            [Batch.mk "b3" "LOT-50" (JSDate.mkIso 2024 3 20) 57 120]]> fiftyLotDb)
       !! "p2"%string = Some product'
     ∧ batchNumbers (Product.batches product') = ["LOT-50"%string])
  ∧ Product.batches
      (Store.incrementLocalProduct "b9" march1 (Some "LOT-A"%string) 3 None None
         None (Some 999) twoLots)
    = [Batch.mk "b1" "LOT-A" (JSDate.mkIso 2025 6 1) 8 600;
       Batch.mk "b2" "LOT-B" (JSDate.mkIso 2025 9 1) 10 650].
Proof.
  destruct post_batch_identity as [Hpost Hlocal]. split.
  - destruct (Hpost (Some "b1"%string) "p2"%string
                (BatchesApi.mkBody "LOT-50" (JSDate.mkIso 2025 1 1) 7 120) "b9"%string
                fiftyLotDb
                (BatchesApi.mkResponse 200
                   (Batch.mk "b3" "LOT-50" (JSDate.mkIso 2024 3 20) 57 120))
                (<["p2"%string :=
                     Product.with_stock fiftyLot 57
                       [Batch.mk "b3" "LOT-50" (JSDate.mkIso 2024 3 20) 57 120]]>
                   fiftyLotDb)
                fiftyLot eq_refl eq_refl) as (product' & Hp' & Hfound & _ & _).
    exists product'. split; [exact Hp'|].
    destruct (Hfound 0%nat (Batch.mk "b3" "LOT-50" (JSDate.mkIso 2024 3 20) 50 100)
                eq_refl) as (_ & _ & _ & _ & _ & Hnums).
    exact Hnums.
  - destruct (Hlocal "b9"%string march1 (Some "LOT-A"%string) 3 None None None
                (Some 999) twoLots) as (Hnamed & _).
    destruct (Hnamed eq_refl) as [Hfound _]; [discriminate|].
    destruct (Hfound 0%nat (Batch.mk "b1" "LOT-A" (JSDate.mkIso 2025 6 1) 5 600)
                eq_refl) as (Hbs & _).
    exact Hbs.
Defined.

(** C8 as the claim has it fails on the local action.  A receive of 3 under
    [LOT-A] at cost price 999 leaves the batch [LOT-A] with its cost price
    600, where the route writes 999; and a receive of 4 under [DEFAULT] for a
    product whose second batch is [DEFAULT] goes to the first batch, [LOT-A],
    and leaves the batch [DEFAULT] as it was. *)
Lemma local_receive_keeps_cost_price :
  (λ p, (λ b, (Batch.batchNumber b, Batch.quantity b, Batch.costPrice b))
          <$> Product.batches p)
    <$> Store.allProducts
          (Store._incrementStockLocal "b1" "b9" march1 "p1" (Some "LOT-A"%string)
             3 None None None (Some 999) twoLotsStore)
  = [[("LOT-A"%string, 8, 600); ("LOT-B"%string, 10, 650)]]
  ∧ (∃ r db',
       BatchesApi.post (Some "b1"%string) "p1"
         (BatchesApi.mkBody "LOT-A" (JSDate.mkIso 2026 1 1) 3 999) "b9"
         {[ "p1"%string := twoLots ]} = inr (r, db')
       ∧ (λ b, (Batch.batchNumber b, Batch.quantity b, Batch.costPrice b))
           <$> (default [] (Product.batches <$> db' !! "p1"%string))
         = [("LOT-A"%string, 8, 999); ("LOT-B"%string, 10, 650)])
  ∧ (λ p, (λ b, (Batch.batchNumber b, Batch.quantity b, Batch.costPrice b))
            <$> Product.batches p)
      <$> Store.allProducts
            (Store._incrementStockLocal "b1" "b9" march1 "p4"
               (Some "DEFAULT"%string) 4 None None None (Some 700)
               lotAndDefaultStore)
    = [[("LOT-A"%string, 9, 600); ("DEFAULT"%string, 10, 650)]].
Proof.
  split_and!.
  - reflexivity.
  - eexists _, _. split; reflexivity.
  - reflexivity.
Qed.

Lemma post_db_distinct ub pid body newId db :
  distinctNumbers db → distinctNumbers (BatchesApi.post_db ub pid body newId db).
Proof.
  intros Hdb. unfold BatchesApi.post_db.
  destruct (BatchesApi.post ub pid body newId db) as [e|[r db']] eqn:Hpost; [done|].
  apply post_inr in Hpost as (product & Hp & _ & _ & _ & Hcase).
  pose proof (Hdb _ _ Hp) as Hnd. simpl in Hnd.
  destruct Hcase as [(i & b & Hf & _ & ->)|(Hf & _ & ->)];
    apply map_Forall_insert_2; try done; simpl.
  - pose proof Hf as (Hi & Hbn & _)%findBatch_Some.
    by rewrite (batchNumbers_insert_same _ _ b).
  - apply findBatch_None in Hf.
    unfold batchNumbers. rewrite fmap_app. simpl.
    apply NoDup_app. split_and!; [done| |apply NoDup_singleton].
    intros x Hx ->%list_elem_of_singleton. done.
Qed.

(** Repeated receives never give a product two batches with one number. *)
Lemma postAll_distinct reqs db :
  distinctNumbers db → distinctNumbers (postAll reqs db).
Proof.
  revert db. induction reqs as [|rq reqs IH]; intros db Hdb; simpl; [done|].
  by apply IH, post_db_distinct.
Qed.

(** ** Quantities that are refused, and quantities that are cut down *)

Lemma post_negative_rejected ub pid body newId db :
  BatchesApi.quantity body < 0 →
  (BatchesApi.post ub pid body newId db = inl BatchesApi.BadRequest
   ∨ BatchesApi.post ub pid body newId db = inl BatchesApi.ValidationError)
  ∧ BatchesApi.post_db ub pid body newId db = db.
Proof.
  intros Hq.
  assert (Hpost : BatchesApi.post ub pid body newId db = inl BatchesApi.BadRequest
                  ∨ BatchesApi.post ub pid body newId db = inl BatchesApi.ValidationError).
  { unfold BatchesApi.post, BatchesApi.createBatchSchema.
    destruct (str_truthy ub); simpl; [right|by left].
    destruct (Z.leb_spec 0 (BatchesApi.quantity body)); [lia|].
    by rewrite andb_false_r. }
  split; [done|].
  destruct Hpost as [H|H]; by apply post_db_inl in H.
Qed.

(** C7, as the code has it.  A return whose quantity is zero or negative is
    refused by [confirmReturn] before the store is touched, and a receive
    whose quantity is negative is refused by the schema of the route before
    the database is touched.  A quantity typed into the return dialog above
    the quantity on hand is not refused: the field cuts it down to the
    quantity on hand, and a positive quantity on hand is then returned in
    full. *)
Theorem invalid_quantity_handling :
  (∀ branch w st,
     ExpiryPage.returnQty w ≤ 0 →
     ExpiryPage.confirmReturn branch w st = None
     ∧ ExpiryPage.afterConfirm branch w st = (w, st))
  ∧ (∀ ub pid body newId db,
       BatchesApi.quantity body < 0 →
       (∃ e, BatchesApi.post ub pid body newId db = inl e)
       ∧ BatchesApi.post_db ub pid body newId db = db)
  ∧ (∀ item typed w branch st,
       ExpiryPage.selectedReturnItem w = Some item →
       Batch.quantity (ExpiryPage.batch item) < typed →
       0 < Batch.quantity (ExpiryPage.batch item) →
       let w' := ExpiryPage.changeReturnQty (Some typed) w in
       ExpiryPage.returnQty w' = Batch.quantity (ExpiryPage.batch item)
       ∧ ExpiryPage.confirmReturn branch w' st
         = Some (ExpiryPage.mkWorkflow false None
                   (Batch.quantity (ExpiryPage.batch item)) false,
                 Store.removeBatchStock branch
                   (Product.id (ExpiryPage.product item))
                   (Batch.batchNumber (ExpiryPage.batch item))
                   (Batch.quantity (ExpiryPage.batch item))
                   (Some "RETURN"%string) st)).
Proof.
  split_and!.
  - intros branch w st Hq.
    assert (Hnone : ExpiryPage.confirmReturn branch w st = None).
    { unfold ExpiryPage.confirmReturn.
      destruct (ExpiryPage.selectedReturnItem w); [|done].
      by destruct (Z.leb_spec (ExpiryPage.returnQty w) 0); [|lia]. }
    split; [done|]. unfold ExpiryPage.afterConfirm. by rewrite Hnone.
  - intros ub pid body newId db Hq.
    destruct (post_negative_rejected ub pid body newId db Hq) as [[H|H] Hdb];
      (split; [by eexists|done]).
  - intros item typed w branch st Hsel Hgt Hpos w'.
    assert (Hqty : ExpiryPage.returnQty w' = Batch.quantity (ExpiryPage.batch item)).
    { unfold w', ExpiryPage.changeReturnQty. rewrite Hsel. simpl. lia. }
    split; [done|].
    unfold ExpiryPage.confirmReturn.
    assert (Hsel' : ExpiryPage.selectedReturnItem w' = Some item).
    { unfold w', ExpiryPage.changeReturnQty. by rewrite Hsel. }
    rewrite Hsel', Hqty.
    by destruct (Z.leb_spec (Batch.quantity (ExpiryPage.batch item)) 0); [lia|].
Qed.

Lemma invalid_quantity_handling_witness :
  ExpiryPage.confirmReturn "b1"
    (ExpiryPage.changeReturnQty (Some (-3))
       (ExpiryPage.initiateReturn fiftyLotItem ExpiryPage.closed))
    fiftyLotStore = None
  ∧ BatchesApi.post_db (Some "b1"%string) "p2"
      (BatchesApi.mkBody "LOT-50" (JSDate.mkIso 2025 1 1) (-5) 120) "b9" fiftyLotDb
    = fiftyLotDb
  ∧ ExpiryPage.returnQty
      (ExpiryPage.changeReturnQty (Some 10000)
         (ExpiryPage.initiateReturn fiftyLotItem ExpiryPage.closed)) = 50.
Proof.
  destruct invalid_quantity_handling as (Hreturn & Hreceive & Hclamp).
  split_and!.
  - apply Hreturn. simpl. lia.
  - apply Hreceive. simpl. lia.
  - apply (Hclamp fiftyLotItem 10000
             (ExpiryPage.initiateReturn fiftyLotItem ExpiryPage.closed)
             "b1"%string fiftyLotStore); [reflexivity|simpl; lia|simpl; lia].
Defined.

(** C7 as the claim has it fails.  Returning 10,000 against the batch of 50
    is not refused: the dialog holds 50, the confirmation goes through and
    the batch is left with 0, not 50; the store action called with 10,000
    leaves 0 as well.  A receive of quantity 0 under a new batch number is
    accepted with status 201 and adds a batch to the product. *)
Lemma return_above_on_hand_goes_through :
  ExpiryPage.returnQty
    (ExpiryPage.changeReturnQty (Some 10000)
       (ExpiryPage.initiateReturn fiftyLotItem ExpiryPage.closed)) = 50
  ∧ (∃ w' st',
       ExpiryPage.confirmReturn "b1"
         (ExpiryPage.changeReturnQty (Some 10000)
            (ExpiryPage.initiateReturn fiftyLotItem ExpiryPage.closed))
         fiftyLotStore = Some (w', st')
       ∧ (λ p, Batch.quantity <$> Product.batches p) <$> Store.allProducts st'
         = [[0]]
       ∧ Store.allProducts st' ≠ Store.allProducts fiftyLotStore)
  ∧ (λ p, Batch.quantity <$> Product.batches p) <$>
       Store.allProducts
         (Store.removeBatchStock "b1" "p2" "LOT-50" 10000 (Some "RETURN"%string)
            fiftyLotStore)
    = [[0]]
  ∧ ∃ db', BatchesApi.post (Some "b1"%string) "p2"
             (BatchesApi.mkBody "LOT-NEW" (JSDate.mkIso 2025 1 1) 0 120) "b9"
             fiftyLotDb
           = inr (BatchesApi.mkResponse 201
                    (Batch.mk "b9" "LOT-NEW" (JSDate.mkIso 2025 1 1) 0 120), db')
         ∧ (Product.batches <$> db' !! "p2"%string)
           = Some [Batch.mk "b3" "LOT-50" (JSDate.mkIso 2024 3 20) 50 100;
                   Batch.mk "b9" "LOT-NEW" (JSDate.mkIso 2025 1 1) 0 120]
         ∧ db' ≠ fiftyLotDb.
Proof.
  split_and!.
  - reflexivity.
  - eexists _, _. split_and!; [reflexivity..|discriminate].
  - reflexivity.
  - eexists. split_and!; [reflexivity..|].
    intros Heq. apply (f_equal (λ d, Product.batches <$> d !! "p2"%string)) in Heq.
    discriminate Heq.
Qed.

(** ** The defaults of a receive *)

Lemma incrementStock_DEFAULT (tz : JSDate.Zone) now bn q e c :
  str_truthy bn = false →
  Store.bd_batchNumber (Store.incrementStock_batchData tz now bn q e c)
  = "DEFAULT"%string.
Proof.
  intros Hbn. unfold Store.incrementStock_batchData. cbn [Store.bd_batchNumber].
  destruct bn as [s|]; cbn [opt_str_or str_truthy] in *; [|done].
  unfold str_or. destruct (decide (s = EmptyString)); [done|].
  by rewrite bool_decide_eq_false in Hbn.
Qed.




(** ** The expiry classifier *)

Section ClassifierFacts.

Variable differenceInDays : Z → Z → Z.

Lemma visitBatch_fold today p bs s l :
  foldl (ExpiryPage.visitBatch differenceInDays today p) (s, l) bs
  = (foldl tally s (itemsOf differenceInDays today p bs),
     l ++ itemsOf differenceInDays today p bs).
Proof.
  revert s l. induction bs as [|b bs IH]; intros s l; simpl.
  - by rewrite app_nil_r.
  - unfold ExpiryPage.visitBatch at 2. unfold itemsOf.
    destruct (Z.leb_spec (Batch.quantity b) 0) as [Hle|Hgt].
    + rewrite filter_cons_False by lia. apply IH.
    + rewrite filter_cons_True by lia. rewrite IH. simpl.
      by rewrite <- app_assoc.
Qed.

Lemma visitProduct_fold today products s l :
  foldl (ExpiryPage.visitProduct differenceInDays today) (s, l) products
  = (foldl tally s (emitted differenceInDays today products),
     l ++ emitted differenceInDays today products).
Proof.
  unfold emitted.
  revert s l. induction products as [|p ps IH]; intros s l.
  - simpl. by rewrite app_nil_r.
  - rewrite bind_cons. cbn [foldl].
    unfold ExpiryPage.visitProduct at 2. rewrite visitBatch_fold, IH.
    by rewrite foldl_app, app_assoc.
Qed.

Lemma emitted_pairs today products :
  (λ it, (ExpiryPage.product it, ExpiryPage.batch it))
    <$> emitted differenceInDays today products
  = positivePairs products.
Proof.
  unfold positivePairs, emitted.
  induction products as [|p ps IH]; [done|].
  rewrite !bind_cons, fmap_app, IH. f_equal.
  unfold itemsOf. generalize (filter (λ b, 0 < Batch.quantity b) (Product.batches p)).
  intros bs. induction bs as [|b bs IHb]; [done|].
  rewrite !fmap_cons, bind_cons, IHb. done.
Qed.

Lemma emitted_Forall today products (P : ExpiryPage.ExpiryItem → Prop) :
  (∀ p b, 0 < Batch.quantity b →
          P (ExpiryPage.itemOf differenceInDays today p b)) →
  Forall P (emitted differenceInDays today products).
Proof.
  intros HP. unfold emitted, itemsOf.
  apply Forall_bind, Forall_forall. intros p _.
  apply Forall_fmap, Forall_forall. intros b Hb%list_elem_of_filter.
  apply HP, Hb.
Qed.

Lemma useExpiryStats_eq tz now products :
  ExpiryPage.useExpiryStats differenceInDays tz now products
  = (foldl tally ExpiryPage.emptyStats
       (emitted differenceInDays (JSDate.setHours0 tz now) products),
     ExpiryPage.sortItems
       (emitted differenceInDays (JSDate.setHours0 tz now) products)).
Proof.
  unfold ExpiryPage.useExpiryStats. by rewrite visitProduct_fold.
Qed.

End ClassifierFacts.

Lemma tally_ALL s items :
  ExpiryPage.ExpiryStats.ALL (foldl tally s items)
  = ExpiryPage.mkBucket
      (ExpiryPage.count (ExpiryPage.ExpiryStats.ALL s) + Z.of_nat (length items))
      (ExpiryPage.value (ExpiryPage.ExpiryStats.ALL s) + sumValue items).
Proof.
  revert s. induction items as [|it items IH]; intros s.
  - simpl. destruct (ExpiryPage.ExpiryStats.ALL s). simpl. f_equal; lia.
  - cbn [foldl]. rewrite IH. unfold tally.
    destruct (decide _); [destruct (ExpiryPage.status it)|]; simpl;
      f_equal; lia.
Qed.

Ltac tally_tier_tac :=
  match goal with
  | |- context [foldl tally ?s ?items] =>
      revert s; induction items as [|it items IH]; intros s;
      [ simpl;
        match goal with |- ?b = _ => destruct b end; simpl; f_equal; lia
      | cbn [foldl]; rewrite IH; unfold tally, ofTier; rewrite filter_cons;
        destruct (ExpiryPage.status it); simpl; f_equal; lia ]
  end.

Lemma tally_CRITICAL s items :
  ExpiryPage.ExpiryStats.CRITICAL (foldl tally s items)
  = ExpiryPage.mkBucket
      (ExpiryPage.count (ExpiryPage.ExpiryStats.CRITICAL s)
       + Z.of_nat (length (ofTier ExpiryPage.CRITICAL items)))
      (ExpiryPage.value (ExpiryPage.ExpiryStats.CRITICAL s)
       + sumValue (ofTier ExpiryPage.CRITICAL items)).
Proof. tally_tier_tac. Qed.

Lemma tally_WARNING s items :
  ExpiryPage.ExpiryStats.WARNING (foldl tally s items)
  = ExpiryPage.mkBucket
      (ExpiryPage.count (ExpiryPage.ExpiryStats.WARNING s)
       + Z.of_nat (length (ofTier ExpiryPage.WARNING items)))
      (ExpiryPage.value (ExpiryPage.ExpiryStats.WARNING s)
       + sumValue (ofTier ExpiryPage.WARNING items)).
Proof. tally_tier_tac. Qed.

Lemma tally_WATCH s items :
  ExpiryPage.ExpiryStats.WATCH (foldl tally s items)
  = ExpiryPage.mkBucket
      (ExpiryPage.count (ExpiryPage.ExpiryStats.WATCH s)
       + Z.of_nat (length (ofTier ExpiryPage.WATCH items)))
      (ExpiryPage.value (ExpiryPage.ExpiryStats.WATCH s)
       + sumValue (ofTier ExpiryPage.WATCH items)).
Proof. tally_tier_tac. Qed.

(** *** Sorting *)

Lemma insertItem_perm x l : ExpiryPage.insertItem x l ≡ₚ x :: l.
Proof.
  induction l as [|y l IH]; simpl; [done|].
  destruct (_ <=? 0); [done|]. rewrite IH. apply Permutation_swap.
Qed.

Lemma sortItems_perm l : ExpiryPage.sortItems l ≡ₚ l.
Proof.
  induction l as [|x l IH]; simpl; [done|].
  by rewrite insertItem_perm, IH.
Qed.

Lemma insertItem_sorted x l :
  StronglySorted daysLe l → StronglySorted daysLe (ExpiryPage.insertItem x l).
Proof.
  induction 1 as [|y l Hl IH Hy]; simpl.
  - repeat constructor.
  - destruct (Z.leb_spec (ExpiryPage.daysRemaining x - ExpiryPage.daysRemaining y) 0)
      as [Hle|Hgt].
    + constructor; [by constructor|].
      constructor; [unfold daysLe; lia|].
      eapply Forall_impl; [exact Hy|]. unfold daysLe. intros z Hz. lia.
    + constructor; [done|].
      rewrite insertItem_perm. constructor; [unfold daysLe; lia|done].
Qed.

Lemma sortItems_sorted l : StronglySorted daysLe (ExpiryPage.sortItems l).
Proof.
  induction l as [|x l IH]; simpl; [constructor|by apply insertItem_sorted].
Qed.

Lemma sumValue_perm l1 l2 : l1 ≡ₚ l2 → sumValue l1 = sumValue l2.
Proof. induction 1; simpl; lia. Qed.

Lemma bucketOf_perm l1 l2 : l1 ≡ₚ l2 → bucketOf l1 = bucketOf l2.
Proof.
  intros Hp. unfold bucketOf.
  by rewrite (Permutation_length Hp), (sumValue_perm _ _ Hp).
Qed.

Lemma ofTier_perm st l1 l2 : l1 ≡ₚ l2 → ofTier st l1 ≡ₚ ofTier st l2.
Proof. intros Hp. unfold ofTier. by rewrite Hp. Qed.

(** Every item is in exactly one of the four tiers. *)
Lemma tiers_partition items :
  length items
  = (length (ofTier ExpiryPage.CRITICAL items)
     + length (ofTier ExpiryPage.WARNING items)
     + length (ofTier ExpiryPage.WATCH items)
     + length (ofTier ExpiryPage.GOOD items))%nat.
Proof.
  unfold ofTier. induction items as [|it items IH]; [done|].
  rewrite !filter_cons.
  destruct (ExpiryPage.status it);
    repeat (destruct (decide _); try done); simpl; lia.
Qed.

(** The tier is decided by the days remaining alone. *)
Lemma classify_spec d :
  (ExpiryPage.classify d = ExpiryPage.CRITICAL ↔ d ≤ 30)
  ∧ (ExpiryPage.classify d = ExpiryPage.WARNING ↔ 31 ≤ d ≤ 60)
  ∧ (ExpiryPage.classify d = ExpiryPage.WATCH ↔ 61 ≤ d ≤ 90)
  ∧ (ExpiryPage.classify d = ExpiryPage.GOOD ↔ 90 < d).
Proof.
  unfold ExpiryPage.classify.
  destruct (Z.leb_spec d 30); [|destruct (Z.leb_spec d 60);
    [|destruct (Z.leb_spec d 90)]];
    split_and!; split; intros; try done; lia.
Qed.

(** In a zone at a fixed offset [setHours0] is the midnight that starts the
    local day of the instant. *)
Lemma setHours0_midnight (o now : Z) :
  JSDate.TimeWithinDay (JSDate.LocalTime o (JSDate.setHours0 o now)) = 0
  ∧ JSDate.setHours0 o now ≤ now < JSDate.setHours0 o now + JSDate.msPerDay.
Proof.
  rewrite setHours0_fixed.
  unfold JSDate.TimeWithinDay, JSDate.LocalTime, JSDate.Day.
  cbn [JSDate.offsetAt JSDate.fixed].
  assert (Hms : JSDate.msPerDay = 86400000) by reflexivity. rewrite Hms.
  split.
  - replace ((now + o) `div` 86400000 * 86400000 - o + o)
      with ((now + o) `div` 86400000 * 86400000) by lia.
    apply Z.mod_mul. lia.
  - pose proof (Z.div_mod (now + o) 86400000 ltac:(lia)).
    pose proof (Z.mod_pos_bound (now + o) 86400000 ltac:(lia)). lia.
Qed.

(** The full days from the midnight that starts the local day of [now] to
    midnight UTC of a date, in a zone at a fixed offset of less than a day:
    the difference of the calendar dates in the zone of UTC; to the east of
    it one day nearer to zero for the dates before today; to the west of it
    one day less for the dates after today. *)
Lemma fullDaysBetween_fixed (o now : Z) e :
  - JSDate.msPerDay < o < JSDate.msPerDay →
  let c := calendarDays o now e in
  let d := ExpiryPage.fullDaysBetween (JSDate.ofISODate e) (JSDate.setHours0 o now) in
  (o = 0 → d = c)
  ∧ (0 < o → d = if decide (c < 0) then c + 1 else c)
  ∧ (o < 0 → d = if decide (0 < c) then c - 1 else c).
Proof.
  intros Ho c d. unfold d, c, calendarDays, ExpiryPage.fullDaysBetween.
  rewrite setHours0_fixed.
  unfold JSDate.ofISODate, JSDate.MakeDate, JSDate.LocalTime, JSDate.Day.
  cbn [JSDate.offsetAt JSDate.fixed].
  assert (Hms : JSDate.msPerDay = 86400000) by reflexivity. rewrite Hms in *.
  set (E := JSDate.MakeDay _ _ _). rewrite Z.add_0_r, Z.div_mul by lia.
  generalize ((now + o) `div` 86400000). intros T.
  split_and!; intros Hcase.
  - Z.to_euclidean_division_equations. lia.
  - destruct (decide (E - T < 0)); Z.to_euclidean_division_equations; lia.
  - destruct (decide (0 < E - T)); Z.to_euclidean_division_equations; lia.
Qed.

Lemma StronglySorted_lookup_le {A} (R : A → A → Prop) l i j a b :
  StronglySorted R l → l !! i = Some a → l !! j = Some b → (i < j)%nat → R a b.
Proof.
  intros Hs. revert i j. induction Hs as [|x l Hl IH Hx]; intros i j Hi Hj Hij.
  - done.
  - destruct j as [|j]; [lia|]. destruct i as [|i]; simplify_eq/=.
    + eapply Forall_lookup_1 in Hx; eauto.
    + eapply IH; eauto. lia.
Qed.

(** The expiry list on the morning of 1 March 2024: the expired batch comes
    first, the used-up batch has no entry, and the batch of 10 at cost 100
    that expires on 20 March has 19 days left, is critical and puts 1000 at
    risk. *)
Example expiry_list_march :
  let r := ExpiryPage.useExpiryStats ExpiryPage.fullDaysBetween 0 march1
             catalogMarch in
  (λ it, (Batch.batchNumber (ExpiryPage.batch it), ExpiryPage.daysRemaining it,
          ExpiryPage.status it, ExpiryPage.valueAtRisk it)) <$> r.2
  = [("LOT-D"%string, -12, ExpiryPage.CRITICAL, 1200);
     ("LOT-A"%string, 19, ExpiryPage.CRITICAL, 1000);
     ("LOT-C"%string, 45, ExpiryPage.WARNING, 1000);
     ("LOT-E"%string, 80, ExpiryPage.WATCH, 30);
     ("LOT-B"%string, 200, ExpiryPage.GOOD, 1500)]
  ∧ r.1 = ExpiryPage.ExpiryStats.mk
            (ExpiryPage.mkBucket 2 2200) (ExpiryPage.mkBucket 1 1000)
            (ExpiryPage.mkBucket 1 30) (ExpiryPage.mkBucket 5 4730).
Proof. vm_compute. done. Qed.




(** C4. [stats.ALL] counts every item of the list and sums their values;
    the buckets [CRITICAL], [WARNING] and [WATCH] count and sum the items of
    their own tier; the items of tier [GOOD] are in [ALL] only; and the list
    is in ascending order of the days remaining, so that no item comes
    before one with fewer days. *)
Theorem classifier_stats differenceInDays tz now products :
  let r := ExpiryPage.useExpiryStats differenceInDays tz now products in
  ExpiryPage.ExpiryStats.ALL r.1 = bucketOf r.2
  ∧ ExpiryPage.ExpiryStats.CRITICAL r.1 = bucketOf (ofTier ExpiryPage.CRITICAL r.2)
  ∧ ExpiryPage.ExpiryStats.WARNING r.1 = bucketOf (ofTier ExpiryPage.WARNING r.2)
  ∧ ExpiryPage.ExpiryStats.WATCH r.1 = bucketOf (ofTier ExpiryPage.WATCH r.2)
  ∧ ExpiryPage.count (ExpiryPage.ExpiryStats.ALL r.1)
    = ExpiryPage.count (ExpiryPage.ExpiryStats.CRITICAL r.1)
      + ExpiryPage.count (ExpiryPage.ExpiryStats.WARNING r.1)
      + ExpiryPage.count (ExpiryPage.ExpiryStats.WATCH r.1)
      + Z.of_nat (length (ofTier ExpiryPage.GOOD r.2))
  ∧ StronglySorted daysLe r.2
  ∧ ∀ i j a b, r.2 !! i = Some a → r.2 !! j = Some b → (i < j)%nat →
               ExpiryPage.daysRemaining a ≤ ExpiryPage.daysRemaining b.
Proof.
  intros r. unfold r. rewrite useExpiryStats_eq. cbn [fst snd].
  set (E := emitted differenceInDays (JSDate.setHours0 tz now) products).
  pose proof (sortItems_perm E) as Hperm.
  assert (HALL : ExpiryPage.ExpiryStats.ALL (foldl tally ExpiryPage.emptyStats E)
                 = bucketOf (ExpiryPage.sortItems E)).
  { rewrite tally_ALL, (bucketOf_perm _ _ Hperm). done. }
  assert (HC : ExpiryPage.ExpiryStats.CRITICAL (foldl tally ExpiryPage.emptyStats E)
               = bucketOf (ofTier ExpiryPage.CRITICAL (ExpiryPage.sortItems E))).
  { rewrite tally_CRITICAL, (bucketOf_perm _ _ (ofTier_perm _ _ _ Hperm)). done. }
  assert (HW : ExpiryPage.ExpiryStats.WARNING (foldl tally ExpiryPage.emptyStats E)
               = bucketOf (ofTier ExpiryPage.WARNING (ExpiryPage.sortItems E))).
  { rewrite tally_WARNING, (bucketOf_perm _ _ (ofTier_perm _ _ _ Hperm)). done. }
  assert (HT : ExpiryPage.ExpiryStats.WATCH (foldl tally ExpiryPage.emptyStats E)
               = bucketOf (ofTier ExpiryPage.WATCH (ExpiryPage.sortItems E))).
  { rewrite tally_WATCH, (bucketOf_perm _ _ (ofTier_perm _ _ _ Hperm)). done. }
  split_and!; try done.
  - rewrite HALL, HC, HW, HT. unfold bucketOf. cbn [ExpiryPage.count].
    rewrite (tiers_partition (ExpiryPage.sortItems E)). lia.
  - apply sortItems_sorted.
  - intros i j a b Hi Hj Hij.
    apply (StronglySorted_lookup_le daysLe _ i j a b (sortItems_sorted E) Hi Hj Hij).
Qed.

Lemma classifier_stats_witness :
  ∃ a b,
    (ExpiryPage.useExpiryStats ExpiryPage.fullDaysBetween 0 march1 catalogMarch).2
      !! 0%nat = Some a
    ∧ (ExpiryPage.useExpiryStats ExpiryPage.fullDaysBetween 0 march1 catalogMarch).2
        !! 3%nat = Some b
    ∧ ExpiryPage.daysRemaining a ≤ ExpiryPage.daysRemaining b.
Proof.
  destruct (classifier_stats ExpiryPage.fullDaysBetween 0 march1 catalogMarch)
    as (_ & _ & _ & _ & _ & _ & Horder).
  eexists _, _. split; [reflexivity|]. split; [reflexivity|].
  eapply (Horder 0%nat 3%nat); [reflexivity|reflexivity|lia].
Defined.

(** ** The scan grid *)

Lemma newRowFor_fields cat s :
  GridRow.gtin (StockEntryPage.newRowFor cat s) = StockEntryPage.scannedCode s
  ∧ GridRow.quantity (StockEntryPage.newRowFor cat s) = 1
  ∧ GridRow.id (StockEntryPage.newRowFor cat s) = StockEntryPage.rowId s.
Proof.
  unfold StockEntryPage.newRowFor.
  by destruct (StockEntryPage.lookupProduct _ _).
Qed.

Lemma handleScan_absent cat s grid :
  Forall (λ row, GridRow.gtin row ≠ StockEntryPage.scannedCode s) grid →
  StockEntryPage.handleScan cat s grid = StockEntryPage.newRowFor cat s :: grid.
Proof.
  intros Hno. unfold StockEntryPage.handleScan.
  by rewrite (proj2 (list_find_None _ _) Hno).
Qed.

Lemma handleScan_present cat s grid i r :
  list_find (λ row, GridRow.gtin row = StockEntryPage.scannedCode s) grid
  = Some (i, r) →
  StockEntryPage.handleScan cat s grid = <[i := bumped r 1]> grid.
Proof. intros Hf. unfold StockEntryPage.handleScan. by rewrite Hf. Qed.

(** The row found stays the first row with its code when it is written back
    with the same code. *)
Lemma list_find_insert_same c (grid : list GridRow.t) i r r' :
  list_find (λ row, GridRow.gtin row = c) grid = Some (i, r) →
  GridRow.gtin r' = c →
  list_find (λ row, GridRow.gtin row = c) (<[i := r']> grid) = Some (i, r').
Proof.
  intros (Hi & Hc & Hleast)%list_find_Some Hc'.
  apply list_find_Some. split_and!.
  - apply list_lookup_insert_eq. by eapply lookup_lt_Some.
  - done.
  - intros j y Hj Hji. rewrite list_lookup_insert_ne in Hj by lia.
    by eapply Hleast.
Qed.

Lemma scanAll_present cat c scans :
  Forall (λ s, StockEntryPage.scannedCode s = c) scans →
  ∀ grid i r,
    list_find (λ row, GridRow.gtin row = c) grid = Some (i, r) →
    StockEntryPage.scanAll cat scans grid
    = match scans with
      | [] => grid
      | _ :: _ => <[i := bumped r (Z.of_nat (length scans))]> grid
      end.
Proof.
  unfold StockEntryPage.scanAll.
  induction 1 as [|s scans Hs Hall IH]; intros grid i r Hf; [done|].
  cbn [foldl]. subst c.
  rewrite (handleScan_present _ _ _ _ _ Hf).
  rewrite (IH _ i (bumped r 1)).
  2:{ apply (list_find_insert_same _ _ _ r); [done|].
      by apply list_find_Some in Hf as (_ & Hc & _). }
  destruct scans as [|s' scans]; [done|].
  rewrite list_insert_insert_eq. f_equal.
  unfold bumped, GridRow.with_quantity_highlight. cbn [GridRow.quantity].
  f_equal; try done. cbn [length]. lia.
Qed.

Lemma scanAll_absent cat c s scans grid :
  Forall (λ s, StockEntryPage.scannedCode s = c) (s :: scans) →
  Forall (λ row, GridRow.gtin row ≠ c) grid →
  StockEntryPage.scanAll cat (s :: scans) grid
  = match scans with
    | [] => StockEntryPage.newRowFor cat s
    | _ :: _ => bumped (StockEntryPage.newRowFor cat s) (Z.of_nat (length scans))
    end :: grid.
Proof.
  intros [Hs Hall]%Forall_cons Hno. subst c.
  unfold StockEntryPage.scanAll. cbn [foldl].
  rewrite (handleScan_absent _ _ _ Hno).
  fold (StockEntryPage.scanAll cat scans (StockEntryPage.newRowFor cat s :: grid)).
  rewrite (scanAll_present cat _ scans Hall _ 0%nat (StockEntryPage.newRowFor cat s)).
  - by destruct scans.
  - apply list_find_Some. split_and!; [done|apply newRowFor_fields|].
    intros j y _ Hj. lia.
Qed.

(** The timer that takes the highlight away changes neither the codes nor
    the quantities nor the order of the rows. *)
Lemma clearHighlight_rows rowId grid :
  (λ r, (GridRow.id r, GridRow.gtin r, GridRow.quantity r))
    <$> StockEntryPage.clearHighlight rowId grid
  = (λ r, (GridRow.id r, GridRow.gtin r, GridRow.quantity r)) <$> grid.
Proof.
  unfold StockEntryPage.clearHighlight. rewrite <- list_fmap_compose.
  apply list_fmap_ext. intros k r _. simpl. by destruct (decide _).
Qed.

(** C5. A run of [n >= 1] scans of one code [c], with nothing in between.
    When the grid already has a row for [c], that row, at the place where it
    is, has [n] more units afterwards and the grid is otherwise the same.
    When the grid has no row for [c], the grid afterwards is the old grid
    with one row put in front of it: the only row for [c], with quantity
    [n]; after a single scan it is the new row the scan made, with
    quantity 1. *)
Theorem scan_coalescing cat c s scans :
  Forall (λ x, StockEntryPage.scannedCode x = c) (s :: scans) →
  let n := Z.of_nat (length (s :: scans)) in
  (∀ grid i r,
     list_find (λ row, GridRow.gtin row = c) grid = Some (i, r) →
     let grid' := StockEntryPage.scanAll cat (s :: scans) grid in
     grid' = <[i := bumped r n]> grid
     ∧ GridRow.quantity (bumped r n) = GridRow.quantity r + n
     ∧ length grid' = length grid
     ∧ list_find (λ row, GridRow.gtin row = c) grid' = Some (i, bumped r n)
     ∧ ∀ j, j ≠ i → grid' !! j = grid !! j)
  ∧ (∀ grid,
       Forall (λ row, GridRow.gtin row ≠ c) grid →
       ∃ row,
         StockEntryPage.scanAll cat (s :: scans) grid = row :: grid
         ∧ GridRow.gtin row = c
         ∧ GridRow.quantity row = n
         ∧ GridRow.id row = StockEntryPage.rowId s
         ∧ filter (λ r, GridRow.gtin r = c)
             (StockEntryPage.scanAll cat (s :: scans) grid) = [row]
         ∧ (scans = [] → row = StockEntryPage.newRowFor cat s
                         ∧ GridRow.quantity row = 1)).
Proof.
  intros Hall n. split.
  - intros grid i r Hf grid'.
    assert (Hgrid : grid' = <[i := bumped r n]> grid).
    { unfold grid'. by rewrite (scanAll_present cat c _ Hall grid i r Hf). }
    rewrite Hgrid. split_and!.
    + done.
    + done.
    + by rewrite length_insert.
    + apply (list_find_insert_same _ _ _ r); [done|].
      by apply list_find_Some in Hf as (_ & Hc & _).
    + intros j Hj. by apply list_lookup_insert_ne.
  - intros grid Hno.
    pose proof (newRowFor_fields cat s) as (Hgtin & Hqty & Hid).
    pose proof Hall as [Hs _]%Forall_cons.
    rewrite (scanAll_absent cat c s scans grid Hall Hno).
    eexists. split; [reflexivity|].
    assert (Hfilter : filter (λ r, GridRow.gtin r = c) grid = []).
    { clear -Hno. induction Hno as [|x l Hx _ IH]; [done|].
      by rewrite filter_cons_False. }
    destruct scans as [|s' scans].
    + split_and!; try done; try congruence.
      rewrite filter_cons_True by congruence. by rewrite Hfilter.
    + assert (Hq : GridRow.quantity
                     (bumped (StockEntryPage.newRowFor cat s)
                        (Z.of_nat (length (s' :: scans)))) = n).
      { unfold n, bumped.
        cbn [GridRow.with_quantity_highlight GridRow.quantity length].
        rewrite Hqty. lia. }
      split_and!; try done; try (simpl; congruence).
      rewrite filter_cons_True by (simpl; congruence). by rewrite Hfilter.
Qed.

Lemma scan_coalescing_witness :
  (λ r, (GridRow.gtin r, GridRow.quantity r))
    <$> StockEntryPage.scanAll [] [scanX1; scanX2] []
  = [("X"%string, 2)]
  ∧ (λ r, (GridRow.gtin r, GridRow.quantity r))
      <$> StockEntryPage.scanAll [] [scanX1; scanX2]
            [StockEntryPage.createEmptyRow "row-0" "Y";
             StockEntryPage.createEmptyRow "row-9" "X"]
    = [("Y"%string, 1); ("X"%string, 3)].
Proof.
  assert (Hall : Forall (λ x, StockEntryPage.scannedCode x = "X"%string)
                   [scanX1; scanX2]) by (repeat constructor).
  destruct (scan_coalescing [] "X" scanX1 [scanX2] Hall) as [Hpresent Habsent].
  split.
  - destruct (Habsent [] ltac:(constructor)) as (row & -> & Hgtin & Hqty & _).
    simpl. by rewrite Hgtin, Hqty.
  - destruct (Hpresent [StockEntryPage.createEmptyRow "row-0" "Y";
                        StockEntryPage.createEmptyRow "row-9" "X"]
                1%nat (StockEntryPage.createEmptyRow "row-9" "X") eq_refl)
      as (-> & _).
    reflexivity.
Defined.

(** Two scans of [X] and then one of [Y] on an empty grid: one row for [X]
    with quantity 2, and above it the row for [Y] with quantity 1. *)
Example scan_X_X_Y :
  (λ r, (GridRow.id r, GridRow.gtin r, GridRow.quantity r))
    <$> StockEntryPage.scanAll [] [scanX1; scanX2; scanY] []
  = [("row-3"%string, "Y"%string, 1); ("row-1"%string, "X"%string, 2)].
Proof. reflexivity. Qed.

(** ** Saving the grid *)

Section CommitFacts.

Variable throws : list StockEntryPage.Call → StockEntryPage.Call → bool.
Variable userBranch : option string.
Variable fresh : GridRow.t → StockEntryPage.Fresh.
Variable allProducts : list Product.t.

Local Abbreviation saveEntry := (StockEntryPage.saveEntry throws userBranch fresh allProducts).
Local Abbreviation saveEntries := (StockEntryPage.saveEntries throws userBranch fresh allProducts).
Local Abbreviation handleSaveAll := (StockEntryPage.handleSaveAll throws userBranch fresh allProducts).

Lemma await_fail c log0 log :
  StockEntryPage.await throws c log0 = (log, None) →
  log = log0 ++ [c] ∧ throws log0 c = true.
Proof.
  unfold StockEntryPage.await. destruct (throws log0 c); by intros [= <-].
Qed.

Lemma await_ok c log0 log u :
  StockEntryPage.await throws c log0 = (log, Some u) →
  log = log0 ++ [c] ∧ throws log0 c = false.
Proof.
  unfold StockEntryPage.await. destruct (throws log0 c); by intros [= <-].
Qed.

(** The calls of a row go at the end of the log, and a row that fails ends
    the log with the call that threw. *)
Lemma saveEntry_extends entry log0 log r :
  saveEntry entry log0 = (log, r) → log0 `prefix_of` log.
Proof.
  unfold StockEntryPage.saveEntry, StockEntryPage.bind, StockEntryPage.ret.
  repeat match goal with
         | |- context [decide ?P] => destruct (decide P)
         | |- context [StockEntryPage.findExisting ?a ?b] =>
             destruct (StockEntryPage.findExisting a b)
         | |- context [StockEntryPage.await throws ?c ?l] =>
             unfold StockEntryPage.await; destruct (throws l c)
         | |- context [?a && ?b] => destruct (a && b)
         end;
    intros [= <- <-];
    rewrite <- ?app_assoc; try done; by eexists.
Qed.

Lemma saveEntry_fail entry log0 log :
  saveEntry entry log0 = (log, None) →
  ∃ pre c, log = pre ++ [c] ∧ throws pre c = true ∧ log0 `prefix_of` pre.
Proof.
  unfold StockEntryPage.saveEntry, StockEntryPage.bind, StockEntryPage.ret.
  destruct (decide _); [done|].
  destruct (StockEntryPage.findExisting _ _) as [existing|].
  - intros [-> Ht]%await_fail. by eexists _, _.
  - destruct (StockEntryPage.await _ _ _) as [log1 [[]|]] eqn:Ha.
    + discriminate.
    + apply await_fail in Ha as [-> Ht]. intros [= <-]. by eexists _, _.
Qed.

Lemma saveEntries_fail rows log0 log :
  saveEntries rows log0 = (log, None) →
  ∃ applied failing rest logApplied,
    rows = applied ++ failing :: rest
    ∧ saveEntries applied log0 = (logApplied, Some ())
    ∧ saveEntry failing logApplied = (log, None).
Proof.
  revert log0. induction rows as [|entry rows IH]; intros log0; [done|].
  cbn [StockEntryPage.saveEntries]. unfold StockEntryPage.bind at 1.
  destruct (saveEntry entry log0) as [log1 [[]|]] eqn:He.
  - intros (applied & failing & rest & logApplied & -> & Happ & Hfail)%IH.
    exists (entry :: applied), failing, rest, logApplied. split_and!; [done| |done].
    cbn [StockEntryPage.saveEntries]. unfold StockEntryPage.bind at 1.
    by rewrite He.
  - intros [= <-]. exists [], entry, rows, log0. by split_and!.
Qed.

Lemma saveEntries_extends rows log0 log r :
  saveEntries rows log0 = (log, r) → log0 `prefix_of` log.
Proof.
  revert log0. induction rows as [|entry rows IH]; intros log0.
  - by intros [= <- <-].
  - cbn [StockEntryPage.saveEntries]. unfold StockEntryPage.bind at 1.
    destruct (saveEntry entry log0) as [log1 [[]|]] eqn:He.
    + intros Hr%IH. apply saveEntry_extends in He. by etrans.
    + intros [= <- <-]. by apply saveEntry_extends in He.
Qed.

End CommitFacts.

(** C6, as the code has it.  When a call throws during the commit, the grid
    is left as it was, with every row still in it, the rows already applied
    included; the page is no longer saving and shows the alert.  The rows
    before the failing one were applied and their calls stay in the log, with
    nothing undone; the log ends with the call that threw, so that no later
    row was attempted. *)
Theorem saveAll_failure_keeps_grid throws userBranch fresh allProducts grid log page :
  StockEntryPage.handleSaveAll throws userBranch fresh allProducts true grid
  = (log, page) →
  StockEntryPage.alerted page = true →
  page = StockEntryPage.mkPage grid false true false
  ∧ ∃ applied failing rest logApplied pre c,
      grid = applied ++ failing :: rest
      ∧ StockEntryPage.saveEntries throws userBranch fresh allProducts applied []
        = (logApplied, Some ())
      ∧ StockEntryPage.saveEntry throws userBranch fresh allProducts failing
          logApplied = (log, None)
      ∧ logApplied `prefix_of` pre
      ∧ log = pre ++ [c]
      ∧ throws pre c = true.
Proof.
  unfold StockEntryPage.handleSaveAll.
  destruct grid as [|g0 grid0]; [by intros [= <- <-]|].
  set (grid := g0 :: grid0). cbn [negb].
  unfold StockEntryPage.bind at 1.
  destruct (StockEntryPage.saveEntries throws userBranch fresh allProducts grid [])
    as [log1 [[]|]] eqn:Hs.
  - unfold StockEntryPage.awaitFetch. by intros [= <- <-].
  - intros [= <- <-] _. split; [done|].
    apply saveEntries_fail in Hs
      as (applied & failing & rest & logApplied & Hgrid & Happ & Hfail).
    pose proof Hfail as (pre & c & Hlog & Ht & Hpre)%saveEntry_fail.
    by exists applied, failing, rest, logApplied, pre, c.
Qed.

Lemma saveAll_failure_keeps_grid_witness :
  StockEntryPage.mkPage threeRows false true false
  = StockEntryPage.mkPage threeRows false true false
  ∧ ∃ applied failing rest logApplied pre c,
      threeRows = applied ++ failing :: rest
      ∧ StockEntryPage.saveEntries secondCallThrows None freshFor [] applied []
        = (logApplied, Some ())
      ∧ StockEntryPage.saveEntry secondCallThrows None freshFor [] failing
          logApplied
        = ((StockEntryPage.handleSaveAll secondCallThrows None freshFor [] true
              threeRows).1, None)
      ∧ logApplied `prefix_of` pre
      ∧ (StockEntryPage.handleSaveAll secondCallThrows None freshFor [] true
           threeRows).1 = pre ++ [c]
      ∧ secondCallThrows pre c = true.
Proof.
  apply (saveAll_failure_keeps_grid secondCallThrows None freshFor [] threeRows
           (StockEntryPage.handleSaveAll secondCallThrows None freshFor [] true
              threeRows).1
           (StockEntryPage.mkPage threeRows false true false));
    reflexivity.
Defined.

(** C6 as the claim has it fails.  In a grid of three rows of which the
    second fails, the first row is applied, the third is not attempted, and
    the grid afterwards still holds all three rows: the first row is in it,
    and it is not the grid of rows 2 and 3. *)
Lemma failed_commit_keeps_applied_row :
  ∃ c1 c2,
    StockEntryPage.handleSaveAll secondCallThrows None freshFor [] true threeRows
    = ([c1; c2], StockEntryPage.mkPage threeRows false true false)
    ∧ StockEntryPage.callsOf None freshFor [] <$> threeRows !! 0%nat = Some [c1]
    ∧ StockEntryPage.callsOf None freshFor [] <$> threeRows !! 1%nat = Some [c2]
    ∧ secondCallThrows [] c1 = false
    ∧ secondCallThrows [c1] c2 = true
    ∧ threeRows !! 0%nat
      = head (StockEntryPage.gridData
                (StockEntryPage.handleSaveAll secondCallThrows None freshFor []
                   true threeRows).2)
    ∧ StockEntryPage.gridData
        (StockEntryPage.handleSaveAll secondCallThrows None freshFor [] true
           threeRows).2
      ≠ drop 1 threeRows.
Proof.
  eexists _, _. split_and!; [reflexivity..|].
  intros Heq. apply (f_equal length) in Heq. discriminate Heq.
Qed.

(** ** The scanner history *)

(** One confirmation: the item goes to the front of the scanned items, the
    log, if one is written, to the front of the logs, and both lists are cut
    to their bounds. *)
Lemma confirmAndSync_history catalog now item st :
  let r := Scanner.confirmAndSync catalog now item st in
  (∃ settled,
     Scanner.scannedItems r.2 = take 500 (settled :: Scanner.scannedItems st)
     ∧ Scanner.id settled = Scanner.id item
     ∧ Scanner.verified settled = true
     ∧ Scanner.syncStatus settled
       = (if r.1.1 then Scanner.SYNCED else Scanner.ERROR))
  ∧ (if r.1.1
     then ∃ log, Scanner.syncLogs r.2 = take 200 (log :: Scanner.syncLogs st)
                 ∧ Scanner.scanId log = Scanner.id item
                 ∧ Scanner.logTime log = now
     else Scanner.syncLogs r.2 = Scanner.syncLogs st).
Proof.
  unfold Scanner.confirmAndSync.
  destruct (Scanner.identify catalog item) as [product|]; cbn [fst snd].
  - split; [by eexists|by eexists].
  - split; [by eexists|done].
Qed.

Lemma confirmAndSync_bounded catalog now item st :
  (length (Scanner.syncLogs st) ≤ 200)%nat →
  historyBounded (Scanner.confirmAndSync catalog now item st).2.
Proof.
  intros Hlogs. unfold historyBounded.
  pose proof (confirmAndSync_history catalog now item st) as [(x & -> & _) Hl].
  cbn zeta in Hl. split.
  - rewrite length_take. lia.
  - destruct ((Scanner.confirmAndSync catalog now item st).1.1).
    + destruct Hl as (log & -> & _). rewrite length_take. lia.
    + by rewrite Hl.
Qed.

Lemma confirmAll_bounded events st :
  (length (Scanner.syncLogs st) ≤ 200)%nat →
  (length (Scanner.scannedItems st) ≤ 500)%nat →
  historyBounded (Scanner.confirmAll events st).
Proof.
  unfold Scanner.confirmAll.
  revert st. induction events as [|ev events IH]; intros st Hl Hs; [done|].
  cbn [foldl].
  pose proof (confirmAndSync_bounded ev.1.1 ev.1.2 ev.2 st Hl) as [Hs' Hl'].
  by apply IH.
Qed.

Lemma confirmAll_snoc events ev st :
  Scanner.confirmAll (events ++ [ev]) st
  = (Scanner.confirmAndSync ev.1.1 ev.1.2 ev.2 (Scanner.confirmAll events st)).2.
Proof. unfold Scanner.confirmAll. by rewrite foldl_app. Qed.

(** C10. After any run of confirmations since the history was empty, the
    scanned items are at most 500 and the logs at most 200.  After each
    confirmation the item just confirmed is the first of the scanned items,
    followed by the earlier ones in their order; when it was synced, its log
    is the first of the logs, followed by the earlier ones, and otherwise the
    logs are as before. *)
Theorem scanner_history_bounded events catalog now item :
  let before := Scanner.confirmAll events Scanner.initial in
  let r := Scanner.confirmAndSync catalog now item before in
  historyBounded before
  ∧ historyBounded r.2
  ∧ r.2 = Scanner.confirmAll (events ++ [(catalog, now, item)]) Scanner.initial
  ∧ (∃ settled,
       head (Scanner.scannedItems r.2) = Some settled
       ∧ Scanner.id settled = Scanner.id item
       ∧ Scanner.scannedItems r.2
         = take 500 (settled :: Scanner.scannedItems before))
  ∧ (if r.1.1
     then ∃ log, head (Scanner.syncLogs r.2) = Some log
                 ∧ Scanner.scanId log = Scanner.id item
                 ∧ Scanner.syncLogs r.2
                   = take 200 (log :: Scanner.syncLogs before)
     else Scanner.syncLogs r.2 = Scanner.syncLogs before).
Proof.
  intros before r.
  assert (Hb : historyBounded before).
  { apply confirmAll_bounded; simpl; lia. }
  pose proof (confirmAndSync_history catalog now item before)
    as [(settled & Hitems & Hid & _) Hlogs].
  fold r in Hitems, Hlogs. split_and!.
  - done.
  - apply confirmAndSync_bounded, Hb.
  - unfold r, before. by rewrite confirmAll_snoc.
  - exists settled. by rewrite Hitems.
  - destruct (r.1.1); [|done].
    destruct Hlogs as (log & Hl & Hscan & _). exists log. by rewrite Hl.
Qed.

(** * Properties of the further parts *)

(** ** The batch routes *)

Lemma findProduct_Some db pid br p :
  BatchesApi.findProduct db pid br = Some p →
  db !! pid = Some p ∧ Product.branchId p = br.
Proof.
  unfold BatchesApi.findProduct.
  destruct (db !! pid) as [p0|]; [|done].
  destruct (decide _); [|done]. by intros [= <-].
Qed.

Lemma findProduct_intro db pid p :
  db !! pid = Some p →
  BatchesApi.findProduct db pid (Product.branchId p) = Some p.
Proof.
  intros Hp. unfold BatchesApi.findProduct. rewrite Hp. by rewrite decide_True.
Qed.

Lemma post_inr_branch ub pid body newId db r db' :
  BatchesApi.post ub pid body newId db = inr (r, db') →
  str_truthy ub = true
  ∧ ∃ p, db !! pid = Some p ∧ Product.branchId p = default EmptyString ub.
Proof.
  unfold BatchesApi.post. intros Hpost.
  destruct (str_truthy ub); simpl in Hpost; [|discriminate].
  destruct (BatchesApi.createBatchSchema body); [discriminate|].
  destruct (BatchesApi.findProduct _ _ _) as [p|] eqn:Hp; [|discriminate].
  apply findProduct_Some in Hp. split; [done|]. by exists p.
Qed.

(** What an accepted [PATCH] does to the database. *)
Lemma patch_inr ub pid bid body db b' db' :
  BatchRoutes.patch ub pid bid body db = inr (b', db') →
  ∃ product i b,
    db !! pid = Some product
    ∧ str_truthy ub = true
    ∧ Product.branchId product = default EmptyString ub
    ∧ BatchRoutes.updateBatchSchema body = inr body
    ∧ BatchRoutes.findBatchById bid (Product.batches product) = Some (i, b)
    ∧ b' = BatchRoutes.applyPatch b body
    ∧ db' = <[pid := Product.with_stock product
                       (Product.stockLevel product + BatchRoutes.quantityDiff body b)
                       (<[i := b']> (Product.batches product))]> db.
Proof.
  unfold BatchRoutes.patch. intros Hpatch.
  destruct (str_truthy ub); simpl in Hpatch; [|discriminate].
  destruct (BatchRoutes.updateBatchSchema body) as [e|data] eqn:Hs; [discriminate|].
  assert (data = body) as ->.
  { unfold BatchRoutes.updateBatchSchema in Hs.
    destruct (_ && _); by simplify_eq. }
  destruct (BatchesApi.findProduct _ _ _) as [product|] eqn:Hp; [|discriminate].
  apply findProduct_Some in Hp as [Hp Hbr].
  destruct (BatchRoutes.findBatchById _ _) as [[i b]|] eqn:Hf; [|discriminate].
  injection Hpatch as <- <-.
  exists product, i, b. split_and!; try done.
  unfold BatchesApi.updateStockLevel, BatchesApi.updateBatch.
  destruct (Z.eqb_spec (BatchRoutes.quantityDiff body b) 0) as [->|Hne]; simpl.
  - erewrite alter_alt_Some by done. simpl. by rewrite Z.add_0_r.
  - rewrite alter_alter_eq. by erewrite alter_alt_Some by done.
Qed.

(** What an accepted [DELETE] does to the database. *)
Lemma remove_inr ub pid bid db db' :
  BatchRoutes.remove ub pid bid db = inr db' →
  ∃ product i b,
    db !! pid = Some product
    ∧ str_truthy ub = true
    ∧ Product.branchId product = default EmptyString ub
    ∧ BatchRoutes.findBatchById bid (Product.batches product) = Some (i, b)
    ∧ db' = <[pid := Product.with_stock product
                       (Z.max 0 (Product.stockLevel product - Batch.quantity b))
                       (delete i (Product.batches product))]> db.
Proof.
  unfold BatchRoutes.remove. intros Hrm.
  destruct (str_truthy ub); simpl in Hrm; [|discriminate].
  destruct (BatchesApi.findProduct _ _ _) as [product|] eqn:Hp; [|discriminate].
  apply findProduct_Some in Hp as [Hp Hbr].
  destruct (BatchRoutes.findBatchById _ _) as [[i b]|] eqn:Hf; [|discriminate].
  injection Hrm as <-.
  exists product, i, b. split_and!; try done.
  unfold BatchRoutes.deleteBatch, BatchesApi.updateStockLevel.
  rewrite alter_alter_eq. by erewrite alter_alt_Some by done.
Qed.

(** X1. A request to one of the routes that write, whatever its outcome,
    leaves every other product as it is, and it leaves the product it names
    as it is when that product belongs to another branch than the user. *)
Theorem routes_touch_one_product ub pid bid body patchBody newId db pid' :
  (pid' ≠ pid
   ∨ ∀ p, db !! pid' = Some p → Product.branchId p ≠ default EmptyString ub) →
  BatchesApi.post_db ub pid body newId db !! pid' = db !! pid'
  ∧ BatchRoutes.patch_db ub pid bid patchBody db !! pid' = db !! pid'
  ∧ BatchRoutes.remove_db ub pid bid db !! pid' = db !! pid'.
Proof.
  intros Hother. split_and!.
  - unfold BatchesApi.post_db.
    destruct (BatchesApi.post ub pid body newId db) as [e|[r db']] eqn:Hpost; [done|].
    pose proof Hpost as (_ & p & Hp & Hbr)%post_inr_branch.
    apply post_inr in Hpost as (product & Hp' & _ & _ & _ & Hcase).
    destruct Hother as [Hne|Hbranch].
    + destruct Hcase as [(i & b & _ & _ & ->)|(_ & _ & ->)];
        by rewrite lookup_insert_ne.
    + destruct (decide (pid' = pid)) as [->|Hne].
      * by destruct (Hbranch p Hp).
      * destruct Hcase as [(i & b & _ & _ & ->)|(_ & _ & ->)];
          by rewrite lookup_insert_ne.
  - unfold BatchRoutes.patch_db.
    destruct (BatchRoutes.patch ub pid bid patchBody db) as [e|[b' db']] eqn:Hpatch;
      [done|].
    apply patch_inr in Hpatch as (product & i & b & Hp & _ & Hbr & _ & _ & _ & ->).
    destruct (decide (pid' = pid)) as [->|Hne]; [|by rewrite lookup_insert_ne].
    destruct Hother as [Hne|Hbranch]; [done|]. by destruct (Hbranch product Hp).
  - unfold BatchRoutes.remove_db.
    destruct (BatchRoutes.remove ub pid bid db) as [e|db'] eqn:Hrm; [done|].
    apply remove_inr in Hrm as (product & i & b & Hp & _ & Hbr & _ & ->).
    destruct (decide (pid' = pid)) as [->|Hne]; [|by rewrite lookup_insert_ne].
    destruct Hother as [Hne|Hbranch]; [done|]. by destruct (Hbranch product Hp).
Qed.

Lemma routes_touch_one_product_witness :
  BatchesApi.post_db (Some "b2"%string) "p2"
    (BatchesApi.mkBody "LOT-50" (JSDate.mkIso 2025 1 1) 7 120) "b9" fiftyLotDb
    !! "p2"%string = fiftyLotDb !! "p2"%string
  ∧ BatchRoutes.patch_db (Some "b2"%string) "p2" "b3"
      (BatchRoutes.mkPatch None None (Some 7) None) fiftyLotDb !! "p2"%string
    = fiftyLotDb !! "p2"%string
  ∧ BatchRoutes.remove_db (Some "b2"%string) "p2" "b3" fiftyLotDb !! "p2"%string
    = fiftyLotDb !! "p2"%string.
Proof.
  apply (routes_touch_one_product (Some "b2"%string) "p2" "b3"
           (BatchesApi.mkBody "LOT-50" (JSDate.mkIso 2025 1 1) 7 120)
           (BatchRoutes.mkPatch None None (Some 7) None) "b9" fiftyLotDb "p2").
  right. intros p Hp. vm_compute in Hp. injection Hp as <-. discriminate.
Defined.

Lemma batchTotal_delete bs i b :
  bs !! i = Some b →
  batchTotal (delete i bs) = batchTotal bs - Batch.quantity b.
Proof.
  revert i. induction bs as [|x bs IH]; intros [|i] Hi; simplify_eq/=.
  - lia.
  - rewrite (IH i Hi). lia.
Qed.

(** The element found stays the first one found when it is replaced by one
    that is found as well. *)
Lemma list_find_insert_keep {A} (P : A → Prop) `{∀ x, Decision (P x)}
    (l : list A) i x y :
  list_find P l = Some (i, x) → P y →
  list_find P (<[i := y]> l) = Some (i, y).
Proof.
  intros (Hi & Hx & Hleast)%list_find_Some Hy.
  apply list_find_Some. split_and!.
  - apply list_lookup_insert_eq. by eapply lookup_lt_Some.
  - done.
  - intros j z Hj Hji. rewrite list_lookup_insert_ne in Hj by lia.
    by eapply Hleast.
Qed.

(** With distinct keys, the row found by its key is the only one with it. *)
Lemma findBatchById_unique bid bs i b j x :
  NoDup (Batch.id <$> bs) →
  BatchRoutes.findBatchById bid bs = Some (i, b) →
  bs !! j = Some x → Batch.id x = bid → j = i.
Proof.
  intros Hnd (Hi & Hb & _)%list_find_Some Hj Hx.
  eapply NoDup_lookup; [exact Hnd| |].
  - by rewrite list_lookup_fmap, Hj.
  - rewrite list_lookup_fmap, Hi. simpl. congruence.
Qed.

Lemma getOne_intro ub pid bid db product i b :
  str_truthy ub = true →
  db !! pid = Some product →
  Product.branchId product = default EmptyString ub →
  BatchRoutes.findBatchById bid (Product.batches product) = Some (i, b) →
  BatchRoutes.getOne ub pid bid db = inr b.
Proof.
  intros Hub Hp Hbr Hf. unfold BatchRoutes.getOne. rewrite Hub. simpl.
  rewrite <- Hbr, (findProduct_intro _ _ _ Hp). by rewrite Hf.
Qed.

(** X2. An accepted [PATCH] writes the fields given to the batch with the
    key, which a [GET] of that key then returns, and moves the stock level of
    the product by the difference between the new quantity and the old one,
    but by nothing when the new quantity is 0 or absent.  When the stock
    level was the sum of the batches, it is so afterwards exactly unless a
    batch that held something was set to 0. *)
Theorem patch_stock_level ub pid bid body db b' db' product :
  db !! pid = Some product →
  BatchRoutes.patch ub pid bid body db = inr (b', db') →
  ∃ i b product',
    BatchRoutes.findBatchById bid (Product.batches product) = Some (i, b)
    ∧ db' !! pid = Some product'
    ∧ Product.batches product' = <[i := b']> (Product.batches product)
    ∧ b' = BatchRoutes.applyPatch b body
    ∧ Product.stockLevel product'
      = Product.stockLevel product + BatchRoutes.quantityDiff body b
    ∧ BatchRoutes.getOne ub pid bid db' = inr b'
    ∧ (Product.stockLevel product = batchTotal (Product.batches product) →
       (Product.stockLevel product' = batchTotal (Product.batches product')
        ↔ (BatchRoutes.quantity body = Some 0 → Batch.quantity b = 0))).
Proof.
  intros Hp Hpatch.
  apply patch_inr in Hpatch
    as (product0 & i & b & Hp0 & Hub & Hbr & _ & Hf & -> & ->).
  rewrite Hp in Hp0. injection Hp0 as <-.
  eexists i, b, _. split_and!; [done|apply lookup_insert_eq|done..| |].
  - eapply getOne_intro; [done|apply lookup_insert_eq|done|]. simpl.
    apply (list_find_insert_keep _ _ _ b); [done|].
    by apply list_find_Some in Hf as (_ & Hid & _).
  - intros Hinv. simpl.
    pose proof Hf as (Hi & _ & _)%list_find_Some.
    rewrite (batchTotal_insert _ _ _ _ Hi), Hinv.
    unfold BatchRoutes.quantityDiff, BatchRoutes.applyPatch. simpl.
    destruct (BatchRoutes.quantity body) as [q|]; simpl.
    + destruct (Z.eqb_spec q 0) as [->|Hq].
      * split; [intros; lia|]. intros H0. specialize (H0 eq_refl). lia.
      * split; [by intros _ [=]|intros _; lia].
    + split; [done|intros _; lia].
Qed.

Lemma patch_stock_level_witness :
  ∃ i b product',
    BatchRoutes.findBatchById "b3" (Product.batches fiftyLot) = Some (i, b)
    ∧ (<["p2"%string :=
           Product.with_stock fiftyLot 7
             [Batch.mk "b3" "LOT-50" (JSDate.mkIso 2024 3 20) 7 100]]> fiftyLotDb)
        !! "p2"%string = Some product'
    ∧ Product.stockLevel product' = 50 + -43.
Proof.
  destruct (patch_stock_level (Some "b1"%string) "p2" "b3"
              (BatchRoutes.mkPatch None None (Some 7) None) fiftyLotDb
              (Batch.mk "b3" "LOT-50" (JSDate.mkIso 2024 3 20) 7 100)
              (<["p2"%string :=
                   Product.with_stock fiftyLot 7
                     [Batch.mk "b3" "LOT-50" (JSDate.mkIso 2024 3 20) 7 100]]>
                 fiftyLotDb)
              fiftyLot eq_refl eq_refl)
    as (i & b & product' & Hf & Hp' & _ & _ & Hstock & _).
  exists i, b, product'. split_and!; [exact Hf|exact Hp'|].
  rewrite Hstock. vm_compute in Hf. injection Hf as <- <-. reflexivity.
Defined.

(** X3. An accepted [DELETE] takes the batch with the key out of the
    product and lowers the stock level by its quantity, not below 0.  When
    no batch is negative and the stock level was the sum of the batches, it
    is so afterwards; and when the keys of the batches are distinct, a [GET]
    of the key afterwards answers that the batch is not found. *)
Theorem remove_batch_effect ub pid bid db db' product :
  db !! pid = Some product →
  BatchRoutes.remove ub pid bid db = inr db' →
  ∃ i b product',
    BatchRoutes.findBatchById bid (Product.batches product) = Some (i, b)
    ∧ db' !! pid = Some product'
    ∧ Product.batches product' = delete i (Product.batches product)
    ∧ S (length (Product.batches product')) = length (Product.batches product)
    ∧ Product.stockLevel product'
      = Z.max 0 (Product.stockLevel product - Batch.quantity b)
    ∧ (Forall (λ x, 0 ≤ Batch.quantity x) (Product.batches product) →
       Product.stockLevel product = batchTotal (Product.batches product) →
       Product.stockLevel product' = batchTotal (Product.batches product'))
    ∧ (NoDup (Batch.id <$> Product.batches product) →
       BatchRoutes.getOne ub pid bid db' = inl BatchRoutes.BatchNotFound).
Proof.
  intros Hp Hrm.
  apply remove_inr in Hrm as (product0 & i & b & Hp0 & Hub & Hbr & Hf & ->).
  rewrite Hp in Hp0. injection Hp0 as <-.
  pose proof Hf as (Hi & Hid & _)%list_find_Some.
  eexists i, b, _. split_and!; [done|apply lookup_insert_eq|done| |done| |]; simpl.
  - rewrite length_delete by eauto. apply lookup_lt_Some in Hi. lia.
  - intros Hnn Hinv. rewrite (batchTotal_delete _ _ _ Hi), Hinv.
    assert (Hrest : 0 ≤ batchTotal (delete i (Product.batches product))).
    { assert (Hnn' : Forall (λ x, 0 ≤ Batch.quantity x)
                       (delete i (Product.batches product))).
      { rewrite delete_take_drop. apply Forall_app.
        split; [by apply Forall_take|by apply Forall_drop]. }
      clear -Hnn'. induction Hnn'; simpl; lia. }
    rewrite (batchTotal_delete _ _ _ Hi) in Hrest. lia.
  - intros Hnd. unfold BatchRoutes.getOne. rewrite Hub. simpl.
    unfold BatchesApi.findProduct. rewrite lookup_insert_eq. simpl.
    rewrite decide_True by done. cbn [Product.batches Product.with_stock].
    destruct (BatchRoutes.findBatchById bid (delete i (Product.batches product)))
      as [[j x]|] eqn:Hf'; [|done].
    apply list_find_Some in Hf' as (Hj & Hx & _). exfalso.
    destruct (decide (j < i)%nat) as [Hlt|Hge].
    + rewrite list_lookup_delete_lt in Hj by done.
      pose proof (findBatchById_unique _ _ _ _ _ _ Hnd Hf Hj Hx). lia.
    + rewrite list_lookup_delete_ge in Hj by lia.
      pose proof (findBatchById_unique _ _ _ _ _ _ Hnd Hf Hj Hx). lia.
Qed.

Lemma remove_batch_effect_witness :
  ∃ i b product',
    BatchRoutes.findBatchById "b3" (Product.batches fiftyLot) = Some (i, b)
    ∧ (<["p2"%string := Product.with_stock fiftyLot 0 []]> fiftyLotDb)
        !! "p2"%string = Some product'
    ∧ Product.batches product' = delete i (Product.batches fiftyLot).
Proof.
  destruct (remove_batch_effect (Some "b1"%string) "p2" "b3" fiftyLotDb
              (<["p2"%string := Product.with_stock fiftyLot 0 []]> fiftyLotDb)
              fiftyLot eq_refl eq_refl)
    as (i & b & product' & Hf & Hp' & Hbs & _).
  by exists i, b, product'.
Defined.

Lemma with_stock_same p :
  Product.with_stock p (Product.stockLevel p) (Product.batches p) = p.
Proof. by destruct p. Qed.

Lemma findBatchById_new newId bs nb :
  newId ∉ Batch.id <$> bs → Batch.id nb = newId →
  BatchRoutes.findBatchById newId (bs ++ [nb]) = Some (length bs, nb).
Proof.
  intros Hfresh Hid. apply list_find_Some. split_and!.
  - by rewrite lookup_app_r, Nat.sub_diag.
  - done.
  - intros j x Hj Hlt Hx. rewrite lookup_app_l in Hj by done.
    apply Hfresh, list_elem_of_fmap. exists x. split; [done|].
    by eapply list_elem_of_lookup_2.
Qed.



Lemma findBatch_insert_keep bn bs i b b' :
  findBatch bn bs = Some (i, b) → Batch.batchNumber b' = bn →
  findBatch bn (<[i := b']> bs) = Some (i, b').
Proof. intros Hf Hb. by apply (list_find_insert_keep _ _ _ b). Qed.

(** The database after a receive that the schema accepts. *)
Lemma post_db_eq ub pid body newId db :
  BatchesApi.createBatchSchema body = inr body →
  BatchesApi.post_db ub pid body newId db
  = if str_truthy ub
    then match BatchesApi.findProduct db pid (default EmptyString ub) with
         | Some p => <[pid := received p body newId]> db
         | None => db
         end
    else db.
Proof.
  intros Hs. unfold BatchesApi.post_db.
  destruct (BatchesApi.post ub pid body newId db) as [e|[r db']] eqn:Hpost.
  - unfold BatchesApi.post in Hpost.
    destruct (str_truthy ub); [|done]. simpl in Hpost. rewrite Hs in Hpost.
    destruct (BatchesApi.findProduct _ _ _) as [p|]; [|done].
    by destruct (findBatch _ _) as [[i b]|].
  - pose proof Hpost as (Hub & p & Hp & Hbr)%post_inr_branch.
    apply post_inr in Hpost as (p0 & Hp0 & _ & _ & _ & Hcase).
    rewrite Hp in Hp0. injection Hp0 as <-.
    rewrite Hub, <- Hbr, (findProduct_intro _ _ _ Hp). unfold received.
    by destruct Hcase as [(i & b & -> & _ & ->)|(-> & _ & ->)].
Qed.

(** X5. Two receives under one batch number, both accepted by the schema,
    leave the database as one receive of the two quantities together would:
    with the cost price of the second and, where the batch is created, the
    key and the expiry date of the first. *)
Theorem two_receives_add_up ub pid b1 b2 id1 id2 db :
  BatchesApi.batchNumber b2 = BatchesApi.batchNumber b1 →
  BatchesApi.createBatchSchema b1 = inr b1 →
  BatchesApi.createBatchSchema b2 = inr b2 →
  BatchesApi.post_db ub pid b2 id2 (BatchesApi.post_db ub pid b1 id1 db)
  = BatchesApi.post_db ub pid
      (BatchesApi.mkBody (BatchesApi.batchNumber b1) (BatchesApi.expiryDate b1)
         (BatchesApi.quantity b1 + BatchesApi.quantity b2)
         (BatchesApi.costPrice b2))
      id1 db.
Proof.
  intros Hbn Hs1 Hs2.
  set (b12 := BatchesApi.mkBody (BatchesApi.batchNumber b1)
                (BatchesApi.expiryDate b1)
                (BatchesApi.quantity b1 + BatchesApi.quantity b2)
                (BatchesApi.costPrice b2)).
  assert (Hs : BatchesApi.createBatchSchema b12 = inr b12).
  { apply createBatchSchema_inr in Hs1 as (_ & Hn1 & Hq1 & _).
    apply createBatchSchema_inr in Hs2 as (_ & _ & Hq2 & Hc2).
    unfold BatchesApi.createBatchSchema, b12. simpl.
    rewrite bool_decide_eq_true_2 by done.
    destruct (Z.leb_spec 0 (BatchesApi.quantity b1 + BatchesApi.quantity b2)); [|lia].
    by destruct (Z.ltb_spec 0 (BatchesApi.costPrice b2)); [|lia]. }
  rewrite !post_db_eq by done.
  destruct (str_truthy ub); [|done].
  destruct (BatchesApi.findProduct db pid (default EmptyString ub)) as [p|] eqn:Hp;
    [|by rewrite Hp].
  apply findProduct_Some in Hp as [Hp Hbr].
  assert (Hp1 : BatchesApi.findProduct (<[pid := received p b1 id1]> db) pid
                  (default EmptyString ub) = Some (received p b1 id1)).
  { rewrite <- Hbr.
    apply (findProduct_intro _ _ (received p b1 id1)), lookup_insert_eq. }
  rewrite Hp1, insert_insert_eq. f_equal.
  unfold received, b12.
  cbn [BatchesApi.batchNumber BatchesApi.quantity BatchesApi.costPrice
       BatchesApi.expiryDate Product.batches Product.stockLevel
       Product.with_stock].
  rewrite Hbn.
  destruct (findBatch (BatchesApi.batchNumber b1) (Product.batches p))
    as [[i b]|] eqn:Hf.
  - rewrite (findBatch_insert_keep _ _ _ b (incremented b b1) Hf)
      by (by apply findBatch_Some in Hf as (_ & Hb & _)).
    rewrite list_insert_insert_eq.
    unfold Product.with_stock, incremented, Batch.with_quantity_cost. simpl.
    f_equal; [lia|]. f_equal. f_equal. lia.
  - assert (Hnew : findBatch (BatchesApi.batchNumber b1)
                     (Product.batches p ++ [created id1 b1])
                   = Some (length (Product.batches p), created id1 b1)).
    { apply list_find_Some. split_and!.
      - by rewrite lookup_app_r, Nat.sub_diag.
      - done.
      - intros j x Hj Hlt Hx. rewrite lookup_app_l in Hj by done.
        apply findBatch_None in Hf. apply Hf, list_elem_of_fmap.
        exists x. split; [done|]. by eapply list_elem_of_lookup_2. }
    rewrite Hnew, insert_app_r_alt, Nat.sub_diag by done.
    unfold Product.with_stock, incremented, created, Batch.with_quantity_cost.
    simpl. f_equal. lia.
Qed.

Lemma two_receives_add_up_witness :
  BatchesApi.post_db (Some "b1"%string) "p2"
    (BatchesApi.mkBody "LOT-50" (JSDate.mkIso 2026 1 1) 3 130) "b8"
    (BatchesApi.post_db (Some "b1"%string) "p2"
       (BatchesApi.mkBody "LOT-50" (JSDate.mkIso 2025 1 1) 7 120) "b9" fiftyLotDb)
  = BatchesApi.post_db (Some "b1"%string) "p2"
      (BatchesApi.mkBody "LOT-50" (JSDate.mkIso 2025 1 1) (7 + 3) 130) "b9"
      fiftyLotDb.
Proof.
  apply (two_receives_add_up (Some "b1"%string) "p2"
           (BatchesApi.mkBody "LOT-50" (JSDate.mkIso 2025 1 1) 7 120)
           (BatchesApi.mkBody "LOT-50" (JSDate.mkIso 2026 1 1) 3 130)
           "b9" "b8" fiftyLotDb); reflexivity.
Defined.

(** ** The cart *)

Lemma cart_total_eq st : Cart.total st = cartAmount (Cart.items st).
Proof.
  unfold Cart.total, cartAmount.
  assert (H : ∀ l a, foldl (λ sum item, sum + Product.price (CartItem.product item)
                                              * CartItem.quantity item) a l
                     = a + foldr (λ i acc, lineAmount i + acc) 0 l).
  { induction l as [|x l IH]; intros a; simpl; [lia|].
    rewrite IH. unfold lineAmount. lia. }
  rewrite H. lia.
Qed.

Lemma cartAmount_app l1 l2 : cartAmount (l1 ++ l2) = cartAmount l1 + cartAmount l2.
Proof. induction l1 as [|x l1 IH]; simpl; [|rewrite IH]; lia. Qed.

Lemma cartUnits_app l1 l2 : cartUnits (l1 ++ l2) = cartUnits l1 + cartUnits l2.
Proof. induction l1 as [|x l1 IH]; simpl; [|rewrite IH]; lia. Qed.

Lemma cartAmount_cons x l : cartAmount (x :: l) = lineAmount x + cartAmount l.
Proof. reflexivity. Qed.

Lemma cartUnits_cons x l : cartUnits (x :: l) = CartItem.quantity x + cartUnits l.
Proof. reflexivity. Qed.

(** Adding one unit to the line with a key that no other line has. *)
Lemma bump_line l x :
  NoDup (CartItem.cartId <$> l) → x ∈ l →
  let l' := (λ i, if decide (CartItem.cartId i = CartItem.cartId x)
                  then CartItem.with_quantity i (CartItem.quantity i + 1)
                  else i) <$> l in
  cartAmount l' = cartAmount l + Product.price (CartItem.product x)
  ∧ cartUnits l' = cartUnits l + 1
  ∧ CartItem.cartId <$> l' = CartItem.cartId <$> l.
Proof.
  intros Hnd Hx. cbn zeta.
  induction l as [|y l IH]; [by apply not_elem_of_nil in Hx|].
  rewrite fmap_cons in Hnd. apply NoDup_cons in Hnd as [Hy Hnd].
  rewrite !fmap_cons, !cartAmount_cons, !cartUnits_cons.
  apply elem_of_cons in Hx as [->|Hx].
  - rewrite decide_True by done.
    assert (Hsame : (λ i, if decide (CartItem.cartId i = CartItem.cartId y)
                          then CartItem.with_quantity i (CartItem.quantity i + 1)
                          else i) <$> l = l).
    { rewrite <- (list_fmap_id l) at 2. apply list_fmap_ext. intros k i Hk.
      destruct (decide _) as [Heq|]; [|done]. exfalso. apply Hy.
      rewrite <- Heq. apply list_elem_of_fmap. exists i. split; [done|].
      by eapply list_elem_of_lookup_2. }
    rewrite Hsame. unfold lineAmount. simpl. split_and!; [lia|lia|done].
  - destruct (IH Hnd Hx) as (Ha & Hu & Hids).
    assert (Hne : CartItem.cartId y ≠ CartItem.cartId x).
    { intros Heq. apply Hy. rewrite Heq. apply list_elem_of_fmap. by exists x. }
    rewrite decide_False by done.
    rewrite Ha, Hu, Hids. split_and!; [lia|lia|done].
Qed.

Lemma find_elem_of {A} (f : A → bool) l x : List.find f l = Some x → x ∈ l ∧ f x = true.
Proof.
  intros H. apply List.find_some in H as [Hin Hf].
  split; [by apply list_elem_of_In|done].
Qed.

(** X6. Adding a product to a cart whose lines have distinct keys adds
    exactly one unit.  When a line is the same product under the same batch
    and the same override, the first such line gets the unit, the cart keeps
    its lines and the total grows by the price of that line; otherwise a line
    with quantity 1 is appended and the total grows by the price of the
    product. *)
Theorem addItem_one_unit newCartId product options st :
  NoDup (CartItem.cartId <$> Cart.items st) →
  let st' := Cart.addItem newCartId product options st in
  cartUnits (Cart.items st') = cartUnits (Cart.items st) + 1
  ∧ match List.find (Cart.sameLine product (Cart.optionsOr options)) (Cart.items st) with
    | Some existing =>
        Cart.total st' = Cart.total st + Product.price (CartItem.product existing)
        ∧ CartItem.cartId <$> Cart.items st' = CartItem.cartId <$> Cart.items st
    | None =>
        Cart.total st' = Cart.total st + Product.price product
        ∧ Cart.items st'
          = Cart.items st ++ [Cart.newLine newCartId product (Cart.optionsOr options)]
    end.
Proof.
  intros Hnd st'. unfold st', Cart.addItem.
  destruct (List.find _ _) as [existing|] eqn:Hfind; rewrite !cart_total_eq.
  - apply find_elem_of in Hfind as [Hin _].
    destruct (bump_line _ _ Hnd Hin) as (Ha & Hu & Hids).
    cbn [Cart.items]. by split_and!.
  - cbn [Cart.items].
    rewrite cartUnits_app, cartAmount_app. simpl. unfold lineAmount. simpl.
    split_and!; [lia|lia|done].
Qed.

Lemma addItem_one_unit_witness :
  cartUnits (Cart.items (Cart.addItem "c9" fiftyLot None
                           (Cart.addItem "c1" twoLots None Cart.empty)))
  = cartUnits (Cart.items (Cart.addItem "c1" twoLots None Cart.empty)) + 1.
Proof.
  apply (addItem_one_unit "c9" fiftyLot None
           (Cart.addItem "c1" twoLots None Cart.empty)).
  vm_compute. apply NoDup_singleton.
Defined.

(** X7. After any run of cart operations on the empty cart, no line has a
    quantity below 1. *)
Theorem cart_quantities_positive ops :
  Forall (λ i, 1 ≤ CartItem.quantity i) (Cart.items (Cart.run ops Cart.empty)).
Proof.
  unfold Cart.run.
  assert (Hstep : ∀ st op, Forall (λ i, 1 ≤ CartItem.quantity i) (Cart.items st) →
                           Forall (λ i, 1 ≤ CartItem.quantity i)
                                  (Cart.items (Cart.step st op))).
  { intros st [newCartId product options|cartId|cartId qty|] Hst; simpl.
    - unfold Cart.addItem. destruct (List.find _ _) as [existing|]; simpl.
      + apply Forall_fmap. eapply Forall_impl; [exact Hst|].
        intros i Hi. simpl in *. destruct (decide _); simpl; lia.
      + apply Forall_app. split; [done|]. by repeat constructor.
    - apply Forall_forall. intros i [_ Hi]%list_elem_of_filter.
      by eapply Forall_forall in Hst.
    - apply Forall_fmap. eapply Forall_impl; [exact Hst|].
      intros i Hi. simpl in *. destruct (decide _); simpl; lia.
    - constructor. }
  assert (Hrun : ∀ st, Forall (λ i, 1 ≤ CartItem.quantity i) (Cart.items st) →
                       Forall (λ i, 1 ≤ CartItem.quantity i)
                              (Cart.items (foldl Cart.step st ops))).
  { induction ops as [|op ops IH]; intros st Hst; simpl; [done|].
    by apply IH, Hstep. }
  apply Hrun. constructor.
Qed.

Lemma find_app_None {A} (f : A → bool) l1 l2 :
  List.find f l1 = None → List.find f (l1 ++ l2) = List.find f l2.
Proof.
  induction l1 as [|x l1 IH]; simpl; [done|].
  destruct (f x); [done|]. apply IH.
Qed.

Lemma find_None_Forall {A} (f : A → bool) l :
  Forall (λ x, f x = false) l → List.find f l = None.
Proof. induction 1 as [|x l Hx _ IH]; simpl; [done|]. by rewrite Hx. Qed.

Lemma filter_fresh_cartId c (l : list CartItem.t) :
  c ∉ (CartItem.cartId <$> l) → filter (λ i, CartItem.cartId i ≠ c) l = l.
Proof.
  induction l as [|x l IH]; [done|]. rewrite fmap_cons, not_elem_of_cons.
  intros [Hx Hl]. rewrite filter_cons_True by done. by rewrite IH.
Qed.

Lemma bump_fresh_cartId c (l : list CartItem.t) :
  c ∉ (CartItem.cartId <$> l) →
  (λ i, if decide (CartItem.cartId i = c)
        then CartItem.with_quantity i (CartItem.quantity i + 1) else i) <$> l = l.
Proof.
  induction l as [|x l IH]; [done|]. rewrite !fmap_cons, not_elem_of_cons.
  intros [Hx Hl]. rewrite decide_False by done. by rewrite IH.
Qed.

(** The line that [addItem] appends is one that the next [addItem] of the
    same product with the same options finds again, when the batch is given
    by a scan or by [batchId], or when the product has no batch. *)
Lemma newLine_sameLine id p o :
  is_Some (Cart.scannedBatchOf o) ∨ str_truthy (Cart.batchId o) = true
  ∨ (Cart.batchId o = None ∧ Product.batches p = []) →
  Cart.sameLine p o (Cart.newLine id p o) = true.
Proof.
  intros Hkey. unfold Cart.sameLine, Cart.newLine.
  cbn [CartItem.product CartItem.transaction_data CartItem.selectedBatchId
       CartItem.manager_override].
  rewrite !bool_decide_eq_true_2 by done.
  rewrite (bool_decide_eq_true_2 (Cart.override o = Cart.override o)) by done.
  rewrite andb_true_l, andb_true_r.
  destruct (Cart.scannedBatchOf o) as [s|] eqn:Hs.
  - unfold Cart.scannedBatchOf in Hs.
    destruct (Cart.transactionData o) as [td|]; [|done].
    destruct (str_truthy (CartItem.scanned_batch td)); [|done].
    by apply bool_decide_eq_true_2.
  - apply bool_decide_eq_true_2.
    destruct Hkey as [[? [=]]|[Hb|[Hb Hbs]]].
    + by rewrite Hb.
    + by rewrite Hb, Hbs.
Qed.

(** X8. A product added several times in a row with the same options, the
    batch being given by a scan or by [batchId] or the product having no
    batch, makes one line: when no line of the cart is the same and the key
    of the new line is not in the cart, the cart afterwards is the old cart
    with one line appended whose quantity is the number of times the product
    was added. *)
Theorem addItem_coalesces p options id1 ids st :
  List.find (Cart.sameLine p (Cart.optionsOr options)) (Cart.items st) = None →
  id1 ∉ (CartItem.cartId <$> Cart.items st) →
  is_Some (Cart.scannedBatchOf (Cart.optionsOr options))
  ∨ str_truthy (Cart.batchId (Cart.optionsOr options)) = true
  ∨ (Cart.batchId (Cart.optionsOr options) = None ∧ Product.batches p = []) →
  Cart.run ((λ id, Cart.AddItem id p options) <$> (id1 :: ids)) st
  = Cart.mkCart
      (Cart.items st
       ++ [CartItem.with_quantity (Cart.newLine id1 p (Cart.optionsOr options))
             (1 + Z.of_nat (length ids))])
      (Cart.customer st).
Proof.
  intros Hnone Hfresh Hkey.
  set (o := Cart.optionsOr options) in *.
  set (nl := Cart.newLine id1 p o).
  assert (Hrest : ∀ q,
    Cart.run ((λ id, Cart.AddItem id p options) <$> ids)
      (Cart.mkCart (Cart.items st ++ [CartItem.with_quantity nl q]) (Cart.customer st))
    = Cart.mkCart (Cart.items st
                   ++ [CartItem.with_quantity nl (q + Z.of_nat (length ids))])
        (Cart.customer st)).
  { unfold Cart.run. induction ids as [|id ids IH]; intros q.
    - simpl. by rewrite Z.add_0_r.
    - rewrite fmap_cons. cbn [foldl Cart.step]. unfold Cart.addItem.
      fold o. cbn [Cart.items Cart.customer].
      rewrite (find_app_None _ _ _ Hnone). cbn [List.find].
      replace (Cart.sameLine p o (CartItem.with_quantity nl q)) with true
        by (symmetry; apply (newLine_sameLine id1 p o Hkey)).
      rewrite fmap_app. change (CartItem.cartId (CartItem.with_quantity nl q)) with id1.
      rewrite (bump_fresh_cartId _ _ Hfresh).
      rewrite fmap_cons, fmap_nil.
      change (CartItem.cartId (CartItem.with_quantity nl q)) with id1.
      rewrite (decide_True (P := id1 = id1)) by done.
      change (CartItem.with_quantity (CartItem.with_quantity nl q)
                (CartItem.quantity (CartItem.with_quantity nl q) + 1))
        with (CartItem.with_quantity nl (q + 1)).
      rewrite IH.
      by replace (q + 1 + Z.of_nat (length ids))
        with (q + Z.of_nat (length (id :: ids))) by (cbn [length]; lia). }
  rewrite fmap_cons. unfold Cart.run. cbn [foldl Cart.step].
  unfold Cart.addItem. fold o. rewrite Hnone.
  fold (Cart.run ((λ id, Cart.AddItem id p options) <$> ids)
          (Cart.mkCart (Cart.items st ++ [Cart.newLine id1 p o]) (Cart.customer st))).
  change (Cart.newLine id1 p o) with (CartItem.with_quantity nl 1).
  apply Hrest.
Qed.

Lemma addItem_coalesces_witness :
  Cart.run ((λ id, Cart.AddItem id twoLots
                     (Some (Cart.mkOptions (Some "b1"%string) None None None)))
              <$> ["c1"; "c2"; "c3"]%string) Cart.empty
  = Cart.mkCart
      [CartItem.with_quantity
         (Cart.newLine "c1" twoLots (Cart.mkOptions (Some "b1"%string) None None None))
         (1 + Z.of_nat 2)]
      None.
Proof.
  apply (addItem_coalesces twoLots
           (Some (Cart.mkOptions (Some "b1"%string) None None None))
           "c1" ["c2"; "c3"]%string Cart.empty).
  - reflexivity.
  - simpl. apply not_elem_of_nil.
  - right. left. reflexivity.
Defined.

(** X9. A product that has a batch, added with neither [batchId] nor a
    scanned batch, never joins a line: when the lines of the product in the
    cart all have a selected batch, every such addition appends a line of
    its own with quantity 1. *)
Theorem addItem_without_batch_key p ids st :
  Product.batches p ≠ [] →
  Forall (λ i, Product.id (CartItem.product i) = Product.id p →
               CartItem.selectedBatchId i ≠ None) (Cart.items st) →
  Cart.run ((λ id, Cart.AddItem id p None) <$> ids) st
  = Cart.mkCart
      (Cart.items st ++ ((λ id, Cart.newLine id p (Cart.optionsOr None)) <$> ids))
      (Cart.customer st).
Proof.
  intros Hbs. revert st. unfold Cart.run.
  induction ids as [|id ids IH]; intros st Hst.
  - simpl. rewrite app_nil_r. by destruct st.
  - rewrite !fmap_cons. cbn [foldl Cart.step].
    assert (Hnone : List.find (Cart.sameLine p (Cart.optionsOr None)) (Cart.items st)
                    = None).
    { apply find_None_Forall. eapply Forall_impl; [exact Hst|].
      intros i Hi. unfold Cart.sameLine. simpl.
      destruct (decide (Product.id (CartItem.product i) = Product.id p)) as [Hid|Hid].
      - rewrite (bool_decide_eq_false_2 (CartItem.selectedBatchId i = None))
          by auto.
        by rewrite andb_false_r.
      - by rewrite (bool_decide_eq_false_2 _ Hid). }
    unfold Cart.addItem. rewrite Hnone.
    rewrite IH.
    + cbn [Cart.items Cart.customer]. by rewrite <- app_assoc.
    + cbn [Cart.items]. apply Forall_app. split; [done|].
      constructor; [|constructor]. intros _. unfold Cart.newLine. simpl.
      by destruct (Product.batches p).
Qed.

Lemma addItem_without_batch_key_witness :
  Cart.run ((λ id, Cart.AddItem id twoLots None) <$> ["c1"; "c2"]%string) Cart.empty
  = Cart.mkCart
      ([] ++ ((λ id, Cart.newLine id twoLots (Cart.optionsOr None))
                <$> ["c1"; "c2"]%string))
      None.
Proof.
  apply (addItem_without_batch_key twoLots ["c1"; "c2"]%string Cart.empty).
  - discriminate.
  - constructor.
Defined.

(** X10. After [removeItem] no line has the key, and the total has gone
    down by the amounts of the lines taken out.  Taking out the line that an
    addition has just appended under a new key gives the cart as it was. *)
Theorem removeItem_effect c st :
  (c ∉ (CartItem.cartId <$> Cart.items (Cart.removeItem c st)))
  ∧ Cart.total (Cart.removeItem c st)
    = Cart.total st
      - cartAmount (filter (λ i, CartItem.cartId i = c) (Cart.items st))
  ∧ ∀ p options,
      List.find (Cart.sameLine p (Cart.optionsOr options)) (Cart.items st) = None →
      c ∉ (CartItem.cartId <$> Cart.items st) →
      Cart.removeItem c (Cart.addItem c p options st) = st.
Proof.
  split_and!.
  - unfold Cart.removeItem. simpl.
    intros (i & Hc & Hi%list_elem_of_filter)%list_elem_of_fmap. by destruct Hi.
  - rewrite !cart_total_eq. unfold Cart.removeItem. simpl.
    induction (Cart.items st) as [|x l IH]; [done|].
    rewrite !filter_cons. destruct (decide (CartItem.cartId x = c)) as [Hx|Hx].
    + rewrite decide_False by auto. rewrite !cartAmount_cons. lia.
    + rewrite decide_True by done. rewrite !cartAmount_cons. lia.
  - intros p options Hnone Hfresh. unfold Cart.addItem. rewrite Hnone.
    unfold Cart.removeItem. simpl. rewrite filter_app.
    rewrite (filter_fresh_cartId _ _ Hfresh).
    rewrite filter_cons_False by (simpl; auto).
    rewrite filter_nil, app_nil_r. by destruct st.
Qed.

Lemma removeItem_effect_witness :
  Cart.removeItem "c1" (Cart.addItem "c1" twoLots None Cart.empty) = Cart.empty.
Proof.
  destruct (removeItem_effect "c1" Cart.empty) as (_ & _ & Hundo).
  apply Hundo; [reflexivity|]. simpl. apply not_elem_of_nil.
Defined.

(** ** The scanner and the route *)

Lemma post_rejects_cost ub pid body newId db :
  BatchesApi.costPrice body ≤ 0 →
  ∃ e, BatchesApi.post ub pid body newId db = inl e ∧ e ≠ BatchesApi.NotFound.
Proof.
  intros Hc. unfold BatchesApi.post.
  destruct (str_truthy ub); cbn [negb]; [|by eexists].
  unfold BatchesApi.createBatchSchema.
  replace (0 <? BatchesApi.costPrice body) with false by (symmetry; lia).
  rewrite andb_false_r. by eexists.
Qed.

(** A scan without code finds the first product whose [gtin] is [null],
    before the search by [sku] and [id] is tried; when the catalog has no
    such product, that search finds the product whose id is the text
    scanned. *)
Example identify_scan_without_code :
  Scanner.identify [noCodeProduct; twoLots] scanNoCode = Some noCodeProduct
  ∧ Scanner.identify [twoLots] scanNoCode = Some twoLots
  ∧ (Scanner.confirmAndSync [noCodeProduct; twoLots] march1 scanNoCode
       Scanner.initial).1
    = (true,
       Some (Scanner.mkCall "p8" None 4 (Some "PCS"%string) None None (Some 250))).
Proof. split_and!; reflexivity. Qed.

(** X11. A confirmed scan whose product is found is marked [SYNCED] and
    logged as a [SUCCESS] with the new quantity, whatever becomes of the
    [incrementStock] call it issues.  When the scan carries no cost price, or
    one that is not positive, the request which that call sends is refused by
    the [POST] route, for every user, clock and database: the scan is shown
    as synced and the database is as before. *)
Theorem synced_scan_without_cost catalog now item st product tz clock ub newId db :
  Scanner.identify catalog item = Some product →
  default 0 (Scanner.costPrice item) ≤ 0 →
  ∃ call st' settled log,
    Scanner.confirmAndSync catalog now item st = (true, Some call, st')
    ∧ head (Scanner.scannedItems st') = Some settled
    ∧ Scanner.syncStatus settled = Scanner.SYNCED
    ∧ head (Scanner.syncLogs st') = Some log
    ∧ Scanner.status log = Scanner.SUCCESS
    ∧ Scanner.newQuantity log = Product.stockLevel product + Scanner.quantity item
    ∧ Scanner.call_product call = Product.id product
    ∧ (∃ e, BatchesApi.post ub (Scanner.call_product call)
              (BatchesApi.bodyOf
                 (Store.incrementStock_batchData tz clock
                    (Scanner.call_batchNumber call) (Scanner.call_quantity call)
                    (Scanner.call_expiryDate call) (Scanner.call_costPrice call)))
              newId db = inl e)
    ∧ BatchesApi.post_db ub (Scanner.call_product call)
        (BatchesApi.bodyOf
           (Store.incrementStock_batchData tz clock
              (Scanner.call_batchNumber call) (Scanner.call_quantity call)
              (Scanner.call_expiryDate call) (Scanner.call_costPrice call)))
        newId db = db.
Proof.
  intros Hid Hcost. unfold Scanner.confirmAndSync. rewrite Hid.
  eexists _, _, _, _. split; [reflexivity|].
  cbn [Scanner.scannedItems Scanner.syncLogs Scanner.call_product
       Scanner.call_batchNumber Scanner.call_quantity Scanner.call_expiryDate
       Scanner.call_costPrice].
  split_and!; try reflexivity.
  - destruct (post_rejects_cost ub (Product.id product)
                (BatchesApi.bodyOf
                   (Store.incrementStock_batchData tz clock
                      (Scanner.batchNumber item) (Scanner.quantity item)
                      (Scanner.expiryDate item) (Scanner.costPrice item)))
                newId db Hcost) as (e & He & _).
    by exists e.
  - destruct (post_rejects_cost ub (Product.id product)
                (BatchesApi.bodyOf
                   (Store.incrementStock_batchData tz clock
                      (Scanner.batchNumber item) (Scanner.quantity item)
                      (Scanner.expiryDate item) (Scanner.costPrice item)))
                newId db Hcost) as (e & He & _).
    unfold BatchesApi.post_db. by rewrite He.
Qed.

Lemma synced_scan_without_cost_witness :
  ∃ call st',
    Scanner.confirmAndSync [twoLots] march1 scanNoCost Scanner.initial
    = (true, Some call, st')
    ∧ BatchesApi.post_db (Some "b1"%string) (Scanner.call_product call)
        (BatchesApi.bodyOf
           (Store.incrementStock_batchData 0 march1
              (Scanner.call_batchNumber call) (Scanner.call_quantity call)
              (Scanner.call_expiryDate call) (Scanner.call_costPrice call)))
        "b9" twoLotsDb = twoLotsDb.
Proof.
  destruct (synced_scan_without_cost [twoLots] march1 scanNoCost Scanner.initial
              twoLots 0 march1 (Some "b1"%string) "b9"%string twoLotsDb eq_refl)
    as (call & st' & _ & _ & Hr & _ & _ & _ & _ & _ & _ & _ & Hdb).
  - simpl. lia.
  - by exists call, st'.
Defined.

Lemma take_cons_take {A} n (x : A) l :
  take (S n) (x :: take (S n) l) = take (S n) (x :: l).
Proof. cbn [take]. f_equal. rewrite take_take. f_equal. lia. Qed.

(** X12. After a run of confirmations on a history within its bounds the
    scanned items are, by their ids, the confirmed scans from the newest to
    the oldest, followed by those that were there before, cut after the
    first 500; the logs are, by the scans they name, those of the
    confirmations whose product was found, in the same order, cut after the
    first 200. *)
Theorem scanner_history_contents events st :
  historyBounded st →
  Scanner.id <$> Scanner.scannedItems (Scanner.confirmAll events st)
  = take 500 (reverse ((λ ev, Scanner.id ev.2) <$> events)
              ++ (Scanner.id <$> Scanner.scannedItems st))
  ∧ Scanner.scanId <$> Scanner.syncLogs (Scanner.confirmAll events st)
    = take 200 (reverse ((λ ev, Scanner.id ev.2)
                           <$> filter (λ ev, is_Some (Scanner.identify ev.1.1 ev.2))
                                      events)
                ++ (Scanner.scanId <$> Scanner.syncLogs st)).
Proof.
  intros [Hbi Hbl].
  induction events as [|ev events [IHi IHl]] using rev_ind.
  - unfold Scanner.confirmAll. cbn [foldl]. rewrite filter_nil, !fmap_nil.
    change (reverse (@nil string)) with (@nil string). cbn [app].
    rewrite !take_ge by (rewrite length_fmap; lia). done.
  - rewrite confirmAll_snoc.
    pose proof (confirmAndSync_history ev.1.1 ev.1.2 ev.2
                  (Scanner.confirmAll events st)) as [(x & Hx & Hid & _) Hlog].
    cbn zeta in Hlog. split.
    + rewrite Hx, fmap_take, fmap_cons, Hid, IHi.
      rewrite take_cons_take. by rewrite fmap_app, reverse_app.
    + rewrite filter_app, filter_cons, filter_nil.
      assert (Hsync : (Scanner.confirmAndSync ev.1.1 ev.1.2 ev.2
                         (Scanner.confirmAll events st)).1.1
                      = bool_decide (is_Some (Scanner.identify ev.1.1 ev.2))).
      { unfold Scanner.confirmAndSync.
        destruct (Scanner.identify ev.1.1 ev.2); cbn [fst].
        - by rewrite bool_decide_eq_true_2.
        - rewrite bool_decide_eq_false_2; [done|]. by intros [? [=]]. }
      rewrite Hsync in Hlog.
      destruct (decide (is_Some (Scanner.identify ev.1.1 ev.2))) as [Hs|Hs].
      * rewrite bool_decide_eq_true_2 in Hlog by done.
        destruct Hlog as (log & Hl & Hscan & _).
        rewrite Hl, fmap_take, fmap_cons, Hscan, IHl.
        rewrite take_cons_take. by rewrite fmap_app, reverse_app.
      * rewrite bool_decide_eq_false_2 in Hlog by done.
        rewrite Hlog, IHl. by rewrite app_nil_r.
Qed.

Lemma scanner_history_contents_witness :
  Scanner.id
    <$> Scanner.scannedItems
          (Scanner.confirmAll [([twoLots], march1, scanNoCost);
                               ([], march1, scanNoCost)] Scanner.initial)
  = ["s1"; "s1"]%string.
Proof.
  destruct (scanner_history_contents
              [([twoLots], march1, scanNoCost); ([], march1, scanNoCost)]
              Scanner.initial) as [Hi _].
  - split; simpl; lia.
  - rewrite Hi. reflexivity.
Defined.

(** ** Saving the grid when no call throws *)

Lemma callsOf_eq ub fresh cat entry :
  StockEntryPage.callsOf ub fresh cat entry
  = if decide (GridRow.productName entry = EmptyString) then []
    else match StockEntryPage.findExisting cat entry with
         | Some existing =>
             [StockEntryPage.IncrementStock
                (StockEntryPage.stockArgsOf (Product.id existing)
                   (str_or (GridRow.batchNumber entry) "DEFAULT") entry)]
         | None =>
             [StockEntryPage.AddProduct
                (StockEntryPage.productOf ub (fresh entry) entry)]
         end.
Proof.
  unfold StockEntryPage.callsOf, StockEntryPage.saveEntry.
  destruct (decide (GridRow.productName entry = EmptyString)); [done|].
  destruct (StockEntryPage.findExisting cat entry) eqn:Hfind; [done|].
  reflexivity.
Qed.

Lemma saveEntry_no_throw ub fresh cat entry log :
  StockEntryPage.saveEntry (λ _ _, false) ub fresh cat entry log
  = (log ++ StockEntryPage.callsOf ub fresh cat entry, Some ()).
Proof.
  rewrite callsOf_eq. unfold StockEntryPage.saveEntry.
  destruct (decide (GridRow.productName entry = EmptyString)).
  { unfold StockEntryPage.ret. by rewrite app_nil_r. }
  destruct (StockEntryPage.findExisting cat entry) eqn:Hfind; [done|].
  reflexivity.
Qed.

Lemma saveEntries_no_throw ub fresh cat rows log :
  StockEntryPage.saveEntries (λ _ _, false) ub fresh cat rows log
  = (log ++ concat (StockEntryPage.callsOf ub fresh cat <$> rows), Some ()).
Proof.
  revert log. induction rows as [|entry rows IH]; intros log.
  - cbn. by rewrite app_nil_r.
  - cbn [StockEntryPage.saveEntries]. unfold StockEntryPage.bind at 1.
    rewrite saveEntry_no_throw, IH, fmap_cons. cbn [concat].
    by rewrite app_assoc.
Qed.

(** X13. When no call throws, a confirmed save of a grid that is not empty
    makes, row by row from the top, the calls of each row and then one
    [fetchProducts]; afterwards the grid is empty and the page has moved on.
    A row without a product name makes no call; a row whose product is in
    the catalog makes one [incrementStock], with [DEFAULT] for an empty batch
    number; any other row makes one [addProduct] and nothing else: the
    [incrementStock] that is to follow it is never made, since the catalog
    searched after the product was added is the one searched before. *)
Theorem saveAll_success ub fresh cat grid :
  grid ≠ [] →
  StockEntryPage.handleSaveAll (λ _ _, false) ub fresh cat true grid
  = (concat (StockEntryPage.callsOf ub fresh cat <$> grid)
       ++ [StockEntryPage.FetchProducts],
     StockEntryPage.mkPage [] false false true)
  ∧ Forall (λ entry,
      StockEntryPage.callsOf ub fresh cat entry
      = if decide (GridRow.productName entry = EmptyString) then []
        else match StockEntryPage.findExisting cat entry with
             | Some existing =>
                 [StockEntryPage.IncrementStock
                    (StockEntryPage.stockArgsOf (Product.id existing)
                       (str_or (GridRow.batchNumber entry) "DEFAULT") entry)]
             | None =>
                 [StockEntryPage.AddProduct
                    (StockEntryPage.productOf ub (fresh entry) entry)]
             end) grid.
Proof.
  intros Hgrid. split.
  - unfold StockEntryPage.handleSaveAll.
    destruct grid as [|row rows]; [done|]. cbn [negb].
    unfold StockEntryPage.bind. rewrite saveEntries_no_throw.
    unfold StockEntryPage.awaitFetch. by rewrite app_nil_l.
  - apply Forall_forall. intros entry _. apply callsOf_eq.
Qed.

Lemma saveAll_success_witness :
  (StockEntryPage.handleSaveAll (λ _ _, false) (Some "b1"%string) freshFor
     [twoLots] true threeRows).2
  = StockEntryPage.mkPage [] false false true.
Proof.
  destruct (saveAll_success (Some "b1"%string) freshFor [twoLots] threeRows)
    as [Hsave _]; [discriminate|].
  by rewrite Hsave.
Defined.

(** ** The header totals of the grid *)

Lemma foldl_sum {A} (f : A → Z) (l : list A) (a : Z) :
  foldl (λ sum x, sum + f x) a l = a + foldr (λ x acc, f x + acc) 0 l.
Proof.
  revert a. induction l as [|x l IH]; intros a; cbn [foldl foldr]; [lia|].
  rewrite IH. lia.
Qed.

Lemma totalItems_eq grid : StockGrid.totalItems grid = rowUnits grid.
Proof. unfold StockGrid.totalItems, rowUnits. rewrite foldl_sum. lia. Qed.

Lemma totalValue_eq grid : StockGrid.totalValue grid = rowValue grid.
Proof.
  unfold StockGrid.totalValue, rowValue.
  rewrite (foldl_sum (λ r, GridRow.quantity r * GridRow.costPrice r)). lia.
Qed.

Lemma rowUnits_insert grid i r r' :
  grid !! i = Some r →
  rowUnits (<[i := r']> grid) = rowUnits grid - GridRow.quantity r + GridRow.quantity r'.
Proof.
  revert i. induction grid as [|x grid IH]; intros [|i] Hi; try done.
  - injection Hi as ->. cbn. unfold rowUnits. lia.
  - cbn in Hi. change (<[S i := r']> (x :: grid)) with (x :: <[i := r']> grid).
    unfold rowUnits in *. cbn [foldr]. rewrite (IH i Hi). lia.
Qed.

Lemma rowValue_insert grid i r r' :
  grid !! i = Some r →
  rowValue (<[i := r']> grid)
  = rowValue grid - GridRow.quantity r * GridRow.costPrice r
    + GridRow.quantity r' * GridRow.costPrice r'.
Proof.
  revert i. induction grid as [|x grid IH]; intros [|i] Hi; try done.
  - injection Hi as ->. cbn. unfold rowValue. lia.
  - cbn in Hi. change (<[S i := r']> (x :: grid)) with (x :: <[i := r']> grid).
    unfold rowValue in *. cbn [foldr]. rewrite (IH i Hi). lia.
Qed.

Lemma newRowFor_quantity cat s :
  GridRow.quantity (StockEntryPage.newRowFor cat s) = 1.
Proof.
  unfold StockEntryPage.newRowFor.
  by destruct (StockEntryPage.lookupProduct cat (StockEntryPage.scannedCode s)).
Qed.

(** X14. Every scan adds one unit to the total of the header: after a run
    of scans the total of the items is the one before plus the number of
    scans.  The total value goes up, at each scan, by the cost price of the
    row that the scan bumps or, for a new row, by the cost price it is
    filled with. *)
Theorem scan_totals cat scans grid :
  StockGrid.totalItems (StockEntryPage.scanAll cat scans grid)
  = StockGrid.totalItems grid + Z.of_nat (length scans)
  ∧ ∀ s,
      StockGrid.totalValue (StockEntryPage.handleScan cat s grid)
      = StockGrid.totalValue grid
        + match list_find (λ row, GridRow.gtin row = StockEntryPage.scannedCode s)
                  grid with
          | Some (_, row) => GridRow.costPrice row
          | None => GridRow.costPrice (StockEntryPage.newRowFor cat s)
          end.
Proof.
  split.
  - unfold StockEntryPage.scanAll. revert grid.
    induction scans as [|s scans IH]; intros grid; cbn [foldl length].
    + lia.
    + rewrite IH, !totalItems_eq. unfold StockEntryPage.handleScan.
      destruct (list_find _ grid) as [[i r]|] eqn:Hfind.
      * apply list_find_Some in Hfind as (Hi & _ & _).
        rewrite (rowUnits_insert _ _ _ _ Hi).
        cbn [GridRow.quantity GridRow.with_quantity_highlight]. lia.
      * unfold rowUnits at 1. cbn [foldr]. fold (rowUnits grid).
        rewrite newRowFor_quantity. lia.
  - intros s. rewrite !totalValue_eq. unfold StockEntryPage.handleScan.
    destruct (list_find _ grid) as [[i r]|] eqn:Hfind.
    + apply list_find_Some in Hfind as (Hi & _ & _).
      rewrite (rowValue_insert _ _ _ _ Hi).
      cbn [GridRow.quantity GridRow.costPrice GridRow.with_quantity_highlight]. lia.
    + unfold rowValue at 1. cbn [foldr]. fold (rowValue grid).
      rewrite newRowFor_quantity. lia.
Qed.

(** X15. [deleteRow] takes the units of the rows with the id out of the
    total, and the rows left do not have the id.  When the rows that hold a
    code all have the id, the next scan of the code after [deleteRow] does
    not find it in the grid: it puts a new row with quantity 1 on top. *)
Theorem deleteRow_effect rid grid :
  StockGrid.totalItems (StockGrid.deleteRow rid grid)
  = StockGrid.totalItems grid - rowUnits (filter (λ row, GridRow.id row = rid) grid)
  ∧ Forall (λ row, GridRow.id row ≠ rid) (StockGrid.deleteRow rid grid)
  ∧ ∀ cat s,
      Forall (λ row, GridRow.gtin row = StockEntryPage.scannedCode s →
                     GridRow.id row = rid) grid →
      StockEntryPage.handleScan cat s (StockGrid.deleteRow rid grid)
      = StockEntryPage.newRowFor cat s :: StockGrid.deleteRow rid grid
      ∧ GridRow.quantity (StockEntryPage.newRowFor cat s) = 1.
Proof.
  split_and!.
  - rewrite !totalItems_eq. unfold StockGrid.deleteRow.
    induction grid as [|x grid IH]; [done|].
    rewrite !filter_cons. destruct (decide (GridRow.id x = rid)) as [Hx|Hx].
    + rewrite decide_False by auto. unfold rowUnits in *. cbn [foldr]. lia.
    + rewrite decide_True by done. unfold rowUnits in *. cbn [foldr]. lia.
  - apply Forall_forall. intros row [Hrow _]%list_elem_of_filter. done.
  - intros cat s Hcode. split; [|apply newRowFor_quantity].
    unfold StockEntryPage.handleScan.
    destruct (list_find _ (StockGrid.deleteRow rid grid)) as [[i r]|] eqn:Hfind;
      [|done].
    apply list_find_Some in Hfind as (Hi & Hg & _).
    apply list_elem_of_lookup_2 in Hi.
    apply list_elem_of_filter in Hi as [Hne Hin].
    rewrite Forall_forall in Hcode. by specialize (Hcode r Hin Hg).
Qed.

Lemma deleteRow_effect_witness :
  StockEntryPage.handleScan [] scanX2
    (StockGrid.deleteRow "row-1" (StockEntryPage.scanAll [] [scanX1; scanX1] []))
  = StockEntryPage.newRowFor [] scanX2
    :: StockGrid.deleteRow "row-1" (StockEntryPage.scanAll [] [scanX1; scanX1] [])
  ∧ GridRow.quantity (StockEntryPage.newRowFor [] scanX2) = 1.
Proof.
  destruct (deleteRow_effect "row-1"
              (StockEntryPage.scanAll [] [scanX1; scanX1] [])) as (_ & _ & Hscan).
  apply Hscan. repeat constructor.
Defined.

(** ** The key listener *)

Lemma listen_app l1 l2 st :
  ScanListener.listen (l1 ++ l2) st
  = ((ScanListener.listen l1 st).1
       ++ (ScanListener.listen l2 (ScanListener.listen l1 st).2).1,
     (ScanListener.listen l2 (ScanListener.listen l1 st).2).2).
Proof.
  revert st. induction l1 as [|e l1 IH]; intros st.
  - cbn. by destruct (ScanListener.listen l2 st).
  - cbn [app ScanListener.listen].
    destruct (ScanListener.handleKeyDown e st) as [out st1].
    rewrite IH. destruct (ScanListener.listen l1 st1) as [o1 s1]. cbn [fst snd].
    destruct (ScanListener.listen l2 s1) as [o2 s2]. cbn [fst snd].
    by destruct out.
Qed.

Lemma quick_app last l1 l2 :
  quick last (l1 ++ l2) ↔ quick last l1 ∧ quick (lastTime last l1) l2.
Proof.
  revert last. induction l1 as [|e l1 IH]; intros last; cbn [app quick].
  - unfold lastTime. cbn. tauto.
  - rewrite IH. unfold lastTime. cbn [foldl]. tauto.
Qed.

Lemma single_is_not_Enter (k : ScanListener.JSString) :
  length k = 1%nat → k ≠ ScanListener.Enter.
Proof. by intros Hk ->. Qed.

(** A run of keys of one code unit, each in time, is added to the buffer and
    nothing is handed over. *)
Lemma listen_quick_chars chars st :
  Forall (λ e, length (ScanListener.key e) = 1%nat) chars →
  quick (ScanListener.lastKeyTime st) chars →
  ScanListener.listen chars st
  = ([], ScanListener.mkListener (ScanListener.buffer st ++ typed chars)
           (lastTime (ScanListener.lastKeyTime st) chars)).
Proof.
  revert st. induction chars as [|e chars IH]; intros st Hlen Hq.
  - cbn. rewrite app_nil_r. by destruct st.
  - apply Forall_cons in Hlen as [He Hlen]. destruct Hq as [Hgap Hq].
    cbn [ScanListener.listen]. unfold ScanListener.handleKeyDown.
    replace (50 <? ScanListener.now e - ScanListener.lastKeyTime st) with false
      by (symmetry; lia).
    rewrite decide_False by by apply single_is_not_Enter.
    rewrite decide_True by done.
    rewrite (IH (ScanListener.mkListener (ScanListener.buffer st ++ ScanListener.key e)
                   (ScanListener.now e)) Hlen Hq).
    cbn [ScanListener.buffer ScanListener.lastKeyTime].
    unfold typed, lastTime. cbn [foldr foldl]. by rewrite <- app_assoc.
Qed.

(** X16. A run of keys of one UTF-16 code unit each in which every key
    after the first comes at most 50 ms after the one before, closed by
    [Enter] at most 50 ms after the last, hands over one code when that has
    more than two code units and none otherwise, and leaves the buffer empty.
    The code is what was typed, after what the buffer held when the first
    key came within 50 ms of the key before it; a pause before the first key
    empties the buffer. *)
Theorem fast_keys_scan st e1 rest tE :
  Forall (λ e, length (ScanListener.key e) = 1%nat) (e1 :: rest) →
  quick (ScanListener.now e1) (rest ++ [ScanListener.mkKey ScanListener.Enter tE]) →
  ScanListener.listen ((e1 :: rest) ++ [ScanListener.mkKey ScanListener.Enter tE]) st
  = (if (2 <? length (pending st (ScanListener.now e1) ++ typed (e1 :: rest)))%nat
     then [pending st (ScanListener.now e1) ++ typed (e1 :: rest)]
     else [],
     ScanListener.mkListener [] tE).
Proof.
  intros Hlen Hq. apply Forall_cons in Hlen as [He Hlen].
  apply quick_app in Hq as [Hq HE]. cbn [quick ScanListener.now] in HE.
  destruct HE as [HE _].
  cbn [app ScanListener.listen]. unfold ScanListener.handleKeyDown at 1.
  rewrite decide_False by by apply single_is_not_Enter.
  rewrite decide_True by done. fold (pending st (ScanListener.now e1)).
  rewrite listen_app, listen_quick_chars by done.
  cbn [fst snd ScanListener.buffer ScanListener.lastKeyTime ScanListener.listen].
  unfold ScanListener.handleKeyDown.
  cbn [ScanListener.now ScanListener.key ScanListener.buffer
       ScanListener.lastKeyTime].
  replace (50 <? tE - lastTime (ScanListener.now e1) rest) with false
    by (symmetry; lia).
  rewrite decide_True by done. rewrite <- app_assoc.
  change (ScanListener.key e1 ++ typed rest) with (typed (e1 :: rest)).
  by destruct (2 <? length _)%nat.
Qed.

Lemma fast_keys_scan_witness :
  ScanListener.listen
    ([ScanListener.mkKey keyEacute 1000; ScanListener.mkKey key1 1010;
      ScanListener.mkKey key2 1020]
     ++ [ScanListener.mkKey ScanListener.Enter 1030])
    (ScanListener.mkListener (key8 ++ key5) 0)
  = ([keyEacute ++ key1 ++ key2], ScanListener.mkListener [] 1030).
Proof.
  apply (fast_keys_scan (ScanListener.mkListener (key8 ++ key5) 0)
           (ScanListener.mkKey keyEacute 1000)
           [ScanListener.mkKey key1 1010; ScanListener.mkKey key2 1020] 1030).
  - repeat constructor.
  - simpl. lia.
Defined.

(** X17. Every code handed over has more than two UTF-16 code units, and
    after an [Enter] the buffer is empty.  Keys that each come more than
    50 ms after the one before hand over nothing, whatever they are. *)
Theorem slow_keys_never_scan events st :
  Forall (λ c, (2 < length c)%nat) (ScanListener.listen events st).1
  ∧ (∀ e, ScanListener.key e = ScanListener.Enter →
          ScanListener.buffer (ScanListener.handleKeyDown e st).2 = [])
  ∧ (slow (ScanListener.lastKeyTime st) events →
     (ScanListener.listen events st).1 = []).
Proof.
  split_and!.
  - revert st. induction events as [|e events IH]; intros st; [by constructor|].
    cbn [ScanListener.listen]. specialize (IH (ScanListener.handleKeyDown e st).2).
    destruct (ScanListener.handleKeyDown e st) as [out st1] eqn:Hstep.
    cbn [snd] in IH. destruct (ScanListener.listen events st1) as [outs st2].
    cbn [fst] in *. destruct out as [c|]; [|done]. constructor; [|done].
    unfold ScanListener.handleKeyDown in Hstep.
    destruct (decide (ScanListener.key e = ScanListener.Enter)).
    + destruct (2 <? length _)%nat eqn:Hl; [|done].
      injection Hstep as <- _. by apply Nat.ltb_lt in Hl.
    + by destruct (decide (length (ScanListener.key e) = 1%nat)).
  - intros e He. unfold ScanListener.handleKeyDown. rewrite decide_True by done.
    by destruct (2 <? length _)%nat.
  - revert st. induction events as [|e events IH]; intros st Hslow; [done|].
    destruct Hslow as [Hgap Hslow]. cbn [ScanListener.listen].
    unfold ScanListener.handleKeyDown.
    replace (50 <? ScanListener.now e - ScanListener.lastKeyTime st) with true
      by (symmetry; lia).
    destruct (decide (ScanListener.key e = ScanListener.Enter)).
    + cbn [length Nat.ltb Nat.leb].
      specialize (IH (ScanListener.mkListener [] (ScanListener.now e)) Hslow).
      destruct (ScanListener.listen events _). by cbn [fst] in *.
    + destruct (decide (length (ScanListener.key e) = 1%nat)).
      * specialize (IH (ScanListener.mkListener ([] ++ ScanListener.key e)
                          (ScanListener.now e)) Hslow).
        destruct (ScanListener.listen events _). by cbn [fst] in *.
      * specialize (IH (ScanListener.mkListener [] (ScanListener.now e)) Hslow).
        destruct (ScanListener.listen events _). by cbn [fst] in *.
Qed.

Lemma slow_keys_never_scan_witness :
  (ScanListener.listen
     [ScanListener.mkKey key8 1000; ScanListener.mkKey keyEacute 1100;
      ScanListener.mkKey key5 1200; ScanListener.mkKey key1 1300;
      ScanListener.mkKey ScanListener.Enter 1400]
     (ScanListener.mkListener [] 0)).1 = [].
Proof.
  destruct (slow_keys_never_scan
              [ScanListener.mkKey key8 1000; ScanListener.mkKey keyEacute 1100;
               ScanListener.mkKey key5 1200; ScanListener.mkKey key1 1300;
               ScanListener.mkKey ScanListener.Enter 1400]
              (ScanListener.mkListener [] 0)) as (_ & _ & Hslow).
  apply Hslow. simpl. lia.
Defined.

(** ** The view of the product store *)

Lemma filter_comm {A} (P Q : A → Prop) `{∀ x, Decision (P x)}
    `{∀ x, Decision (Q x)} (l : list A) :
  filter P (filter Q l) = filter Q (filter P l).
Proof.
  induction l as [|x l IH]; [done|]. rewrite !filter_cons.
  destruct (decide (Q x)), (decide (P x)); rewrite ?filter_cons;
    rewrite ?decide_True, ?decide_False by done; by rewrite IH.
Qed.

Lemma filter_Forall_id {A} (P : A → Prop) `{∀ x, Decision (P x)} (l : list A) :
  Forall P l → filter P l = l.
Proof.
  induction 1 as [|x l Hx _ IH]; [done|].
  rewrite filter_cons_True by done. by rewrite IH.
Qed.

Lemma step_keeps_view init mock app a :
  viewOk app → keepsView init app a → viewOk (App.step init mock app a).
Proof.
  unfold viewOk. intros Hv Hk.
  destruct a as [[[|b0 bs]|]| | |id|[answer|]| | | | |]; try done.
  - cbn [App.step App.fetchBranches App.productStore App.currentBranchId].
    cbn [keepsView] in Hk. by rewrite decide_False.
  - cbn [App.step]. unfold App.deleteBranch. cbn [keepsView] in Hk.
    destruct (decide (App.currentBranchId app = id)) as [Hcur|Hcur].
    + destruct (Hk Hcur) as (b0 & rest & -> & Hb0).
      rewrite decide_False by done. done.
    + cbn [App.productStore App.currentBranchId App.cascade Store.products
           Store.allProducts].
      rewrite Hv. unfold Store.branchView. apply filter_comm.
  - cbn [keepsView] in Hk. cbn [App.step App.onProducts App.productStore
      App.currentBranchId ProductActions.fetchProducts]. by rewrite Hk.
  - cbn [keepsView] in Hk. cbn [App.step App.onProducts App.productStore
      App.currentBranchId ProductActions.addProduct Store.products
      Store.allProducts].
    rewrite Hv. unfold Store.branchView. by rewrite filter_cons_True.
Qed.

(** X18. The view of the product store stays the master copy filtered by
    the current branch over every run of actions of the branch store and the
    product store in which no product is added for another branch than the
    current one, the products are not fetched in vain while another branch
    than the initial one is current, the branches are not fetched while no
    branch is current, and the current branch is deleted only when a branch
    with an id is left. *)
Theorem view_invariant init mock actions app :
  viewOk app → keepView init mock actions app →
  viewOk (App.run init mock actions app).
Proof.
  unfold App.run. revert app.
  induction actions as [|a actions IH]; intros app Hv Hk; [done|].
  destruct Hk as [Ha Hk]. cbn [foldl]. apply IH; [|done].
  by apply step_keeps_view.
Qed.

Lemma view_invariant_witness :
  viewOk
    (App.run "b1" [fiftyLot]
       [App.AddProduct fiftyLot; App.SetBranch "b2";
        App.RemoveBatchStock "p1" "LOT-A" 2 None; App.DeleteBranch "b2";
        App.FetchProducts None]
       twoBranchApp).
Proof.
  apply (view_invariant "b1" [fiftyLot]).
  - reflexivity.
  - cbn. split_and!; try done.
    intros _. by eexists _, _.
Defined.

(** X19. On a store whose view is the filtered master copy, the view after
    [addProduct] is the filtered master copy exactly when the product added
    is of the current branch; a product of another branch is shown all the
    same.  When no product has the id of the product added, [deleteProduct]
    of that id gives the store as it was before the addition. *)
Theorem addProduct_view cur transformed st :
  Store.products st = Store.branchView cur (Store.allProducts st) →
  (Store.products (ProductActions.addProduct transformed st)
   = Store.branchView cur
       (Store.allProducts (ProductActions.addProduct transformed st))
   ↔ Product.branchId transformed = cur)
  ∧ head (Store.products (ProductActions.addProduct transformed st))
    = Some transformed
  ∧ (Forall (λ q, Product.id q ≠ Product.id transformed) (Store.allProducts st) →
     ProductActions.deleteProduct cur (Product.id transformed)
       (ProductActions.addProduct transformed st) = st).
Proof.
  intros Hv. split_and!.
  - cbn [ProductActions.addProduct Store.products Store.allProducts].
    unfold Store.branchView in *. rewrite filter_cons.
    destruct (decide (Product.branchId transformed = cur)) as [Hb|Hb].
    + by rewrite Hv.
    + split; [|done]. rewrite <- Hv. intros Heq.
      apply (f_equal length) in Heq. cbn [length] in Heq. lia.
  - done.
  - intros Hfresh. unfold ProductActions.deleteProduct.
    cbn [ProductActions.addProduct Store.allProducts].
    rewrite filter_cons_False by (intros Hne; by apply Hne).
    rewrite (filter_Forall_id _ _ Hfresh), <- Hv. by destruct st.
Qed.

Lemma addProduct_view_witness :
  ProductActions.deleteProduct "b1" (Product.id fiftyLot)
    (ProductActions.addProduct fiftyLot twoLotsStore) = twoLotsStore.
Proof.
  destruct (addProduct_view "b1" fiftyLot twoLotsStore eq_refl) as (_ & _ & Hdel).
  apply Hdel. repeat constructor. discriminate.
Defined.

(** ** The local increment of the store *)

Lemma incrementLocalProduct_conserves newId now bn q unit loc expiry cost p :
  Product.stockLevel p = batchTotal (Product.batches p) →
  Product.stockLevel (Store.incrementLocalProduct newId now bn q unit loc expiry cost p)
  = batchTotal (Product.batches
      (Store.incrementLocalProduct newId now bn q unit loc expiry cost p)).
Proof.
  intros Hc. unfold Store.incrementLocalProduct.
  cbn [Product.stockLevel Product.batches Product.with_stock_meta].
  destruct (str_truthy bn && bool_decide (bn ≠ Some "DEFAULT"%string)).
  - destruct (findBatch _ _) as [[i b]|] eqn:Hf.
    + pose proof Hf as (Hi & _ & _)%findBatch_Some.
      rewrite (batchTotal_insert _ _ _ _ Hi). cbn [Batch.quantity Batch.with_quantity].
      lia.
    + rewrite batchTotal_app. cbn. lia.
  - destruct (Product.batches p) as [|b0 rest]; cbn in *; lia.
Qed.

(** X20. [_incrementStockLocal] keeps the ledger: when the stock level of
    every product is the sum of its batches it is so afterwards, in the
    master copy and in the view; the products keep their ids and branches;
    and the stock level of each product with the id goes up by the quantity,
    the other products being untouched.  This holds for every quantity, a
    negative one included. *)
Theorem incrementStockLocal_conserves cur newId now id bn q unit loc expiry cost st :
  Forall (λ p, Product.stockLevel p = batchTotal (Product.batches p))
         (Store.allProducts st) →
  let st' := Store._incrementStockLocal cur newId now id bn q unit loc expiry cost st in
  Forall (λ p, Product.stockLevel p = batchTotal (Product.batches p))
         (Store.allProducts st')
  ∧ Forall (λ p, Product.stockLevel p = batchTotal (Product.batches p))
           (Store.products st')
  ∧ Store.products st' = Store.branchView cur (Store.allProducts st')
  ∧ (λ p, (Product.id p, Product.branchId p)) <$> Store.allProducts st'
    = (λ p, (Product.id p, Product.branchId p)) <$> Store.allProducts st
  ∧ ∀ k p, Store.allProducts st !! k = Some p →
      ∃ p', Store.allProducts st' !! k = Some p'
            ∧ (if decide (Product.id p = id)
               then Product.stockLevel p' = Product.stockLevel p + q
               else p' = p).
Proof.
  intros Hall st'.
  assert (Hall' : Forall (λ p, Product.stockLevel p = batchTotal (Product.batches p))
                         (Store.allProducts st')).
  { unfold st', Store._incrementStockLocal. cbn [Store.allProducts].
    apply Forall_fmap. eapply Forall_impl; [exact Hall|].
    intros p Hp. cbn. destruct (decide (Product.id p = id)); [|done].
    by apply incrementLocalProduct_conserves. }
  split_and!.
  - done.
  - unfold st', Store._incrementStockLocal in *.
    cbn [Store.products Store.allProducts] in *. unfold Store.branchView.
    apply Forall_forall. intros p [_ Hp]%list_elem_of_filter.
    by eapply Forall_forall in Hall'.
  - done.
  - unfold st', Store._incrementStockLocal. cbn [Store.allProducts].
    rewrite <- list_fmap_compose. apply list_fmap_ext. intros k p _. cbn.
    by destruct (decide (Product.id p = id)).
  - intros k p Hk. unfold st', Store._incrementStockLocal.
    cbn [Store.allProducts]. rewrite list_lookup_fmap, Hk. cbn.
    eexists. split; [done|]. by destruct (decide (Product.id p = id)).
Qed.

Lemma incrementStockLocal_conserves_witness :
  Forall (λ p, Product.stockLevel p = batchTotal (Product.batches p))
    (Store.allProducts
       (Store._incrementStockLocal "b1" "b9" march1 "p1" (Some "LOT-C"%string)
          (-3) None None None None twoLotsStore)).
Proof.
  destruct (incrementStockLocal_conserves "b1" "b9" march1 "p1"
              (Some "LOT-C"%string) (-3) None None None None twoLotsStore)
    as (Hall & _).
  - repeat constructor.
  - exact Hall.
Defined.

(** ** The date range picker *)

Lemma handleDayClick_ordered day sel :
  ordered sel → ordered (DateRangePicker.handleDayClick day sel).
Proof.
  destruct sel as [[[f|] [t|]]|]; cbn; try done.
  intros _. destruct (day <? f) eqn:Hd; cbn; lia.
Qed.

(** X21. Over every run of day clicks a range with both ends keeps them in
    order, and after a click the range has a first day.  Two clicks on a
    range that is not waiting for its last day select the two days, the
    earlier one first, whichever was clicked first; the click after them
    starts a new range. *)
Theorem day_clicks_ordered days sel :
  (ordered sel → ordered (DateRangePicker.clicks days sel))
  ∧ (∀ d1 d2, ¬ halfOpen sel →
       DateRangePicker.clicks [d1; d2] sel
       = Some (DateRangePicker.mkRange (Some (Z.min d1 d2)) (Some (Z.max d1 d2)))
       ∧ ∀ d3, DateRangePicker.clicks [d1; d2; d3] sel
               = Some (DateRangePicker.mkRange (Some d3) None))
  ∧ (days ≠ [] →
     ∃ f t, DateRangePicker.clicks days sel
            = Some (DateRangePicker.mkRange (Some f) t)).
Proof.
  split_and!.
  - unfold DateRangePicker.clicks. revert sel.
    induction days as [|d days IH]; intros sel Hsel; [done|].
    cbn [foldl]. by apply IH, handleDayClick_ordered.
  - intros d1 d2 Hsel.
    assert (H1 : DateRangePicker.handleDayClick d1 sel
                 = Some (DateRangePicker.mkRange (Some d1) None)).
    { destruct sel as [[[f|] [t|]]|]; cbn in *; done. }
    unfold DateRangePicker.clicks. cbn [foldl]. rewrite H1.
    cbn [DateRangePicker.handleDayClick].
    destruct (d2 <? d1) eqn:Hd.
    + split; [|done]. do 2 f_equal; f_equal; lia.
    + split; [|done]. do 2 f_equal; f_equal; lia.
  - intros Hdays. unfold DateRangePicker.clicks.
    destruct days as [|d days _] using rev_ind; [done|].
    rewrite foldl_app. cbn [foldl].
    destruct (foldl _ sel days) as [[[f|] [t|]]|]; cbn; eauto.
    destruct (d <? f); eauto.
Qed.

Lemma day_clicks_ordered_witness :
  DateRangePicker.clicks [1710000000000; 1709000000000] None
  = Some (DateRangePicker.mkRange (Some 1709000000000) (Some 1710000000000)).
Proof.
  destruct (day_clicks_ordered [] None) as (_ & Htwo & _).
  destruct (Htwo 1710000000000 1709000000000) as [H2 _].
  - simpl. tauto.
  - exact H2.
Defined.
